(** * USB BOS / WebUSB / MS OS 2.0 descriptor analyzer

    A shallow embedding of the three decoders of
    [usb_bos_webusb_msos20_analyzer.c] ([parse_bos_descriptor],
    [parse_webusb_url_descriptor], [parse_msos20_descriptor]) and of
    [uuid_to_string], followed by the properties of the specification
    that are settled against them.

    Modelling conventions.
    - A buffer is the list of bytes the transport handed over; the
      declared length is a separate C [int], as in the source.
    - C [int] values are mathematical integers: none of the counters and
      offsets of the decoders leaves the [int] range for the buffers the
      program can receive (at most 512 bytes).  [uint8_t], [uint16_t] and
      [uint32_t] values are integers within their range.
    - Every [printf] becomes one [event] carrying the format string as it
      is written in the C source (escapes such as \n kept as written, the
      ANSI colour macros dropped) and the list of its arguments.  The
      severity of an event is [Error] for the messages printed in
      COLOR_RED, [Warning] for those in COLOR_ORANGE, [Info] otherwise.
    - Loops are run with fuel; running out of fuel is the [None] outcome
      of the monad, and is shown not to happen. *)

From Stdlib Require Import ZArith List Bool Lia.
From Stdlib.Strings Require Import String Ascii Byte.
Import ListNotations.
Open Scope Z_scope.

(* ================================================================== *)
(** ** Buffers *)

Definition buffer := list byte.

(** [data[i]] for an [unsigned char *data].  C leaves a read outside the
    array undefined; the model yields 0 there, which is what [main]'s
    zero-filled transfer buffer holds past the bytes received. *)
Definition u8 (data : buffer) (i : Z) : Z :=
  if i <? 0 then 0 else Z.of_N (Byte.to_N (nth (Z.to_nat i) data x00)).

(** [data[i] | (data[i + 1] << 8)] *)
Definition le16 (data : buffer) (i : Z) : Z :=
  Z.lor (u8 data i) (Z.shiftl (u8 data (i + 1)) 8).

(** [data[i] | (data[i+1] << 8) | (data[i+2] << 16) | (data[i+3] << 24)],
    converted to [uint32_t]. *)
Definition le32 (data : buffer) (i : Z) : Z :=
  (Z.lor (Z.lor (Z.lor (u8 data i) (Z.shiftl (u8 data (i + 1)) 8))
                (Z.shiftl (u8 data (i + 2)) 16))
         (Z.shiftl (u8 data (i + 3)) 24)) mod 2 ^ 32.

(* ================================================================== *)
(** ** Output events and the decoder monad *)

Inductive severity := Info | Warning | Error.

Inductive arg :=
| ArgInt (z : Z)
| ArgStr (s : string)
| ArgChar (c : ascii).

Record event := Pr { sev : severity; fmt : string; args : list arg }.

(** What a decoder run leaves behind: the events printed, in order, and
    the buffer indices read, in order. *)
Record trace := { out : list event; reads : list Z }.

Definition empty_trace : trace := {| out := []; reads := [] |}.

Definition M (A : Type) : Type := trace -> option (A * trace).

Definition ret {A} (a : A) : M A := fun t => Some (a, t).

Definition bind {A B} (m : M A) (k : A -> M B) : M B :=
  fun t => match m t with
           | Some (a, t') => k a t'
           | None => None
           end.

Definition out_of_fuel {A} : M A := fun _ => None.

Definition printf (s : severity) (f : string) (a : list arg) : M unit :=
  fun t => Some (tt, {| out := out t ++ [Pr s f a]; reads := reads t |}).

(** A logged read of [data[i]]. *)
Definition load (data : buffer) (i : Z) : M Z :=
  fun t => Some (u8 data i, {| out := out t; reads := reads t ++ [i] |}).

Declare Scope monad_scope.
Delimit Scope monad_scope with monad.
Notation "x <- m ;; k" := (bind m (fun x => k))
  (at level 61, m at next level, right associativity) : monad_scope.
Notation "m ;; k" := (bind m (fun _ => k))
  (at level 61, right associativity) : monad_scope.
Open Scope monad_scope.

(** [n] logged reads of consecutive bytes from index [i]. *)
Fixpoint touch (data : buffer) (i : Z) (n : nat) : M unit :=
  match n with
  | O => ret tt
  | S n' => _ <- load data i ;; touch data (i + 1) n'
  end.

Definition load16 (data : buffer) (i : Z) : M Z :=
  touch data i 2 ;; ret (le16 data i).

Definition load32 (data : buffer) (i : Z) : M Z :=
  touch data i 4 ;; ret (le32 data i).

(** The result of one pass through a loop body. *)
Inductive ctl (V : Type) :=
| Continue (v : V)
| Break (v : V).
Arguments Continue {V} v.
Arguments Break {V} v.

Definition run {A} (m : M A) : option trace :=
  match m empty_trace with
  | Some (_, t) => Some t
  | None => None
  end.

Definition is_error (e : event) : bool :=
  match sev e with Error => true | _ => false end.

Definition is_warning (e : event) : bool :=
  match sev e with Warning => true | _ => false end.

Definition errors (t : trace) : list event := filter is_error (out t).
Definition warnings (t : trace) : list event := filter is_warning (out t).

Definition below (n i : Z) : Prop := 0 <= i < n.

(** Every index read lies inside the declared length. *)
Definition reads_within (length : Z) (t : trace) : Prop :=
  Forall (below length) (reads t).

Definition reads_withinb (length : Z) (t : trace) : bool :=
  forallb (fun i => (0 <=? i) && (i <? length)) (reads t).

(* ================================================================== *)
(** ** UUID formatter *)

Definition hex_digits : list ascii := list_ascii_of_string "0123456789abcdef".

Definition hex_digit (n : Z) : ascii := nth (Z.to_nat n) hex_digits "0"%char.

(** [%02x] of a byte. *)
Definition hex2 (b : Z) : string :=
  String (hex_digit (b / 16)) (String (hex_digit (b mod 16)) EmptyString).

(** [uuid_to_string]: the pointer argument is the map from an index to
    the byte stored there. *)
Definition uuid_to_string (uuid : Z -> Z) : string :=
  (hex2 (uuid 3) ++ hex2 (uuid 2) ++ hex2 (uuid 1) ++ hex2 (uuid 0) ++ "-" ++
   hex2 (uuid 5) ++ hex2 (uuid 4) ++ "-" ++
   hex2 (uuid 7) ++ hex2 (uuid 6) ++ "-" ++
   hex2 (uuid 8) ++ hex2 (uuid 9) ++ "-" ++
   hex2 (uuid 10) ++ hex2 (uuid 11) ++ hex2 (uuid 12) ++
   hex2 (uuid 13) ++ hex2 (uuid 14) ++ hex2 (uuid 15))%string.

Definition WEBUSB_UUID_STR : string := "3408b638-09a9-47a0-8bfd-a0768815b665".
Definition MSOS20_UUID_STR : string := "d8dd60df-4589-4cc7-9cd2-659d9e648a9f".

Definition code (c : ascii) : Z := Z.of_N (N_of_ascii c).

Definition tolower (c : ascii) : ascii :=
  if (65 <=? code c) && (code c <=? 90)
  then ascii_of_N (N_of_ascii c + 32) else c.

(** [strcasecmp] of libc: the difference of the first two lower-cased
    characters that differ, 0 when there is none. *)
Fixpoint strcasecmp (s1 s2 : string) : Z :=
  match s1, s2 with
  | EmptyString, EmptyString => 0
  | EmptyString, String c2 _ => - code (tolower c2)
  | String c1 _, EmptyString => code (tolower c1)
  | String c1 r1, String c2 r2 =>
      let d := code (tolower c1) - code (tolower c2) in
      if d =? 0 then strcasecmp r1 r2 else d
  end.

(** The layout as the specification words it: the first four bytes
    reversed, the next two reversed, the next two reversed, the last
    eight in order; lowercase hex grouped 8-4-4-4-12. *)
Definition hex_of (bytes : list Z) : string :=
  fold_right (fun b s => (hex2 b ++ s)%string) EmptyString bytes.

Definition uuid_layout (bytes : list Z) : string :=
  (hex_of (rev (firstn 4 bytes)) ++ "-" ++
   hex_of (rev (firstn 2 (skipn 4 bytes))) ++ "-" ++
   hex_of (rev (firstn 2 (skipn 6 bytes))) ++ "-" ++
   hex_of (firstn 2 (skipn 8 bytes)) ++ "-" ++
   hex_of (firstn 6 (skipn 10 bytes)))%string.

Definition USB_DT_BOS : Z := 0x0F.
Definition USB_DT_DEVICE_CAPABILITY : Z := 0x10.
Definition USB_PLAT_DEV_CAP_TYPE : Z := 0x05.

(** [sizeof(struct usb_plat_dev_cap_descriptor)]: packed, four one-byte
    fields and the 16-byte UUID; the flexible array member adds nothing. *)
Definition sizeof_plat_dev_cap : Z := 20.

(* ================================================================== *)
(** ** BOS decoder *)

Module Bos.

Record vars := {
  offset : Z;
  cap_count : Z;
  error_count : Z;
  warning_count : Z
}.

(** The Platform branch of the loop body; yields the new [warning_count]. *)
Definition platform_capability (data : buffer) (cap_length : Z) (v : vars)
  : M Z :=
  let off := offset v in
  touch data (off + 4) 16 ;;
  let uuid_str := uuid_to_string (fun k => u8 data (off + 4 + k)) in
  printf Info "  Platform Capability:\n" [] ;;
  bReserved <- load data (off + 3) ;;
  printf Info "    bReserved: %d\n" [ArgInt bReserved] ;;
  printf Info "    UUID: %s\n" [ArgStr uuid_str] ;;
  if strcasecmp uuid_str WEBUSB_UUID_STR =? 0 then
    printf Info "    Type: WebUSB Platform Capability\n" [] ;;
    if cap_length >=? sizeof_plat_dev_cap + 4 then
      bcd_version <- load16 data (off + sizeof_plat_dev_cap) ;;
      vendor_code <- load data (off + sizeof_plat_dev_cap + 2) ;;
      landing_page <- load data (off + sizeof_plat_dev_cap + 3) ;;
      printf Info "    WebUSB Data:\n" [] ;;
      printf Info "      bcdVersion: 0x%04x\n" [ArgInt bcd_version] ;;
      printf Info "      bVendorCode: 0x%02x\n" [ArgInt vendor_code] ;;
      printf Info "      iLandingPage: %d (%s)\n"
        [ArgInt landing_page;
         ArgStr (if landing_page =? 1 then "Present" else "Not Present")] ;;
      if vendor_code =? 0 then
        printf Warning "      WARNING: WebUSB vendor code is 0 (invalid)\n" [] ;;
        ret (warning_count v + 1)
      else ret (warning_count v)
    else ret (warning_count v)
  else if strcasecmp uuid_str MSOS20_UUID_STR =? 0 then
    printf Info "    Type: MS OS 2.0 Platform Capability\n" [] ;;
    if cap_length >=? sizeof_plat_dev_cap + 8 then
      win_version <- load32 data (off + sizeof_plat_dev_cap) ;;
      desc_set_len <- load16 data (off + sizeof_plat_dev_cap + 4) ;;
      vendor_code <- load data (off + sizeof_plat_dev_cap + 6) ;;
      alt_enum <- load data (off + sizeof_plat_dev_cap + 7) ;;
      printf Info "    MS OS 2.0 Data:\n" [] ;;
      printf Info "      dwWindowsVersion: 0x%08x\n" [ArgInt win_version] ;;
      printf Info "      wMSOSDescriptorSetTotalLength: %d\n"
        [ArgInt desc_set_len] ;;
      printf Info "      bMS_VendorCode: 0x%02x\n" [ArgInt vendor_code] ;;
      printf Info "      bAltEnumCode: %d\n" [ArgInt alt_enum] ;;
      if negb (win_version =? 0x06030000) then
        printf Warning
          "      WARNING: Unusual Windows version (expected 0x06030000)\n" [] ;;
        ret (warning_count v + 1)
      else ret (warning_count v)
    else ret (warning_count v)
  else
    printf Info "    Type: Unknown Platform Capability\n" [] ;;
    ret (warning_count v).

(** One pass through the body of the [while] loop. *)
Definition capability (data : buffer) (length : Z) (v : vars)
  : M (ctl vars) :=
  let off := offset v in
  if off + 3 >? length then
    printf Error "ERROR: Truncated device capability at offset %d\n"
      [ArgInt off] ;;
    ret (Break {| offset := off; cap_count := cap_count v;
                  error_count := error_count v + 1;
                  warning_count := warning_count v |})
  else
    cap_length <- load data off ;;
    cap_type <- load data (off + 1) ;;
    cap_capability_type <- load data (off + 2) ;;
    printf Info "Device Capability %d (offset %d):\n"
      [ArgInt (cap_count v); ArgInt off] ;;
    printf Info "  bLength: %d\n" [ArgInt cap_length] ;;
    printf Info "  bDescriptorType: 0x%02x (%s)\n"
      [ArgInt cap_type;
       ArgStr (if cap_type =? USB_DT_DEVICE_CAPABILITY
               then "DEVICE_CAPABILITY" else "UNKNOWN")] ;;
    printf Info "  bDevCapabilityType: 0x%02x\n" [ArgInt cap_capability_type] ;;
    w <- (if (cap_capability_type =? USB_PLAT_DEV_CAP_TYPE)
             && (off + sizeof_plat_dev_cap <=? length)
          then platform_capability data cap_length v
          else
            printf Info "  Non-Platform Capability (type 0x%02x)\n"
              [ArgInt cap_capability_type] ;;
            ret (warning_count v)) ;;
    printf Info "\n" [] ;;
    ret (Continue {| offset := off + cap_length;
                     cap_count := cap_count v + 1;
                     error_count := error_count v;
                     warning_count := w |}).

(** [while (offset < length && cap_count < bos->bNumDeviceCaps)]; the
    header field is read through the overlaid struct at each test.
    [fuel] bounds the number of passes through the body. *)
Fixpoint walk (fuel : nat) (data : buffer) (length : Z) (v : vars)
  : M vars :=
  if negb (offset v <? length) then ret v
  else
    bNumDeviceCaps <- load data 4 ;;
    if negb (cap_count v <? bNumDeviceCaps) then ret v
    else
      match fuel with
      | O => out_of_fuel
      | S fuel' =>
          r <- capability data length v ;;
          match r with
          | Break v' => ret v'
          | Continue v' => walk fuel' data length v'
          end
      end.

Definition summary (v : vars) : M unit :=
  printf Info "=== BOS Summary ===\n" [] ;;
  printf Info "Parsed %d device capabilities, %d errors, %d warnings\n"
    [ArgInt (cap_count v); ArgInt (error_count v); ArgInt (warning_count v)] ;;
  (if (error_count v =? 0) && (warning_count v =? 0) then
     printf Info "✓ BOS descriptor appears to be well-formed\n" []
   else if error_count v =? 0 then
     printf Info "⚠ BOS descriptor is valid but has %d warning(s)\n"
       [ArgInt (warning_count v)]
   else
     printf Info "✗ BOS descriptor has %d error(s) and %d warning(s)\n"
       [ArgInt (error_count v); ArgInt (warning_count v)]) ;;
  printf Info "\n" [].

(** The header fields are read through [struct usb_bos_descriptor]
    overlaid on the buffer ([wTotalLength] as the host, little-endian,
    reads it). *)
Definition decode (fuel : nat) (data : buffer) (length : Z) : M unit :=
  printf Info "=== BOS Descriptor Analysis ===\n" [] ;;
  printf Info "Total BOS length: %d bytes\n\n" [ArgInt length] ;;
  if length <? 5 then
    printf Error "ERROR: BOS descriptor too short (%d bytes, minimum 5)\n"
      [ArgInt length]
  else
    printf Info "BOS Header:\n" [] ;;
    bLength <- load data 0 ;;
    printf Info "  bLength: %d\n" [ArgInt bLength] ;;
    bDescriptorType <- load data 1 ;;
    bDescriptorType' <- load data 1 ;;
    printf Info "  bDescriptorType: 0x%02x (%s)\n"
      [ArgInt bDescriptorType;
       ArgStr (if bDescriptorType' =? USB_DT_BOS then "BOS" else "UNKNOWN")] ;;
    wTotalLength <- load16 data 2 ;;
    printf Info "  wTotalLength: %d\n" [ArgInt wTotalLength] ;;
    bNumDeviceCaps <- load data 4 ;;
    printf Info "  bNumDeviceCaps: %d\n\n" [ArgInt bNumDeviceCaps] ;;
    bDescriptorType <- load data 1 ;;
    error_count <-
      (if negb (bDescriptorType =? USB_DT_BOS) then
         printf Error "ERROR: Invalid BOS descriptor type\n" [] ;; ret 1
       else ret 0) ;;
    wTotalLength <- load16 data 2 ;;
    warning_count <-
      (if negb (wTotalLength =? length) then
         wTotalLength' <- load16 data 2 ;;
         printf Warning
           "WARNING: BOS total length mismatch (reported=%d, actual=%d)\n"
           [ArgInt wTotalLength'; ArgInt length] ;;
         ret 1
       else ret 0) ;;
    bLength <- load data 0 ;;
    v <- walk fuel data length
           {| offset := bLength; cap_count := 0;
              error_count := error_count; warning_count := warning_count |} ;;
    summary v.

(** [bNumDeviceCaps] is a [uint8_t]: 255 passes are all the loop can make. *)
Definition parse_bos_descriptor (data : buffer) (length : Z) : option trace :=
  run (decode 255 data length).

End Bos.

(* ================================================================== *)
(** ** WebUSB URL decoder *)

Module WebUsbUrl.

Definition WEBUSB_URL_DESCRIPTOR_TYPE : Z := 3.
Definition WEBUSB_URL_SCHEME_HTTP : Z := 0.
Definition WEBUSB_URL_SCHEME_HTTPS : Z := 1.
Definition WEBUSB_URL_SCHEME_NONE : Z := 255.

(** [%c] of a byte. *)
Definition chr (c : Z) : ascii := ascii_of_N (Z.to_N c).

(** The [switch (bScheme)]: the name printed and the prefix selected. *)
Definition scheme (bScheme : Z) : M string :=
  if bScheme =? WEBUSB_URL_SCHEME_HTTP then
    printf Info "HTTP)\n" [] ;; ret "http://"%string
  else if bScheme =? WEBUSB_URL_SCHEME_HTTPS then
    printf Info "HTTPS)\n" [] ;; ret "https://"%string
  else if bScheme =? WEBUSB_URL_SCHEME_NONE then
    printf Info "None)\n" [] ;; ret ""%string
  else
    printf Info "Unknown)\n" [] ;; ret "unknown://"%string.

(** [for (int i = 3; i < length && i < bLength; i++) printf("%c", data[i]);]
    entered at [i]. *)
Fixpoint url_bytes (fuel : nat) (data : buffer) (length bLength i : Z)
  : M unit :=
  if (i <? length) && (i <? bLength) then
    match fuel with
    | O => out_of_fuel
    | S fuel' =>
        c <- load data i ;;
        printf Info "%c" [ArgChar (chr c)] ;;
        url_bytes fuel' data length bLength (i + 1)
    end
  else ret tt.

Definition decode (fuel : nat) (data : buffer) (length : Z) : M unit :=
  printf Info "=== WebUSB URL Descriptor ===\n" [] ;;
  printf Info "Length: %d bytes\n" [ArgInt length] ;;
  if length <? 3 then
    printf Error "ERROR: WebUSB URL descriptor too short\n" []
  else
    bLength <- load data 0 ;;
    bDescriptorType <- load data 1 ;;
    bScheme <- load data 2 ;;
    printf Info "bLength: %d\n" [ArgInt bLength] ;;
    printf Info "bDescriptorType: %d (%s)\n"
      [ArgInt bDescriptorType;
       ArgStr (if bDescriptorType =? WEBUSB_URL_DESCRIPTOR_TYPE
               then "WebUSB URL" else "UNKNOWN")] ;;
    printf Info "bScheme: %d (" [ArgInt bScheme] ;;
    scheme_prefix <- scheme bScheme ;;
    (if length >? 3 then
       printf Info "URL: %s" [ArgStr scheme_prefix] ;;
       url_bytes fuel data length bLength 3 ;;
       printf Info "\n" []
     else ret tt) ;;
    printf Info "\n" [].

(** The URL loop makes fewer passes than the buffer has bytes. *)
Definition parse_webusb_url_descriptor (data : buffer) (length : Z)
  : option trace :=
  run (decode (Z.to_nat length) data length).

(** The scheme map and the URL text as the specification words them. *)
Definition scheme_prefix_of (bScheme : Z) : string :=
  match bScheme with
  | 0 => "http://"
  | 1 => "https://"
  | 255 => ""
  | _ => "unknown://"
  end.

Definition scheme_name_of (bScheme : Z) : string :=
  match bScheme with
  | 0 => "HTTP)\n"
  | 1 => "HTTPS)\n"
  | 255 => "None)\n"
  | _ => "Unknown)\n"
  end.

(** The indices [lo], [lo + 1], ..., [hi - 1]. *)
Definition indices (lo hi : Z) : list Z :=
  map (fun k => lo + Z.of_nat k) (seq 0 (Z.to_nat (hi - lo))).

Definition raw_bytes (data : buffer) (lo hi : Z) : string :=
  string_of_list_ascii (map (fun i => chr (u8 data i)) (indices lo hi)).

(** The text a terminal shows for the events from the [URL:] one on: the
    [%s] argument followed by the [%c] arguments. *)
Fixpoint text_of (es : list event) : string :=
  match es with
  | [] => EmptyString
  | Pr _ _ [ArgStr s] :: es' => (s ++ text_of es')%string
  | Pr _ _ [ArgChar c] :: es' => String c (text_of es')
  | _ :: es' => text_of es'
  end.

End WebUsbUrl.

(* ================================================================== *)
(** ** MS OS 2.0 descriptor-set decoder

    The buffer is read here with [u8], [le16] and [le32]; the read log is
    kept by the two decoders above only. *)

Module MsOs20.

Definition MS_OS_20_SET_HEADER_DESCRIPTOR : Z := 0x00.
Definition MS_OS_20_SUBSET_HEADER_CONFIGURATION : Z := 0x01.
Definition MS_OS_20_SUBSET_HEADER_FUNCTION : Z := 0x02.
Definition MS_OS_20_FEATURE_COMPATIBLE_ID : Z := 0x03.
Definition MS_OS_20_FEATURE_REG_PROPERTY : Z := 0x04.

Record vars := {
  offset : Z;
  error_count : Z;
  warning_count : Z
}.

(** [printf(COLOR_RED ...); error_count++;] *)
Definition error (f : string) (a : list arg) (v : vars) : M vars :=
  printf Error f a ;;
  ret {| offset := offset v; error_count := error_count v + 1;
         warning_count := warning_count v |}.

(** [printf(COLOR_ORANGE ...); warning_count++;] *)
Definition warning (f : string) (a : list arg) (v : vars) : M vars :=
  printf Warning f a ;;
  ret {| offset := offset v; error_count := error_count v;
         warning_count := warning_count v + 1 |}.

(** [if (c) { ... }] around one of the two above. *)
Definition when (c : bool) (m : vars -> M vars) (v : vars) : M vars :=
  if c then m v else ret v.

Definition chr (c : Z) : ascii := ascii_of_N (Z.to_N c).

(** What [%.8s] prints of the bytes at [p]: at most [n] of them, up to
    the first zero byte. *)
Fixpoint precision_s (p : Z -> Z) (n : nat) : string :=
  match n with
  | O => EmptyString
  | S n' =>
      if p 0 =? 0 then EmptyString
      else String (chr (p 0)) (precision_s (fun k => p (k + 1)) n')
  end.

(** [strncmp] of libc against a string literal. *)
Fixpoint strncmp (p : Z -> Z) (s : string) (n : nat) : Z :=
  match n with
  | O => 0
  | S n' =>
      let c1 := p 0 in
      let c2 := match s with EmptyString => 0 | String c _ => code c end in
      if c1 =? c2 then
        if c1 =? 0 then 0
        else strncmp (fun k => p (k + 1))
                     (match s with EmptyString => EmptyString
                                 | String _ r => r end) n'
      else c1 - c2
  end.

Definition set_header (data : buffer) (length wLength : Z) (v : vars)
  : M vars :=
  let off := offset v in
  if wLength <? 10 then
    error "ERROR: Set Header too short (len=%d, expected=10)\n"
      [ArgInt wLength] v
  else
    let dwWindowsVersion := le32 data (off + 4) in
    let wTotalLength := le16 data (off + 8) in
    printf Info "Set Header (len=%d, winver=0x%08x, total=%d)\n"
      [ArgInt wLength; ArgInt dwWindowsVersion; ArgInt wTotalLength] ;;
    v <- when (negb (wTotalLength =? length))
           (warning "  WARNING: Total length mismatch (reported=%d, actual=%d)\n"
              [ArgInt wTotalLength; ArgInt length]) v ;;
    v <- when (negb (off =? 0))
           (warning "  WARNING: Set Header not at beginning (offset=%d)\n"
              [ArgInt off]) v ;;
    when (negb (dwWindowsVersion =? 0x06030000))
      (warning
         "  WARNING: Unusual Windows version (expected=0x06030000 for Win 8.1)\n"
         []) v.

Definition subset_header_configuration (data : buffer) (length wLength : Z)
  (v : vars) : M vars :=
  let off := offset v in
  if wLength <? 8 then
    error "ERROR: Configuration Subset Header too short (len=%d, expected=8)\n"
      [ArgInt wLength] v
  else
    let bConfigurationValue := u8 data (off + 4) in
    let bReserved := u8 data (off + 5) in
    let wTotalLength := le16 data (off + 6) in
    printf Info "Configuration Subset Header (len=%d, config=%d, total=%d)\n"
      [ArgInt wLength; ArgInt bConfigurationValue; ArgInt wTotalLength] ;;
    v <- when (negb (bReserved =? 0))
           (warning "  WARNING: Reserved field not zero (value=%d)\n"
              [ArgInt bReserved]) v ;;
    when (off + wTotalLength >? length)
      (error "  ERROR: Configuration subset extends beyond buffer\n" []) v.

Definition subset_header_function (data : buffer) (length wLength : Z)
  (v : vars) : M vars :=
  let off := offset v in
  if wLength <? 8 then
    error "ERROR: Function Subset Header too short (len=%d, expected=8)\n"
      [ArgInt wLength] v
  else
    let bFirstInterface := u8 data (off + 4) in
    let bReserved := u8 data (off + 5) in
    let wSubsetLength := le16 data (off + 6) in
    printf Info "Function Subset Header (len=%d, interface=%d, subset=%d)\n"
      [ArgInt wLength; ArgInt bFirstInterface; ArgInt wSubsetLength] ;;
    v <- when (negb (bReserved =? 0))
           (warning "  WARNING: Reserved field not zero (value=%d)\n"
              [ArgInt bReserved]) v ;;
    v <- when (off + wSubsetLength >? length)
           (error "  ERROR: Function subset extends beyond buffer\n" []) v ;;
    when (wSubsetLength <? wLength)
      (error "  ERROR: Function subset length smaller than header length\n" [])
      v.

Definition feature_compatible_id (data : buffer) (wLength : Z) (v : vars)
  : M vars :=
  let off := offset v in
  if wLength <? 20 then
    error "ERROR: Compatible ID Feature too short (len=%d, expected=20)\n"
      [ArgInt wLength] v
  else
    printf Info
      "Compatible ID Feature (len=%d, compat='%.8s', subcompat='%.8s')\n"
      [ArgInt wLength;
       ArgStr (precision_s (fun k => u8 data (off + 4 + k)) 8);
       ArgStr (precision_s (fun k => u8 data (off + 12 + k)) 8)] ;;
    let has_winusb :=
      strncmp (fun k => u8 data (off + 4 + k)) "WINUSB" 6 =? 0 in
    v <- when (negb has_winusb)
           (warning "  WARNING: Compatible ID is not 'WINUSB'\n" []) v ;;
    when (negb (u8 data (off + 4 + 6) =? 0) || negb (u8 data (off + 4 + 7) =? 0))
      (warning "  WARNING: Compatible ID not properly null-terminated\n" []) v.

(** [for (int i = 0; i < wPropertyNameLength - 2; i += 2)] entered at [i];
    [c] is the byte [data[offset + 8 + i]], which the two tests treat the
    same whether [char] is signed or not.  Yields [name_chars]. *)
Fixpoint property_name (fuel : nat) (data : buffer)
  (length off wPropertyNameLength i name_chars : Z) : M Z :=
  if i <? wPropertyNameLength - 2 then
    match fuel with
    | O => out_of_fuel
    | S fuel' =>
        if off + 8 + i + 1 <? length then
          let c := u8 data (off + 8 + i) in
          if (c >=? 32) && (c <=? 126) then
            printf Info "%c" [ArgChar (chr c)] ;;
            property_name fuel' data length off wPropertyNameLength (i + 2)
              (name_chars + 1)
          else if c =? 0 then ret name_chars
          else
            printf Info "?" [] ;;
            property_name fuel' data length off wPropertyNameLength (i + 2)
              name_chars
        else
          property_name fuel' data length off wPropertyNameLength (i + 2)
            name_chars
    end
  else ret name_chars.

(** [for (int i = 0; i < wPropertyDataLength - 2; i += 2)] entered at [i]. *)
Fixpoint property_data (fuel : nat) (data : buffer)
  (length data_offset wPropertyDataLength i : Z) : M unit :=
  if i <? wPropertyDataLength - 2 then
    match fuel with
    | O => out_of_fuel
    | S fuel' =>
        if data_offset + 2 + i <? length then
          let c := u8 data (data_offset + 2 + i) in
          if (c >=? 32) && (c <=? 126) then
            printf Info "%c" [ArgChar (chr c)] ;;
            property_data fuel' data length data_offset wPropertyDataLength
              (i + 2)
          else if c =? 0 then ret tt
          else
            printf Info "?" [] ;;
            property_data fuel' data length data_offset wPropertyDataLength
              (i + 2)
        else
          property_data fuel' data length data_offset wPropertyDataLength
            (i + 2)
    end
  else ret tt.

Definition feature_reg_property (data : buffer) (length wLength : Z)
  (v : vars) : M vars :=
  let off := offset v in
  if wLength <? 8 then
    error "ERROR: Registry Property Feature too short (len=%d, minimum=8)\n"
      [ArgInt wLength] v
  else
    let wPropertyDataType := le16 data (off + 4) in
    let wPropertyNameLength := le16 data (off + 6) in
    printf Info "Registry Property Feature (len=%d, datatype=%d, namelen=%d)\n"
      [ArgInt wLength; ArgInt wPropertyDataType; ArgInt wPropertyNameLength] ;;
    v <- when (negb (wPropertyDataType =? 1) && negb (wPropertyDataType =? 7))
           (warning
              "  WARNING: Unusual property data type (1=REG_SZ, 7=REG_MULTI_SZ)\n"
              []) v ;;
    if (wPropertyNameLength =? 0) || negb (wPropertyNameLength mod 2 =? 0) then
      error "  ERROR: Invalid property name length (must be even and >0)\n"
        [] v
    else if off + 8 + wPropertyNameLength >? length then
      error "  ERROR: Property name extends beyond descriptor\n" [] v
    else
      printf Info "  Property Name: " [] ;;
      name_chars <- property_name (Z.to_nat wPropertyNameLength) data length
                      off wPropertyNameLength 0 0 ;;
      printf Info "\n" [] ;;
      v <- when (name_chars =? 0)
             (warning "  WARNING: Empty property name\n" []) v ;;
      let data_offset := off + 8 + wPropertyNameLength in
      if data_offset + 2 >? length then
        error "  ERROR: Property data length field beyond descriptor\n" [] v
      else
        let wPropertyDataLength := le16 data data_offset in
        printf Info "  Property Data Length: %d\n"
          [ArgInt wPropertyDataLength] ;;
        let expected_total :=
          8 + wPropertyNameLength + 2 + wPropertyDataLength in
        v <- when (negb (expected_total =? wLength))
               (error "  ERROR: Length mismatch (calculated=%d, reported=%d)\n"
                  [ArgInt expected_total; ArgInt wLength]) v ;;
        if data_offset + 2 + wPropertyDataLength >? length then
          error "  ERROR: Property data extends beyond descriptor\n" [] v
        else if wPropertyDataLength >? 0 then
          printf Info "  Property Data: " [] ;;
          property_data (Z.to_nat wPropertyDataLength) data length
            data_offset wPropertyDataLength 0 ;;
          printf Info "\n" [] ;;
          ret v
        else ret v.

(** The [switch (wDescriptorType)]. *)
Definition dispatch (data : buffer) (length wLength wDescriptorType : Z)
  (v : vars) : M vars :=
  if wDescriptorType =? MS_OS_20_SET_HEADER_DESCRIPTOR then
    set_header data length wLength v
  else if wDescriptorType =? MS_OS_20_SUBSET_HEADER_CONFIGURATION then
    subset_header_configuration data length wLength v
  else if wDescriptorType =? MS_OS_20_SUBSET_HEADER_FUNCTION then
    subset_header_function data length wLength v
  else if wDescriptorType =? MS_OS_20_FEATURE_COMPATIBLE_ID then
    feature_compatible_id data wLength v
  else if wDescriptorType =? MS_OS_20_FEATURE_REG_PROPERTY then
    feature_reg_property data length wLength v
  else
    error "ERROR: Unknown Descriptor Type 0x%04x (len=%d)\n"
      [ArgInt wDescriptorType; ArgInt wLength] v.

(** One pass through the body of the [while] loop. *)
Definition descriptor (data : buffer) (length : Z) (v : vars)
  : M (ctl vars) :=
  let off := offset v in
  if off + 4 >? length then
    v <- error
           "ERROR: Truncated descriptor at offset %d (need 4 bytes, have %d)\n"
           [ArgInt off; ArgInt (length - off)] v ;;
    ret (Break v)
  else
    let wLength := le16 data off in
    let wDescriptorType := le16 data (off + 2) in
    printf Info "Offset %d: " [ArgInt off] ;;
    if wLength =? 0 then
      v <- error "ERROR: Zero length descriptor at offset %d\n"
             [ArgInt off] v ;;
      ret (Break v)
    else if wLength <? 4 then
      v <- error
             "ERROR: Invalid descriptor length %d at offset %d (minimum is 4)\n"
             [ArgInt wLength; ArgInt off] v ;;
      ret (Break v)
    else if off + wLength >? length then
      v <- error
             "ERROR: Descriptor extends beyond buffer (offset=%d, len=%d, buffer=%d)\n"
             [ArgInt off; ArgInt wLength; ArgInt length] v ;;
      ret (Break v)
    else
      v <- dispatch data length wLength wDescriptorType v ;;
      ret (Continue {| offset := off + wLength;
                       error_count := error_count v;
                       warning_count := warning_count v |}).

(** [while (offset < length)]; [fuel] bounds the passes through the body. *)
Fixpoint walk (fuel : nat) (data : buffer) (length : Z) (v : vars)
  : M vars :=
  if negb (offset v <? length) then ret v
  else
    match fuel with
    | O => out_of_fuel
    | S fuel' =>
        r <- descriptor data length v ;;
        match r with
        | Break v' => ret v'
        | Continue v' => walk fuel' data length v'
        end
    end.

Definition summary (v : vars) : M unit :=
  printf Info "\n=== Summary ===\n" [] ;;
  printf Info "Parsing completed: %d errors, %d warnings\n"
    [ArgInt (error_count v); ArgInt (warning_count v)] ;;
  (if (error_count v =? 0) && (warning_count v =? 0) then
     printf Info "✓ Descriptor appears to be well-formed\n" []
   else if error_count v =? 0 then
     printf Info "⚠ Descriptor is valid but has %d warning(s)\n"
       [ArgInt (warning_count v)]
   else
     printf Info "✗ Descriptor has %d error(s) and %d warning(s)\n"
       [ArgInt (error_count v); ArgInt (warning_count v)]) ;;
  printf Info "\n" [].

Definition decode (fuel : nat) (data : buffer) (length : Z) : M unit :=
  printf Info "=== MS OS 2.0 Descriptor Analysis ===\n" [] ;;
  printf Info "Total descriptor length: %d bytes\n\n" [ArgInt length] ;;
  v <- walk fuel data length
         {| offset := 0; error_count := 0; warning_count := 0 |} ;;
  summary v.

(** Every pass that continues moves the cursor forward, so the walk makes
    at most [length] passes. *)
Definition parse_msos20_descriptor (data : buffer) (length : Z)
  : option trace :=
  run (decode (Z.to_nat length) data length).

End MsOs20.

(* ================================================================== *)
(** ** Predicates on decoder runs

    [yields R m Q]: from every trace, [m] returns (it does not run out of
    fuel), its result satisfies [Q], and the trace it leaves is related
    to the one it started from by [R]. *)

Definition yields (R : trace -> trace -> Prop) {A} (m : M A) (Q : A -> Prop)
  : Prop :=
  forall t, exists a t', m t = Some (a, t') /\ R t t' /\ Q a.

(** No constraint on the trace, on what is printed, on what is read. *)
Definition anything (t t' : trace) : Prop := True.
Definition any_severity (s : severity) : Prop := True.
Definition any_index (i : Z) : Prop := True.

(** [t'] extends [t] by reads of indices below [n]. *)
Definition within (n : Z) (t t' : trace) : Prop :=
  exists rs, reads t' = reads t ++ rs /\ Forall (below n) rs.

(** [t'] extends [t] by events none of which is an error. *)
Definition calm (t t' : trace) : Prop :=
  exists es, out t' = out t ++ es /\ Forall (fun e => sev e <> Error) es.
Definition no_error (s : severity) : Prop := s <> Error.

(** The chain of device-capability records of a BOS buffer: the first
    one at [off], each next one where the previous one ends, [n] of them
    at most and only as far as the buffer reaches.  [each_record P]
    holds when [P off bLength] does of every record of the chain. *)
Fixpoint each_record (P : Z -> Z -> bool) (n : nat) (data : buffer)
  (length off : Z) : bool :=
  match n with
  | O => true
  | S n' =>
      if off <? length then
        P off (u8 data off)
        && each_record P n' data length (off + u8 data off)
      else true
  end.

(** A record of non-zero length that fits within the buffer. *)
Definition fits (length off bLength : Z) : bool :=
  negb (bLength =? 0) && (off + bLength <=? length).

(** The same, and the buffer holds the three bytes every record starts
    with ([bLength], [bDescriptorType], [bDevCapabilityType]). *)
Definition fits_whole (length off bLength : Z) : bool :=
  fits length off bLength && (off + 3 <=? length).

(** The indices read at or past [length]. *)
Definition reads_past (length : Z) (t : trace) : list Z :=
  filter (fun i => length <=? i) (reads t).

(** The line of the BOS summary carrying the counters. *)
Definition bos_counters (caps errs warns : Z) : event :=
  Pr Info "Parsed %d device capabilities, %d errors, %d warnings\n"
    [ArgInt caps; ArgInt errs; ArgInt warns].

(* ================================================================== *)
(** ** Sample buffers *)

Definition WEBUSB_UUID : list byte :=
  [x38; xb6; x08; x34; xa9; x09; xa0; x47;
   x8b; xfd; xa0; x76; x88; x15; xb6; x65].

Definition MSOS20_UUID : list byte :=
  [xdf; x60; xdd; xd8; x89; x45; xc7; x4c;
   x9c; xd2; x65; x9d; x9e; x64; x8a; x9f].

(** A BOS descriptor of 29 bytes with one WebUSB platform capability
    (bcdVersion 0x0100, vendor code 1, landing page 1). *)
Definition bos_webusb : buffer :=
  [x05; x0f; x1d; x00; x01;
   x18; x10; x05; x00] ++ WEBUSB_UUID ++ [x00; x01; x01; x01].

(** The same descriptor cut after the UUID: 25 bytes arrive, the
    capability still declares [bLength] 24. *)
Definition bos_webusb_cut : buffer :=
  [x05; x0f; x19; x00; x01;
   x18; x10; x05; x00] ++ WEBUSB_UUID.

(** An MS OS 2.0 platform capability declaring [bLength] 28, cut after
    the UUID. *)
Definition bos_msos20_cut : buffer :=
  [x05; x0f; x19; x00; x01;
   x1c; x10; x05; x00] ++ MSOS20_UUID.

(** Two capabilities announced, the first record declares [bLength] 0. *)
Definition bos_zero_length : buffer :=
  [x05; x0f; x08; x00; x02;
   x00; x10; x00].

(** One capability announced, of which a single byte arrived: a record
    of [bLength] 1 at offset 5. *)
Definition bos_one_byte_record : buffer :=
  [x05; x0f; x06; x00; x01;
   x01].

(** An MS OS 2.0 buffer declared 14 bytes long whose first record
    declares [wLength] 20; a well-formed Set Header follows at offset 4. *)
Definition msos20_overlong : buffer :=
  [x14; x00; x09; x00;
   x0a; x00; x00; x00; x00; x00; x03; x06; x0e; x00].

(** A record of unknown type 9 and length 4, then a Set Header. *)
Definition msos20_unknown_then_header : buffer :=
  [x04; x00; x09; x00;
   x0a; x00; x00; x00; x00; x00; x03; x06; x0e; x00].

(** A Registry-Property Feature: [wLength] 14, REG_SZ, a name of 4 bytes
    (the code unit of "A" and a null code unit), no data. *)
Definition msos20_reg_property_A : buffer :=
  [x0e; x00; x04; x00; x01; x00; x04; x00;
   x41; x00; x00; x00;
   x00; x00].

(** [bLength] 10, an unknown scheme 7, and 8 bytes after the header. *)
Definition webusb_url_unknown_scheme : buffer :=
  [x0a; x03; x07; x61; x2e; x62; x63; x20; x65; x66; x67].

(* ================================================================== *)
(** ** Weakest preconditions and event counts *)

(** The trace after one more event, after one more read, after [n]
    reads of consecutive indices. *)
Definition emit (e : event) (t : trace) : trace :=
  {| out := out t ++ [e]; reads := reads t |}.

Definition note (i : Z) (t : trace) : trace :=
  {| out := out t; reads := reads t ++ [i] |}.

Fixpoint touched (i : Z) (n : nat) (t : trace) : trace :=
  match n with
  | O => t
  | S n' => touched (i + 1) n' (note i t)
  end.

(** [wp m Q t]: run from [t], [m] returns a result and a trace that
    satisfy [Q]. *)
Definition wp {A} (m : M A) (Q : A -> trace -> Prop) (t : trace) : Prop :=
  match m t with
  | Some (a, t') => Q a t'
  | None => False
  end.

(** The numbers of error and of warning events printed so far. *)
Definition n_errors (t : trace) : Z := Z.of_nat (List.length (errors t)).
Definition n_warnings (t : trace) : Z := Z.of_nat (List.length (warnings t)).

(** The counters of the MS OS 2.0 walk have moved from [v] to [v'] by
    as much as the numbers of errors and warnings printed have from [t]
    to [t']. *)
Definition msos20_tally (v : MsOs20.vars) (t : trace) (v' : MsOs20.vars)
  (t' : trace) : Prop :=
  MsOs20.error_count v' - MsOs20.error_count v = n_errors t' - n_errors t /\
  MsOs20.warning_count v' - MsOs20.warning_count v
  = n_warnings t' - n_warnings t /\
  n_errors t <= n_errors t' /\ n_warnings t <= n_warnings t'.

(** The same for the BOS walk. *)
Definition bos_tally (v : Bos.vars) (t : trace) (v' : Bos.vars)
  (t' : trace) : Prop :=
  Bos.error_count v' - Bos.error_count v = n_errors t' - n_errors t /\
  Bos.warning_count v' - Bos.warning_count v = n_warnings t' - n_warnings t /\
  n_errors t <= n_errors t' /\ n_warnings t <= n_warnings t'.

(** The three length checks every pass of the MS OS 2.0 walk starts
    with: fewer than 4 bytes left, a [wLength] below 4, a record that
    runs past the buffer. *)
Definition msos20_rejects (data : buffer) (length off : Z) : bool :=
  (off + 4 >? length) || (le16 data off <? 4)
  || (off + le16 data off >? length).

(** The bytes of the buffer from [off] on are [bs]. *)
Fixpoint bytes_at (data : buffer) (off : Z) (bs : list byte) : bool :=
  match bs with
  | [] => true
  | b :: bs' =>
      (u8 data off =? Z.of_N (Byte.to_N b)) && bytes_at data (off + 1) bs'
  end.

(** An MS OS 2.0 descriptor set made of its Set Header alone. *)
Definition msos20_set_header_only : buffer :=
  [x0a; x00; x00; x00; x00; x00; x03; x06; x0a; x00].

(** The capability index and the offset printed by a capability header
    line of the BOS decoder, and those of a whole run, in order. *)
Definition record_of (e : event) : list (Z * Z) :=
  match e with
  | Pr _ f [ArgInt k; ArgInt off] =>
      if String.eqb f "Device Capability %d (offset %d):\n"
      then [(k, off)] else []
  | _ => []
  end.

Definition records (t : trace) : list (Z * Z) := flat_map record_of (out t).

(** The records of a BOS buffer as a walk over the bytes alone: record
    [k] lies at [off] if its first three bytes are in the buffer, the
    next one [bLength] bytes further, [n] records at most. *)
Fixpoint chain (n : nat) (data : buffer) (length off k : Z)
  : list (Z * Z) :=
  match n with
  | O => []
  | S n' =>
      if off + 3 <=? length
      then (k, off) :: chain n' data length (off + u8 data off) (k + 1)
      else []
  end.

(* ================================================================== *)
(** ** The parts of [main] that work on a received buffer

    [main] dumps each response in hex before decoding it, and after
    decoding the BOS descriptor walks it a second time to pick the
    vendor code and the landing-page index of the WebUSB capability. *)

Module Main.

(** [for (int i = 0; i < result; i++) { printf("%02x ", buffer[i]);
    if ((i + 1) % 16 == 0) printf("\n"); }] entered at [i]. *)
Fixpoint hex_dump_bytes (fuel : nat) (buffer : buffer) (result i : Z)
  : M unit :=
  if i <? result then
    match fuel with
    | O => out_of_fuel
    | S fuel' =>
        b <- load buffer i ;;
        printf Info "%02x " [ArgInt b] ;;
        (if (i + 1) mod 16 =? 0 then printf Info "\n" [] else ret tt) ;;
        hex_dump_bytes fuel' buffer result (i + 1)
    end
  else ret tt.

(** The dump of a response, under its title; [result] is positive where
    [main] dumps, so that C's [%] is [mod]. *)
Definition hex_dump (title : string) (buffer : buffer) (result : Z)
  : M unit :=
  printf Info title [] ;;
  hex_dump_bytes (Z.to_nat result) buffer result 0 ;;
  (if negb (result mod 16 =? 0) then printf Info "\n" [] else ret tt) ;;
  printf Info "\n" [].

(** The [if] block of the loop that looks for the WebUSB capability:
    the two bytes when the record is a WebUSB platform capability
    (the [break]), [None] to go on with the next record. *)
Definition webusb_platform (buffer : buffer)
  (result bos_offset cap_length cap_capability_type : Z)
  : M (option (Z * Z)) :=
  if (cap_capability_type =? USB_PLAT_DEV_CAP_TYPE)
     && (bos_offset + sizeof_plat_dev_cap <=? result)
  then
    touch buffer (bos_offset + 4) 16 ;;
    let uuid_str := uuid_to_string (fun k => u8 buffer (bos_offset + 4 + k)) in
    if (strcasecmp uuid_str WEBUSB_UUID_STR =? 0)
       && (cap_length >=? sizeof_plat_dev_cap + 4)
    then
      webusb_vendor_code <- load buffer (bos_offset + sizeof_plat_dev_cap + 2) ;;
      webusb_landing_page_index <-
        load buffer (bos_offset + sizeof_plat_dev_cap + 3) ;;
      ret (Some (webusb_vendor_code, webusb_landing_page_index))
    else ret None
  else ret None.

(** [for (int cap = 0; cap < buffer[4] && bos_offset < result; cap++)]
    entered at [cap] and [bos_offset]; yields [webusb_vendor_code] and
    [webusb_landing_page_index], both 0 when the loop ends without a
    match. *)
Fixpoint webusb_scan (fuel : nat) (buffer : buffer) (result cap bos_offset : Z)
  : M (Z * Z) :=
  bNumDeviceCaps <- load buffer 4 ;;
  if (cap <? bNumDeviceCaps) && (bos_offset <? result) then
    match fuel with
    | O => out_of_fuel
    | S fuel' =>
        if bos_offset + 3 >? result then ret (0, 0)
        else
          cap_length <- load buffer bos_offset ;;
          cap_capability_type <- load buffer (bos_offset + 2) ;;
          found <- webusb_platform buffer result bos_offset cap_length
                     cap_capability_type ;;
          match found with
          | Some codes => ret codes
          | None =>
              webusb_scan fuel' buffer result (cap + 1)
                (bos_offset + cap_length)
          end
    end
  else ret (0, 0).

(** The scan as [main] starts it: past the 5-byte BOS header. *)
Definition webusb_capability (buffer : buffer) (result : Z)
  : option ((Z * Z) * trace) :=
  webusb_scan 255 buffer result 0 5 empty_trace.

(** [if (webusb_vendor_code != 0 && webusb_landing_page_index != 0)]:
    whether [main] goes on to request the URL descriptor. *)
Definition fetches_url (codes : Z * Z) : bool :=
  negb (fst codes =? 0) && negb (snd codes =? 0).

End Main.

(** The bytes a hex dump has printed: the arguments of its [%02x]
    events, in order. *)
Definition dumped_byte (e : event) : list Z :=
  match e with
  | Pr _ f [ArgInt b] => if String.eqb f "%02x " then [b] else []
  | _ => []
  end.

Definition dumped (es : list event) : list Z := flat_map dumped_byte es.

(** The record at [off] is a WebUSB platform capability with its
    payload declared: platform type, the 20-byte header within the
    buffer, the WebUSB UUID, a [bLength] of at least 24. *)
Definition webusb_here (data : buffer) (length off : Z) : bool :=
  (u8 data (off + 2) =? USB_PLAT_DEV_CAP_TYPE)
  && (off + sizeof_plat_dev_cap <=? length)
  && bytes_at data (off + 4) WEBUSB_UUID
  && (u8 data off >=? sizeof_plat_dev_cap + 4).

(** The vendor code and landing-page bytes of the first such record
    among the first [n] records of the chain from [off]. *)
Fixpoint first_webusb (n : nat) (data : buffer) (length off : Z)
  : option (Z * Z) :=
  match n with
  | O => None
  | S n' =>
      if off + 3 <=? length then
        if webusb_here data length off
        then Some (u8 data (off + 22), u8 data (off + 23))
        else first_webusb n' data length (off + u8 data off)
      else None
  end.

(** The first integer argument of the first event printed with the
    format [f]. *)
Fixpoint first_arg (f : string) (es : list event) : option Z :=
  match es with
  | [] => None
  | Pr _ f' (ArgInt z :: _) :: es' =>
      if String.eqb f' f then Some z else first_arg f es'
  | _ :: es' => first_arg f es'
  end.

(** What the BOS decoder has printed as the WebUSB vendor code and
    landing page: those of the first "WebUSB Data" block of its output. *)
Definition reported_webusb (es : list event) : option (Z * Z) :=
  match first_arg "      bVendorCode: 0x%02x\n" es,
        first_arg "      iLandingPage: %d (%s)\n" es with
  | Some vendor_code, Some landing_page => Some (vendor_code, landing_page)
  | _, _ => None
  end.

Definition codes_or_zero (found : option (Z * Z)) : Z * Z :=
  match found with
  | Some codes => codes
  | None => (0, 0)
  end.

(** A BOS descriptor with a Container-ID-like 20-byte capability, then
    the WebUSB capability (vendor code 0x21, landing page 1). *)
Definition bos_two_capabilities : buffer :=
  [x05; x0f; x31; x00; x02;
   x14; x10; x04; x00;
   x00; x01; x02; x03; x04; x05; x06; x07;
   x08; x09; x0a; x0b; x0c; x0d; x0e; x0f;
   x18; x10; x05; x00] ++ WEBUSB_UUID ++ [x00; x01; x21; x01].

(** [es] holds a "WebUSB Data" block with the codes [found], or none. *)
Definition is_webusb_block (es : list event) (found : option (Z * Z)) : Prop :=
  first_arg "      bVendorCode: 0x%02x\n" es = option_map fst found /\
  first_arg "      iLandingPage: %d (%s)\n" es = option_map snd found.

(** The Compatible-ID field the MS OS 2.0 decoder expects: "WINUSB"
    and two zero bytes. *)
Definition WINUSB_ID : list byte :=
  [x57; x49; x4e; x55; x53; x42; x00; x00].

(** The WebUSB descriptor of [bos_webusb] with a vendor code of 0. *)
Definition bos_webusb_no_vendor_code : buffer :=
  [x05; x0f; x1d; x00; x01;
   x18; x10; x05; x00] ++ WEBUSB_UUID ++ [x00; x01; x00; x01].

(* ================================================================== *)
(** ** [main]

    libusb, [strtoul] and the device are outside the repository:
    [main] is modelled over an environment that answers each call.  It
    yields the exit status and the libusb calls it has made, each with
    its answer, in order; what it prints goes to the trace like the
    decoders' output. *)

Module Usb.

(** The setup of a [libusb_control_transfer]; the buffer is [main]'s
    and the timeout is 5000 ms in all three calls. *)
Record request :=
  { bmRequestType : Z; bRequest : Z; wValue : Z; wIndex : Z; wLength : Z }.

(** A call to libusb with its answer; [data] is the buffer after the
    transfer, which [main] clears before each one. *)
Inductive call :=
| Init (result : Z)
| OpenDeviceWithVidPid (vid pid : Z) (handle : bool)
| KernelDriverActive (result : Z)
| DetachKernelDriver (result : Z)
| ControlTransfer (setup : request) (result : Z) (data : buffer)
| Close
| Exit.

(** The constants of [libusb.h] that [main] names, [strtoul] with base
    0 (the value and the rest of the string at [endptr]), and the
    answers of libusb; a transfer's answer may depend on the calls made
    before it. *)
Record env := {
  LIBUSB_ENDPOINT_IN : Z;
  LIBUSB_REQUEST_TYPE_VENDOR : Z;
  LIBUSB_REQUEST_GET_DESCRIPTOR : Z;
  LIBUSB_ERROR_ACCESS : Z;
  LIBUSB_ERROR_NO_DEVICE : Z;
  LIBUSB_ERROR_NOT_FOUND : Z;
  LIBUSB_ERROR_TIMEOUT : Z;
  LIBUSB_ERROR_PIPE : Z;
  LIBUSB_ERROR_NOT_SUPPORTED : Z;
  strtoul : string -> Z * string;
  libusb_init : Z;
  libusb_open_device_with_vid_pid : Z -> Z -> bool;
  libusb_kernel_driver_active : Z;
  libusb_detach_kernel_driver : Z;
  libusb_control_transfer : list call -> request -> Z * buffer;
  libusb_error_name : Z -> string
}.

End Usb.

Import Usb.

Definition WEBUSB_GET_URL : Z := 2.

(** [sizeof(buffer)] *)
Definition sizeof_buffer : Z := 512.

Definition BOS_REQUEST (e : env) : request :=
  {| bmRequestType := LIBUSB_ENDPOINT_IN e;
     bRequest := LIBUSB_REQUEST_GET_DESCRIPTOR e;
     wValue := Z.shiftl USB_DT_BOS 8;
     wIndex := 0;
     wLength := sizeof_buffer |}.

Definition WEBUSB_URL_REQUEST (e : env) (codes : Z * Z) : request :=
  {| bmRequestType := Z.lor (LIBUSB_ENDPOINT_IN e) (LIBUSB_REQUEST_TYPE_VENDOR e);
     bRequest := fst codes;
     wValue := snd codes;
     wIndex := WEBUSB_GET_URL;
     wLength := sizeof_buffer |}.

Definition MSOS20_REQUEST : request :=
  {| bmRequestType := 0xC0;
     bRequest := 0x02;
     wValue := 0x0000;
     wIndex := 0x0007;
     wLength := sizeof_buffer |}.

(** [if (libusb_kernel_driver_active(handle, 0) == 1) { ... }] *)
Definition detach_kernel_driver (e : env) (calls : list call)
  : M (list call) :=
  let active := libusb_kernel_driver_active e in
  let calls := calls ++ [KernelDriverActive active] in
  if active =? 1 then
    printf Info
      "Kernel driver is active on interface 0, attempting to detach...\n" [] ;;
    let result := libusb_detach_kernel_driver e in
    let calls := calls ++ [DetachKernelDriver result] in
    (if negb (result =? 0) && negb (result =? LIBUSB_ERROR_NOT_FOUND e) then
       printf Warning "WARNING: Could not detach kernel driver: %s\n"
         [ArgStr (libusb_error_name e result)]
     else ret tt) ;;
    ret calls
  else ret calls.

(** The block under [if (webusb_vendor_code != 0 &&
    webusb_landing_page_index != 0)]. *)
Definition fetch_webusb_url (e : env) (calls : list call) (codes : Z * Z)
  : M (list call) :=
  let webusb_vendor_code := fst codes in
  let webusb_landing_page_index := snd codes in
  printf Info "=== Fetching WebUSB URL ===\n" [] ;;
  printf Info "Using WebUSB vendor code: 0x%02x\n"
    [ArgInt webusb_vendor_code] ;;
  printf Info "Using landing page index: %d\n"
    [ArgInt webusb_landing_page_index] ;;
  let answer := libusb_control_transfer e calls (WEBUSB_URL_REQUEST e codes) in
  let result := fst answer in
  let buffer := snd answer in
  let calls :=
    calls ++ [ControlTransfer (WEBUSB_URL_REQUEST e codes) result buffer] in
  (if result >? 0 then
     printf Info "SUCCESS: WebUSB URL descriptor retrieved (%d bytes)\n\n"
       [ArgInt result] ;;
     Main.hex_dump "Raw WebUSB URL data:\n" buffer result ;;
     WebUsbUrl.decode (Z.to_nat result) buffer result
   else
     printf Info "INFO: WebUSB URL request failed (%d): %s\n"
       [ArgInt result; ArgStr (libusb_error_name e result)] ;;
     (if result =? LIBUSB_ERROR_PIPE e then
        printf Info "  This may indicate no landing page is configured\n" []
      else ret tt) ;;
     printf Info "\n" []) ;;
  ret calls.

(** From ["=== Fetching BOS Descriptor ==="] to the end of the [if] on
    the BOS transfer's result. *)
Definition fetch_bos (e : env) (calls : list call) : M (list call) :=
  printf Info "=== Fetching BOS Descriptor ===\n" [] ;;
  let answer := libusb_control_transfer e calls (BOS_REQUEST e) in
  let result := fst answer in
  let buffer := snd answer in
  let calls := calls ++ [ControlTransfer (BOS_REQUEST e) result buffer] in
  if result >? 0 then
    printf Info "SUCCESS: BOS descriptor retrieved (%d bytes)\n\n"
      [ArgInt result] ;;
    Main.hex_dump "Raw BOS data:\n" buffer result ;;
    Bos.decode 255 buffer result ;;
    codes <- Main.webusb_scan 255 buffer result 0 5 ;;
    if Main.fetches_url codes then fetch_webusb_url e calls codes
    else
      printf Info "INFO: No WebUSB capability found in BOS descriptor\n\n" [] ;;
      ret calls
  else
    printf Info "INFO: BOS descriptor request failed (%d): %s\n"
      [ArgInt result; ArgStr (libusb_error_name e result)] ;;
    printf Info
      "Device may not support BOS descriptors (USB 2.0 device?)\n\n" [] ;;
    ret calls.

(** [switch (result)] on the failed MS OS 2.0 transfer. *)
Definition msos20_failure_hint (e : env) (result : Z) : M unit :=
  if result =? LIBUSB_ERROR_PIPE e then
    printf Info
      "  Device returned STALL - likely doesn't support MS OS 2.0 descriptors\n"
      [] ;;
    printf Info "  or the vendor code (0x02) is incorrect\n" []
  else if result =? LIBUSB_ERROR_TIMEOUT e then
    printf Info "  Request timed out - device may be unresponsive\n" []
  else if result =? LIBUSB_ERROR_NO_DEVICE e then
    printf Info "  Device was disconnected during request\n" []
  else if result =? LIBUSB_ERROR_ACCESS e then
    printf Info "  Access denied - try running with sudo\n" []
  else if result =? LIBUSB_ERROR_NOT_SUPPORTED e then
    printf Info
      "  Control transfer not supported by device or host controller\n" []
  else
    printf Info
      "  Check device documentation for supported vendor requests\n" [].

(** From ["=== Fetching MS OS 2.0 Descriptor ==="] to the end of the
    [if] on the transfer's result; yields [result] and the calls. *)
Definition fetch_msos20 (e : env) (calls : list call) : M (Z * list call) :=
  printf Info "=== Fetching MS OS 2.0 Descriptor ===\n" [] ;;
  printf Info "Sending MS OS 2.0 descriptor request...\n" [] ;;
  printf Info "  bmRequestType: 0xC0 (IN, VENDOR, DEVICE)\n" [] ;;
  printf Info "  bRequest: 0x02 (MS OS vendor code)\n" [] ;;
  printf Info "  wValue: 0x0000\n" [] ;;
  printf Info "  wIndex: 0x0007 (MS_OS_20_DESCRIPTOR_INDEX)\n" [] ;;
  printf Info "  wLength: %zu (buffer size)\n\n" [ArgInt sizeof_buffer] ;;
  let answer := libusb_control_transfer e calls MSOS20_REQUEST in
  let result := fst answer in
  let buffer := snd answer in
  let calls := calls ++ [ControlTransfer MSOS20_REQUEST result buffer] in
  (if result >? 0 then
     printf Info "SUCCESS: MS OS 2.0 descriptor retrieved (%d bytes)\n\n"
       [ArgInt result] ;;
     (if result <? 10 then
        printf Warning
          "WARNING: Descriptor very short (%d bytes), may be truncated\n"
          [ArgInt result]
      else ret tt) ;;
     Main.hex_dump "Raw MS OS 2.0 data:\n" buffer result ;;
     MsOs20.decode (Z.to_nat result) buffer result
   else if result =? 0 then
     printf Warning "WARNING: Device returned 0 bytes (empty response)\n" [] ;;
     printf Info
       "This may indicate the device doesn't support MS OS 2.0 descriptors\n"
       []
   else
     printf Error "ERROR: Failed to get MS OS 2.0 descriptor (%d): %s\n"
       [ArgInt result; ArgStr (libusb_error_name e result)] ;;
     msos20_failure_hint e result) ;;
  ret (result, calls).

(** [(uint16_t)strtoul(s, &endptr, 0)] with the test
    [*endptr != '\0' || id == 0]: the id, or [None] when it is refused. *)
Definition parse_id (e : env) (s : string) : option Z :=
  let id := fst (strtoul e s) mod 65536 in
  let endptr := snd (strtoul e s) in
  if negb (String.eqb endptr "") || (id =? 0) then None else Some id.

(** [main]; [argv] holds the [argc] arguments.  With no argument at
    all [argv[0]] is a null pointer, printed here as the empty string. *)
Definition main (e : env) (argv : list string) : M (Z * list call) :=
  let argc := Z.of_nat (List.length argv) in
  let argv_ (n : nat) := nth n argv EmptyString in
  if negb (argc =? 3) then
    printf Info "Usage: %s <vid> <pid>\n" [ArgStr (argv_ 0%nat)] ;;
    printf Info "Example: %s 0x361d 0x0202\n" [ArgStr (argv_ 0%nat)] ;;
    printf Info "         %s 13917 514\n" [ArgStr (argv_ 0%nat)] ;;
    ret (-1, [])
  else
    match parse_id e (argv_ 1%nat) with
    | None =>
        printf Error
          "ERROR: Invalid VID '%s' (must be a valid hex or decimal number)\n"
          [ArgStr (argv_ 1%nat)] ;;
        ret (-1, [])
    | Some vid =>
        match parse_id e (argv_ 2%nat) with
        | None =>
            printf Error
              "ERROR: Invalid PID '%s' (must be a valid hex or decimal number)\n"
              [ArgStr (argv_ 2%nat)] ;;
            ret (-1, [])
        | Some pid =>
            printf Info "Looking for USB device %04x:%04x\n"
              [ArgInt vid; ArgInt pid] ;;
            let result := libusb_init e in
            let calls := [Init result] in
            if negb (result =? 0) then
              printf Error "ERROR: Failed to initialize libusb: %s\n"
                [ArgStr (libusb_error_name e result)] ;;
              ret (-1, calls)
            else
              let handle := libusb_open_device_with_vid_pid e vid pid in
              let calls := calls ++ [OpenDeviceWithVidPid vid pid handle] in
              if negb handle then
                printf Error "ERROR: Device %04x:%04x not found\n"
                  [ArgInt vid; ArgInt pid] ;;
                printf Info "Make sure:\n" [] ;;
                printf Info "- Device is connected and powered\n" [] ;;
                printf Info
                  "- You have permission to access USB devices (try with sudo)\n"
                  [] ;;
                printf Info
                  "- VID:PID values are correct (check with lsusb)\n" [] ;;
                ret (-1, calls ++ [Exit])
              else
                printf Info "Device opened successfully\n" [] ;;
                calls <- detach_kernel_driver e calls ;;
                calls <- fetch_bos e calls ;;
                fetched <- fetch_msos20 e calls ;;
                let result := fst fetched in
                let calls := snd fetched ++ [Close; Exit] in
                ret (if result >? 0 then 0 else -1, calls)
        end
    end.

(** The transfers among the calls. *)
Definition transfer_of (c : call) : list (request * Z * buffer) :=
  match c with
  | ControlTransfer setup result data => [(setup, result, data)]
  | _ => []
  end.

Definition transfers (calls : list call) : list (request * Z * buffer) :=
  flat_map transfer_of calls.

(** A call that takes the device handle and leaves it open. *)
Definition on_device (c : call) : bool :=
  match c with
  | KernelDriverActive _ | DetachKernelDriver _ | ControlTransfer _ _ _ => true
  | _ => false
  end.

(** The calls of a well-formed libusb session: nothing; or an [Init]
    that failed; or a successful [Init] closed by [Exit], with between
    them an open that failed, or one that succeeded followed by calls on
    the device up to a [Close] just before the [Exit]. *)
Definition session (calls : list call) : bool :=
  match calls with
  | [] => true
  | Init result :: rest =>
      if result =? 0 then
        match rest with
        | OpenDeviceWithVidPid _ _ handle :: rest' =>
            match rev rest' with
            | Exit :: Close :: used => handle && forallb on_device used
            | [Exit] => negb handle
            | _ => false
            end
        | _ => false
        end
      else match rest with [] => true | _ => false end
  | _ => false
  end.

(** The two ids [main] takes from an argument vector, when it accepts
    it. *)
Definition ids (e : env) (argv : list string) : option (Z * Z) :=
  match argv with
  | [_; vid; pid] =>
      match parse_id e vid, parse_id e pid with
      | Some vid, Some pid => Some (vid, pid)
      | _, _ => None
      end
  | _ => None
  end.

(* ================================================================== *)
(** * Properties *)

(** ** Bytes *)

Lemma u8_range (data : buffer) (i : Z) : 0 <= u8 data i <= 255.
Proof.
  unfold u8. destruct (i <? 0); [lia|].
  pose proof (Byte.to_N_bounded (nth (Z.to_nat i) data x00)). lia.
Qed.

Lemma le16_range (data : buffer) (i : Z) : 0 <= le16 data i < 65536.
Proof.
  unfold le16.
  pose proof (u8_range data i) as H0. pose proof (u8_range data (i + 1)) as H1.
  assert (Hs : 0 <= Z.shiftl (u8 data (i + 1)) 8) by (apply Z.shiftl_nonneg; lia).
  split; [apply Z.lor_nonneg; lia|].
  change 65536 with (2 ^ 16).
  apply Z.log2_lt_cancel. rewrite Z.log2_pow2 by lia.
  destruct (Z.eq_dec (Z.lor (u8 data i) (Z.shiftl (u8 data (i + 1)) 8)) 0) as [E|E].
  - rewrite E. cbn. lia.
  - rewrite Z.log2_lor by lia.
    apply Z.max_lub_lt.
    + destruct (Z.eq_dec (u8 data i) 0) as [E0|E0]; [rewrite E0; cbn; lia|].
      apply Z.log2_lt_pow2; [lia|]. change (2 ^ 16) with 65536. lia.
    + destruct (Z.eq_dec (u8 data (i + 1)) 0) as [E1|E1].
      * rewrite E1. cbn. lia.
      * rewrite Z.log2_shiftl by lia.
        assert (Z.log2 (u8 data (i + 1)) < 8)
          by (apply Z.log2_lt_pow2; [lia|]; change (2 ^ 8) with 256; lia).
        lia.
Qed.

(** ** Reasoning about decoder runs

    The rules of [yields], for any relation [R] the primitives respect;
    [ok] tells which severities may be printed and [okidx] which indices
    may be read. *)

Section Yields.

Variable R : trace -> trace -> Prop.
Variable ok : severity -> Prop.
Variable okidx : Z -> Prop.
Hypothesis R_refl : forall t, R t t.
Hypothesis R_trans : forall t1 t2 t3, R t1 t2 -> R t2 t3 -> R t1 t3.
Hypothesis R_load :
  forall t i, okidx i -> R t {| out := out t; reads := reads t ++ [i] |}.
Hypothesis R_printf :
  forall t s f a, ok s ->
    R t {| out := out t ++ [Pr s f a]; reads := reads t |}.

Local Abbreviation yields := (yields R).

Lemma yields_ret {A} (a : A) (Q : A -> Prop) : Q a -> yields (ret a) Q.
Proof. intros Ha t. exists a, t. auto. Qed.

Lemma yields_bind {A B} (m : M A) (k : A -> M B) (Q1 : A -> Prop)
  (Q2 : B -> Prop) :
  yields m Q1 -> (forall a, Q1 a -> yields (k a) Q2) -> yields (bind m k) Q2.
Proof.
  intros Hm Hk t. destruct (Hm t) as (a & t1 & E1 & R1 & Ha).
  destruct (Hk a Ha t1) as (b & t2 & E2 & R2 & Hb).
  exists b, t2. unfold bind. rewrite E1. eauto.
Qed.

Lemma yields_weaken {A} (m : M A) (Q Q' : A -> Prop) :
  yields m Q -> (forall a, Q a -> Q' a) -> yields m Q'.
Proof.
  intros Hm HQ t. destruct (Hm t) as (a & t' & E & Rt & Ha).
  exists a, t'. auto.
Qed.

Lemma yields_printf (s : severity) (f : string) (a : list arg) :
  ok s -> yields (printf s f a) (fun _ => True).
Proof. intros Hs t. eexists; eexists. split; [reflexivity|]. auto. Qed.

Lemma yields_load (data : buffer) (i : Z) :
  okidx i -> yields (load data i) (fun x => x = u8 data i).
Proof. intros Hi t. eexists; eexists. split; [reflexivity|]. auto. Qed.

Lemma yields_touch (data : buffer) (n : nat) (i : Z) :
  (forall k, 0 <= k < Z.of_nat n -> okidx (i + k)) ->
  yields (touch data i n) (fun _ => True).
Proof.
  revert i. induction n as [|n IH]; intros i Hi; cbn [touch].
  - now apply yields_ret.
  - eapply yields_bind.
    + apply yields_load. rewrite <- (Z.add_0_r i). apply Hi. lia.
    + intros _ _. apply IH. intros k Hk.
      replace (i + 1 + k) with (i + (k + 1)) by lia. apply Hi. lia.
Qed.

Lemma yields_load16 (data : buffer) (i : Z) :
  (forall k, 0 <= k < 2 -> okidx (i + k)) ->
  yields (load16 data i) (fun x => x = le16 data i).
Proof.
  intros Hi. unfold load16. eapply yields_bind; [now apply yields_touch|].
  intros _ _. now apply yields_ret.
Qed.

Lemma yields_load32 (data : buffer) (i : Z) :
  (forall k, 0 <= k < 4 -> okidx (i + k)) ->
  yields (load32 data i) (fun x => x = le32 data i).
Proof.
  intros Hi. unfold load32. eapply yields_bind; [now apply yields_touch|].
  intros _ _. now apply yields_ret.
Qed.

(** Sequencing after a primitive, with the value it returns put in place. *)

Lemma yields_after_printf {B} s f a (k : unit -> M B) (Q : B -> Prop) :
  ok s -> yields (k tt) Q -> yields (bind (printf s f a) k) Q.
Proof.
  intros Hs Hk. eapply yields_bind; [now apply yields_printf|].
  intros [] _. exact Hk.
Qed.

Lemma yields_after_load {B} data i (k : Z -> M B) (Q : B -> Prop) :
  okidx i -> yields (k (u8 data i)) Q -> yields (bind (load data i) k) Q.
Proof.
  intros Hi Hk. eapply yields_bind; [now apply yields_load|].
  intros a ->. exact Hk.
Qed.

Lemma yields_after_load16 {B} data i (k : Z -> M B) (Q : B -> Prop) :
  (forall j, 0 <= j < 2 -> okidx (i + j)) ->
  yields (k (le16 data i)) Q -> yields (bind (load16 data i) k) Q.
Proof.
  intros Hi Hk. eapply yields_bind; [now apply yields_load16|].
  intros a ->. exact Hk.
Qed.

Lemma yields_after_load32 {B} data i (k : Z -> M B) (Q : B -> Prop) :
  (forall j, 0 <= j < 4 -> okidx (i + j)) ->
  yields (k (le32 data i)) Q -> yields (bind (load32 data i) k) Q.
Proof.
  intros Hi Hk. eapply yields_bind; [now apply yields_load32|].
  intros a ->. exact Hk.
Qed.

Lemma yields_after_touch {B} data i n (k : unit -> M B) (Q : B -> Prop) :
  (forall j, 0 <= j < Z.of_nat n -> okidx (i + j)) ->
  yields (k tt) Q -> yields (bind (touch data i n) k) Q.
Proof.
  intros Hi Hk. eapply yields_bind; [now apply yields_touch|].
  intros [] _. exact Hk.
Qed.

End Yields.

(** The three instances. *)

Lemma anything_refl (t : trace) : anything t t.
Proof. exact I. Qed.

Lemma anything_trans (t1 t2 t3 : trace) :
  anything t1 t2 -> anything t2 t3 -> anything t1 t3.
Proof. intros; exact I. Qed.

Lemma anything_load (t : trace) (i : Z) :
  any_index i -> anything t {| out := out t; reads := reads t ++ [i] |}.
Proof. intros; exact I. Qed.

Lemma anything_printf (t : trace) (s : severity) (f : string) (a : list arg) :
  any_severity s ->
  anything t {| out := out t ++ [Pr s f a]; reads := reads t |}.
Proof. intros; exact I. Qed.

Lemma calm_refl (t : trace) : calm t t.
Proof. exists []. rewrite app_nil_r. auto. Qed.

Lemma calm_trans (t1 t2 t3 : trace) : calm t1 t2 -> calm t2 t3 -> calm t1 t3.
Proof.
  intros (e1 & E1 & F1) (e2 & E2 & F2). exists (e1 ++ e2).
  rewrite E2, E1, app_assoc. split; [reflexivity|]. apply Forall_app; auto.
Qed.

Lemma calm_load (t : trace) (i : Z) :
  any_index i -> calm t {| out := out t; reads := reads t ++ [i] |}.
Proof. intros _. exists []. cbn. rewrite app_nil_r. auto. Qed.

Lemma calm_printf (t : trace) (s : severity) (f : string) (a : list arg) :
  no_error s -> calm t {| out := out t ++ [Pr s f a]; reads := reads t |}.
Proof. intros Hs. exists [Pr s f a]. cbn. auto. Qed.

Lemma calm_errors (t t' : trace) : calm t t' -> errors t' = errors t.
Proof.
  intros (es & E & F). unfold errors. rewrite E, filter_app.
  replace (filter is_error es) with (@nil event); [now rewrite app_nil_r|].
  clear E. induction F as [|e es He _ IH]; [reflexivity|].
  cbn [filter]. unfold is_error at 1.
  destruct (sev e); try congruence; exact IH.
Qed.

Lemma within_refl (n : Z) (t : trace) : within n t t.
Proof. exists []. rewrite app_nil_r. auto. Qed.

Lemma within_trans (n : Z) (t1 t2 t3 : trace) :
  within n t1 t2 -> within n t2 t3 -> within n t1 t3.
Proof.
  intros (r1 & E1 & F1) (r2 & E2 & F2). exists (r1 ++ r2).
  rewrite E2, E1, app_assoc. split; [reflexivity|]. apply Forall_app; auto.
Qed.

Lemma within_load (n : Z) (t : trace) (i : Z) :
  below n i -> within n t {| out := out t; reads := reads t ++ [i] |}.
Proof. intros Hi. exists [i]. cbn. auto. Qed.

Lemma within_printf (n : Z) (t : trace) (s : severity) (f : string)
  (a : list arg) :
  any_severity s ->
  within n t {| out := out t ++ [Pr s f a]; reads := reads t |}.
Proof. intros _. exists []. cbn. rewrite app_nil_r. auto. Qed.

(** ** Tactics *)

Ltac yields_side :=
  first [ exact calm_refl | exact calm_trans | exact calm_load
        | exact calm_printf | exact anything_refl | exact anything_trans
        | exact anything_load | exact anything_printf
        | exact (within_refl _) | exact (within_trans _)
        | exact (within_load _) | exact (within_printf _) ].

Ltac yields_ok :=
  first [ exact I | unfold no_error; discriminate ].

Ltac yields_idx :=
  first [ exact I
        | intros; exact I
        | unfold below, sizeof_plat_dev_cap in *; intros;
          cbn [Z.of_nat Pos.of_succ_nat Pos.succ] in *; lia ].

(** Runs through straight-line code and conditionals, up to the [ret]s
    and to the calls it does not know. *)
Ltac yields_step :=
  lazymatch goal with
  | |- yields _ (bind (printf _ _ _) _) _ =>
      eapply yields_after_printf; [yields_side | yields_side | yields_ok | ]
  | |- yields _ (bind (load _ _) _) _ =>
      eapply yields_after_load; [yields_side | yields_side | yields_idx | ]
  | |- yields _ (bind (load16 _ _) _) _ =>
      eapply yields_after_load16;
      [yields_side | yields_side | yields_side | yields_idx | ]
  | |- yields _ (bind (load32 _ _) _) _ =>
      eapply yields_after_load32;
      [yields_side | yields_side | yields_side | yields_idx | ]
  | |- yields _ (bind (touch _ _ _) _) _ =>
      eapply yields_after_touch;
      [yields_side | yields_side | yields_side | yields_idx | ]
  | |- yields _ (printf _ _ _) _ =>
      eapply yields_weaken;
      [eapply yields_printf; [yields_side | yields_ok] | intros [] _]
  | |- yields _ (ret _) _ => apply yields_ret; [yields_side | ]
  | |- yields _ (if ?c then _ else _) _ => destruct c eqn:?
  end.

Ltac yields_run := repeat (cbv zeta; yields_step).

(** A block whose result is not needed. *)
Ltac yields_block :=
  eapply yields_bind with (Q1 := fun _ => True);
  [yields_side | yields_run; try exact I | intros ? _].

Ltac yields_total :=
  repeat first
    [ yields_step
    | exact I
    | eapply yields_bind with (Q1 := fun _ => True);
      [yields_side | | intros ? _] ].

Ltac in_list := repeat first [left; reflexivity | right].

(** Settles the comparisons that follow from the hypotheses. *)
Ltac decide_tests :=
  repeat match goal with
         | |- context [?a >? ?b] =>
             first [ replace (a >? b) with true by lia
                   | replace (a >? b) with false by lia ]
         | |- context [?a <? ?b] =>
             first [ replace (a <? b) with true by lia
                   | replace (a <? b) with false by lia ]
         | |- context [?a =? ?b] =>
             first [ replace (a =? b) with true by lia
                   | replace (a =? b) with false by lia ]
         end.

(** Evaluates the tests of the conditionals that hold no variable. *)
Ltac eval_tests :=
  repeat match goal with
         | |- context [if ?c then _ else _] =>
             lazymatch c with
             | true => fail
             | false => fail
             | _ => idtac
             end;
             let c' := eval vm_compute in c in
             lazymatch c' with
             | true => change c with true
             | false => change c with false
             end;
             cbv beta iota
         end.

(* ================================================================== *)
(** ** BOS decoder: the capability walk returns *)

Lemma bos_platform_capability_returns (data : buffer) (cap_length : Z)
  (v : Bos.vars) :
  yields anything (Bos.platform_capability data cap_length v) (fun _ => True).
Proof. unfold Bos.platform_capability. yields_run; exact I. Qed.

Lemma bos_capability_counts (data : buffer) (length : Z) (v : Bos.vars) :
  yields anything (Bos.capability data length v)
    (fun r => match r with
              | Continue v' => Bos.cap_count v' = Bos.cap_count v + 1
              | Break v' => Bos.cap_count v' = Bos.cap_count v
              end).
Proof.
  unfold Bos.capability. yields_run; [reflexivity|].
  eapply yields_bind with (Q1 := fun _ => True); [yields_side | |].
  - yields_run; [apply bos_platform_capability_returns | exact I].
  - intros w _. yields_run. reflexivity.
Qed.

Lemma bos_walk_returns (data : buffer) (length : Z) :
  forall (fuel : nat) (v : Bos.vars),
    (Z.to_nat (u8 data 4 - Bos.cap_count v) <= fuel)%nat ->
    yields anything (Bos.walk fuel data length v)
      (fun v' => Bos.cap_count v <= Bos.cap_count v'
                 <= Z.max (Bos.cap_count v) (u8 data 4)).
Proof.
  induction fuel as [|fuel IH]; intros v Hfuel; cbn [Bos.walk].
  - yields_run; lia.
  - yields_run; try lia.
    eapply yields_bind; [yields_side | apply bos_capability_counts|].
    intros [v'|v'] Hv'.
    + eapply yields_weaken; [apply IH; lia|]. cbn beta. intros a Ha. lia.
    + yields_run. lia.
Qed.

Lemma bos_summary_returns (v : Bos.vars) :
  yields anything (Bos.summary v) (fun _ => True).
Proof.
  unfold Bos.summary. yields_run. yields_block. yields_run. exact I.
Qed.

Lemma bos_decode_returns (data : buffer) (length : Z) :
  yields anything (Bos.decode 255 data length) (fun _ => True).
Proof.
  unfold Bos.decode. yields_run; [exact I|].
  yields_block. yields_run. yields_block.
  yields_run. eapply yields_bind; [yields_side | apply bos_walk_returns|].
  - cbn [Bos.cap_count]. pose proof (u8_range data 4). lia.
  - intros v _. apply bos_summary_returns.
Qed.

(** C10. Whatever the buffer and the declared length, the capability
    walk returns within [bNumDeviceCaps] passes of its body, a number
    that is at most 255: started with [cap_count = 0] and given exactly
    that many passes it does not run out, and it leaves [cap_count] at
    most [bNumDeviceCaps].  Nothing is assumed of the record lengths, so
    this holds as well when a record declares length 0.  Hence the whole
    BOS decode returns on every input. *)
Theorem bos_walk_terminates (data : buffer) (length : Z) :
  u8 data 4 <= 255 /\
  (forall (off e w : Z) (t : trace),
     exists v' t',
       Bos.walk (Z.to_nat (u8 data 4)) data length
         {| Bos.offset := off; Bos.cap_count := 0;
            Bos.error_count := e; Bos.warning_count := w |} t
       = Some (v', t')
       /\ 0 <= Bos.cap_count v' <= u8 data 4) /\
  (exists t, Bos.parse_bos_descriptor data length = Some t).
Proof.
  pose proof (u8_range data 4) as Hn.
  split; [lia|]. split.
  - intros off e w t.
    destruct (bos_walk_returns data length (Z.to_nat (u8 data 4))
                {| Bos.offset := off; Bos.cap_count := 0;
                   Bos.error_count := e; Bos.warning_count := w |})
      with (t := t) as (v' & t' & E & _ & Hc).
    + cbn [Bos.cap_count]. lia.
    + exists v', t'. split; [exact E|]. cbn [Bos.cap_count] in Hc. lia.
  - destruct (bos_decode_returns data length empty_trace) as ([] & t' & E & _).
    exists t'. unfold Bos.parse_bos_descriptor, run. now rewrite E.
Qed.

(** C5. When the declared length is below 5 the BOS decode prints its
    two banner lines and the one error "BOS descriptor too short", and
    returns: that error is the only error event, no capability line is
    printed, and no byte of the buffer is read. *)
Theorem bos_too_short (data : buffer) (length : Z) :
  length < 5 ->
  exists t,
    Bos.parse_bos_descriptor data length = Some t /\
    out t =
      [Pr Info "=== BOS Descriptor Analysis ===\n" [];
       Pr Info "Total BOS length: %d bytes\n\n" [ArgInt length];
       Pr Error "ERROR: BOS descriptor too short (%d bytes, minimum 5)\n"
         [ArgInt length]] /\
    errors t =
      [Pr Error "ERROR: BOS descriptor too short (%d bytes, minimum 5)\n"
         [ArgInt length]] /\
    reads t = [].
Proof.
  intros H. apply Z.ltb_lt in H.
  unfold Bos.parse_bos_descriptor, run, Bos.decode. rewrite H.
  eexists. split; [reflexivity|]. repeat split.
Qed.

Lemma bos_too_short_witness :
  4 < 5 /\
  exists t,
    Bos.parse_bos_descriptor [x05; x0f; x05; x00] 4 = Some t /\
    out t =
      [Pr Info "=== BOS Descriptor Analysis ===\n" [];
       Pr Info "Total BOS length: %d bytes\n\n" [ArgInt 4];
       Pr Error "ERROR: BOS descriptor too short (%d bytes, minimum 5)\n"
         [ArgInt 4]] /\
    errors t =
      [Pr Error "ERROR: BOS descriptor too short (%d bytes, minimum 5)\n"
         [ArgInt 4]] /\
    reads t = [].
Proof.
  split; [lia | apply (bos_too_short [x05; x0f; x05; x00] 4); lia].
Defined.

(* ================================================================== *)
(** ** BOS decoder: buffers that decode without error *)

Lemma bos_platform_capability_calm (data : buffer) (cap_length : Z)
  (v : Bos.vars) :
  yields calm (Bos.platform_capability data cap_length v) (fun _ => True).
Proof. unfold Bos.platform_capability. yields_run; exact I. Qed.

Lemma bos_capability_calm (data : buffer) (length : Z) (v : Bos.vars) :
  Bos.offset v + 3 <= length ->
  yields calm (Bos.capability data length v)
    (fun r => exists w,
       r = Continue {| Bos.offset := Bos.offset v + u8 data (Bos.offset v);
                       Bos.cap_count := Bos.cap_count v + 1;
                       Bos.error_count := Bos.error_count v;
                       Bos.warning_count := w |}).
Proof.
  intros Hoff. unfold Bos.capability.
  destruct (Bos.offset v + 3 >? length) eqn:E; [lia|].
  yields_run.
  eapply yields_bind with (Q1 := fun _ => True); [yields_side | |].
  - yields_run; [apply bos_platform_capability_calm | exact I].
  - intros w _. yields_run. now exists w.
Qed.

Lemma bos_walk_calm (data : buffer) (length : Z) :
  forall (fuel : nat) (v : Bos.vars),
    (Z.to_nat (u8 data 4 - Bos.cap_count v) <= fuel)%nat ->
    each_record (fits_whole length)
      (Z.to_nat (u8 data 4 - Bos.cap_count v)) data length (Bos.offset v)
    = true ->
    yields calm (Bos.walk fuel data length v)
      (fun v' => Bos.error_count v' = Bos.error_count v).
Proof.
  induction fuel as [|fuel IH]; intros v Hfuel Hrec; cbn [Bos.walk].
  - yields_run; try reflexivity; lia.
  - yields_run; try reflexivity.
    replace (Z.to_nat (u8 data 4 - Bos.cap_count v))
      with (S (Z.to_nat (u8 data 4 - (Bos.cap_count v + 1)))) in Hrec by lia.
    cbn [each_record] in Hrec.
    replace (Bos.offset v <? length) with true in Hrec by lia.
    apply andb_true_iff in Hrec. destruct Hrec as [Hfit Hrest].
    unfold fits_whole in Hfit. apply andb_true_iff in Hfit.
    destruct Hfit as [_ H3]. apply Z.leb_le in H3.
    eapply yields_bind; [yields_side | apply bos_capability_calm; exact H3|].
    intros r [w ->].
    eapply yields_weaken;
      [apply IH; cbn [Bos.cap_count Bos.offset]; [lia|exact Hrest]|].
    cbn [Bos.error_count]. auto.
Qed.

Lemma bos_summary_clean (v : Bos.vars) (t : trace) :
  Bos.error_count v = 0 ->
  exists t',
    Bos.summary v t = Some (tt, t') /\ calm t t' /\
    In (bos_counters (Bos.cap_count v) 0 (Bos.warning_count v)) (out t').
Proof.
  intros He. unfold Bos.summary. rewrite He.
  destruct (Bos.warning_count v =? 0); cbn;
    (eexists; split; [reflexivity|]; split;
     [ eexists; cbn [out]; rewrite <- !app_assoc; split; [reflexivity|];
       cbn; repeat constructor; discriminate
     | cbn [out]; rewrite !in_app_iff; cbn; unfold bos_counters; tauto ]).
Qed.

(** C4, amended.  A BOS buffer that holds its 5-byte header, whose
    [wTotalLength] equals the declared length and whose
    [bDescriptorType] is 0x0F, and in which every device-capability
    record has a non-zero length fitting within the buffer and finds its
    first three bytes in the buffer, decodes to the end with no error:
    no error event is printed and the summary reports 0 errors. *)
Theorem bos_decodes_clean (data : buffer) (length : Z) :
  5 <= length ->
  u8 data 1 = USB_DT_BOS ->
  le16 data 2 = length ->
  each_record (fits_whole length) (Z.to_nat (u8 data 4)) data length
    (u8 data 0) = true ->
  exists t caps warns,
    Bos.parse_bos_descriptor data length = Some t /\
    errors t = [] /\
    In (bos_counters caps 0 warns) (out t).
Proof.
  intros Hlen Hty Htot Hrec.
  unfold Bos.parse_bos_descriptor, run, Bos.decode.
  replace (length <? 5) with false by lia.
  cbv beta iota zeta delta [bind printf load load16 touch ret out reads empty_trace].
  rewrite Hty, Htot, !Z.eqb_refl. cbn [negb].
  match goal with
  | |- context [Bos.walk 255 data length ?v ?t0] =>
      assert (Hw : yields calm (Bos.walk 255 data length v)
                     (fun v' => Bos.error_count v' = 0));
      [ apply bos_walk_calm; cbn [Bos.cap_count Bos.offset];
        [ pose proof (u8_range data 4); lia | now rewrite Z.sub_0_r ]
      | destruct (Hw t0) as (v' & t1 & E & Hcalm & Herr) ]
  end.
  rewrite E.
  destruct (bos_summary_clean v' t1 Herr) as (t' & E' & Hcalm' & Hin).
  rewrite E'. exists t', (Bos.cap_count v'), (Bos.warning_count v').
  split; [reflexivity|]. split; [|exact Hin].
  rewrite (calm_errors _ _ Hcalm'), (calm_errors _ _ Hcalm). reflexivity.
Qed.

Lemma bos_decodes_clean_witness :
  5 <= 29 /\
  u8 bos_webusb 1 = USB_DT_BOS /\
  le16 bos_webusb 2 = 29 /\
  each_record (fits_whole 29) (Z.to_nat (u8 bos_webusb 4)) bos_webusb 29
    (u8 bos_webusb 0) = true /\
  exists t caps warns,
    Bos.parse_bos_descriptor bos_webusb 29 = Some t /\
    errors t = [] /\
    In (bos_counters caps 0 warns) (out t).
Proof.
  split; [lia|]. split; [reflexivity|]. split; [reflexivity|].
  split; [reflexivity|].
  apply (bos_decodes_clean bos_webusb 29); [lia | reflexivity ..].
Defined.

(** C4 as the specification states it fails on a buffer whose last
    record is shorter than three bytes.  In [bos_one_byte_record] the
    header is sound and the only record has the non-zero length 1, which
    fits within the 6 bytes; the decoder reports it as truncated and
    counts one error. *)
Lemma bos_one_byte_record_error :
  5 <= 6 /\
  u8 bos_one_byte_record 1 = USB_DT_BOS /\
  le16 bos_one_byte_record 2 = 6 /\
  each_record (fits 6) (Z.to_nat (u8 bos_one_byte_record 4))
    bos_one_byte_record 6 (u8 bos_one_byte_record 0) = true /\
  exists t,
    Bos.parse_bos_descriptor bos_one_byte_record 6 = Some t /\
    errors t =
      [Pr Error "ERROR: Truncated device capability at offset %d\n"
         [ArgInt 5]] /\
    In (bos_counters 0 1 0) (out t).
Proof.
  split; [lia|]. split; [reflexivity|]. split; [reflexivity|].
  split; [reflexivity|].
  eexists. split; [vm_compute; reflexivity|].
  split; [reflexivity | cbn; in_list].
Qed.

(** *** The reads of the BOS decoder

    The header, the first three bytes of a record, [bReserved] and the
    UUID are read after a test against [length]; the two payloads are
    read after a test against the record's own [bLength] only, and can
    lie up to 8 bytes past [length]. *)

Lemma bos_platform_capability_reads (data : buffer) (length cap_length : Z)
  (v : Bos.vars) :
  0 <= Bos.offset v ->
  Bos.offset v + sizeof_plat_dev_cap <= length ->
  yields (within (length + 8)) (Bos.platform_capability data cap_length v)
    (fun _ => True).
Proof.
  intros H0 H20. unfold Bos.platform_capability. yields_run; exact I.
Qed.

Lemma bos_capability_reads (data : buffer) (length : Z) (v : Bos.vars) :
  0 <= Bos.offset v ->
  yields (within (length + 8)) (Bos.capability data length v)
    (fun r => match r with
              | Continue v' =>
                  0 <= Bos.offset v' /\ Bos.cap_count v' = Bos.cap_count v + 1
              | Break v' => True
              end).
Proof.
  intros H0. unfold Bos.capability. yields_run; [exact I|].
  eapply yields_bind with (Q1 := fun _ => True); [yields_side | |].
  - yields_run; [|exact I].
    apply bos_platform_capability_reads; [exact H0|].
    apply andb_true_iff in Heqb0. lia.
  - intros w _. yields_run. cbn [Bos.offset Bos.cap_count].
    pose proof (u8_range data (Bos.offset v)). lia.
Qed.

Lemma bos_walk_reads (data : buffer) (length : Z) :
  5 <= length ->
  forall (fuel : nat) (v : Bos.vars),
    0 <= Bos.offset v ->
    (Z.to_nat (u8 data 4 - Bos.cap_count v) <= fuel)%nat ->
    yields (within (length + 8)) (Bos.walk fuel data length v)
      (fun _ => True).
Proof.
  intros H5.
  induction fuel as [|fuel IH]; intros v H0 Hfuel; cbn [Bos.walk].
  - yields_run; first [exact I | lia].
  - yields_run; try exact I.
    eapply yields_bind; [yields_side | apply bos_capability_reads; exact H0|].
    intros [v'|v'] Hv'; [apply IH; lia | yields_run; exact I].
Qed.

Lemma bos_decode_reads (data : buffer) (length : Z) :
  yields (within (length + 8)) (Bos.decode 255 data length) (fun _ => True).
Proof.
  unfold Bos.decode. yields_run; [exact I|].
  yields_block. yields_run. yields_block. yields_run.
  eapply yields_bind with (Q1 := fun _ => True); [yields_side | |].
  - pose proof (u8_range data 0). pose proof (u8_range data 4).
    apply bos_walk_reads; cbn [Bos.offset Bos.cap_count]; lia.
  - intros v _. unfold Bos.summary. yields_run. yields_block.
    yields_run. exact I.
Qed.

Lemma reads_withinb_spec (length : Z) (t : trace) :
  reads_withinb length t = true <-> reads_within length t.
Proof.
  unfold reads_withinb, reads_within, below.
  rewrite forallb_forall, Forall_forall.
  split; intros H i Hi; specialize (H i Hi); lia.
Qed.

(** C1 fails on the code.  On [bos_webusb_cut], declared 25 bytes long,
    the decoder accepts the capability at offset 5 because its 20-byte
    header ends at the declared length and its own [bLength] is 24, and
    then reads the WebUSB payload at indices 25 to 28.  On
    [bos_msos20_cut] it reads the MS OS 2.0 payload at indices 25 to 32
    in the same way; every other read of the two runs is below 25.  What
    does hold of every buffer and declared length is that no read is
    more than 8 bytes past the declared length. *)
Theorem bos_payload_read_past_length :
  (exists t,
     Bos.parse_bos_descriptor bos_webusb_cut 25 = Some t /\
     reads_past 25 t = [25; 26; 27; 28] /\
     ~ reads_within 25 t) /\
  (exists t,
     Bos.parse_bos_descriptor bos_msos20_cut 25 = Some t /\
     reads_past 25 t = [25; 26; 27; 28; 29; 30; 31; 32] /\
     ~ reads_within 25 t) /\
  (forall (data : buffer) (length : Z),
     exists t,
       Bos.parse_bos_descriptor data length = Some t /\
       reads_within (length + 8) t).
Proof.
  split; [|split].
  1,2: eexists; split; [vm_compute; reflexivity|];
       split; [reflexivity|];
       rewrite <- reads_withinb_spec; vm_compute; discriminate.
  intros data length.
  destruct (bos_decode_reads data length empty_trace)
    as ([] & t & E & (rs & Ers & Hrs) & _).
  exists t. unfold Bos.parse_bos_descriptor, run. rewrite E.
  split; [reflexivity|]. unfold reads_within. now rewrite Ers.
Qed.

(** C2 fails on the code.  On [bos_zero_length] the record at offset 5
    declares [bLength] 0; the walk prints no error, decodes the same
    record a second time as capability 1, and stops only because
    [cap_count] has reached [bNumDeviceCaps]: the summary reports 2
    capabilities and 0 errors. *)
Theorem bos_zero_length_not_an_error :
  exists t,
    Bos.parse_bos_descriptor bos_zero_length 8 = Some t /\
    errors t = [] /\
    In (Pr Info "Device Capability %d (offset %d):\n" [ArgInt 0; ArgInt 5])
       (out t) /\
    In (Pr Info "Device Capability %d (offset %d):\n" [ArgInt 1; ArgInt 5])
       (out t) /\
    In (bos_counters 2 0 0) (out t).
Proof.
  eexists. split; [vm_compute; reflexivity|].
  split; [reflexivity|]. repeat split; cbn; in_list.
Qed.

(* ================================================================== *)
(** ** UUID formatter *)

Lemma hex2_lowercase (b : byte) :
  exists h l,
    hex2 (Z.of_N (Byte.to_N b)) = String h (String l EmptyString) /\
    In h hex_digits /\ In l hex_digits.
Proof.
  eexists; eexists. split; [reflexivity|].
  destruct b; split; vm_compute; in_list.
Qed.

(** C9. [uuid_to_string] is a function of the 16 bytes it is given; it
    lays them out as the first four reversed, the next two reversed, the
    next two reversed and the last eight in order, each as two lowercase
    hex digits, grouped 8-4-4-4-12; on the bytes
    38 b6 08 34 a9 09 a0 47 8b fd a0 76 88 15 b6 65 it gives
    "3408b638-09a9-47a0-8bfd-a0768815b665". *)
Theorem uuid_to_string_layout :
  (forall b0 b1 b2 b3 b4 b5 b6 b7 b8 b9 b10 b11 b12 b13 b14 b15 : byte,
     let bytes :=
       [b0; b1; b2; b3; b4; b5; b6; b7; b8; b9; b10; b11; b12; b13; b14; b15]
     in
     uuid_to_string (u8 bytes)
     = uuid_layout (map (fun b => Z.of_N (Byte.to_N b)) bytes)) /\
  (forall b : byte,
     exists h l,
       hex2 (Z.of_N (Byte.to_N b)) = String h (String l EmptyString) /\
       In h hex_digits /\ In l hex_digits) /\
  String.length (uuid_to_string (u8 WEBUSB_UUID)) = 36%nat /\
  uuid_to_string (u8 WEBUSB_UUID) = "3408b638-09a9-47a0-8bfd-a0768815b665"%string.
Proof.
  split; [intros; reflexivity|].
  split; [exact hex2_lowercase|].
  split; reflexivity.
Qed.

(* ================================================================== *)
(** ** MS OS 2.0 decoder *)

(** C3. When the first sub-descriptor of a non-empty MS OS 2.0 buffer
    declares a [wLength] larger than the declared length, the decode
    prints its two banner lines, one error, and the summary reporting 1
    error and 0 warnings, and nothing else: the walk has stopped at
    offset 0, whatever the bytes after the first header are.  The error
    is "Descriptor extends beyond buffer", or "Truncated descriptor" when
    the buffer is too short to hold the 4-byte header at all. *)
Theorem msos20_overlong_first_descriptor (data : buffer) (length : Z) :
  0 < length ->
  length < le16 data 0 ->
  let halt :=
    if length <? 4 then
      [Pr Error
         "ERROR: Truncated descriptor at offset %d (need 4 bytes, have %d)\n"
         [ArgInt 0; ArgInt (length - 0)]]
    else
      [Pr Info "Offset %d: " [ArgInt 0];
       Pr Error
         "ERROR: Descriptor extends beyond buffer (offset=%d, len=%d, buffer=%d)\n"
         [ArgInt 0; ArgInt (le16 data 0); ArgInt length]] in
  exists t,
    MsOs20.parse_msos20_descriptor data length = Some t /\
    out t =
      [Pr Info "=== MS OS 2.0 Descriptor Analysis ===\n" [];
       Pr Info "Total descriptor length: %d bytes\n\n" [ArgInt length]]
      ++ halt ++
      [Pr Info "\n=== Summary ===\n" [];
       Pr Info "Parsing completed: %d errors, %d warnings\n"
         [ArgInt 1; ArgInt 0];
       Pr Info "✗ Descriptor has %d error(s) and %d warning(s)\n"
         [ArgInt 1; ArgInt 0];
       Pr Info "\n" []] /\
    errors t = filter is_error halt /\
    List.length (errors t) = 1%nat.
Proof.
  intros Hpos Hlong halt. subst halt.
  unfold MsOs20.parse_msos20_descriptor, run, MsOs20.decode.
  destruct (Z.to_nat length) as [|fuel] eqn:Efuel; [lia|].
  cbn [MsOs20.walk MsOs20.offset].
  replace (0 <? length) with true by lia. cbn [negb].
  unfold MsOs20.descriptor. cbn [MsOs20.offset].
  destruct (length <? 4) eqn:E4.
  - replace (0 + 4 >? length) with true by lia.
    eexists. split; [reflexivity|]. repeat split.
  - replace (0 + 4 >? length) with false by lia.
    replace (le16 data 0 =? 0) with false by lia.
    replace (le16 data 0 <? 4) with false by lia.
    replace (0 + le16 data 0 >? length) with true by lia.
    eexists. split; [reflexivity|]. repeat split.
Qed.

Lemma msos20_overlong_first_descriptor_witness :
  0 < 14 /\
  14 < le16 msos20_overlong 0 /\
  exists t,
    MsOs20.parse_msos20_descriptor msos20_overlong 14 = Some t /\
    out t =
      [Pr Info "=== MS OS 2.0 Descriptor Analysis ===\n" [];
       Pr Info "Total descriptor length: %d bytes\n\n" [ArgInt 14]]
      ++ [Pr Info "Offset %d: " [ArgInt 0];
          Pr Error
            "ERROR: Descriptor extends beyond buffer (offset=%d, len=%d, buffer=%d)\n"
            [ArgInt 0; ArgInt 20; ArgInt 14]] ++
      [Pr Info "\n=== Summary ===\n" [];
       Pr Info "Parsing completed: %d errors, %d warnings\n"
         [ArgInt 1; ArgInt 0];
       Pr Info "✗ Descriptor has %d error(s) and %d warning(s)\n"
         [ArgInt 1; ArgInt 0];
       Pr Info "\n" []] /\
    errors t =
      [Pr Error
         "ERROR: Descriptor extends beyond buffer (offset=%d, len=%d, buffer=%d)\n"
         [ArgInt 0; ArgInt 20; ArgInt 14]] /\
    List.length (errors t) = 1%nat.
Proof.
  split; [lia|]. split; [vm_compute; reflexivity|].
  apply (msos20_overlong_first_descriptor msos20_overlong 14);
    [lia | vm_compute; reflexivity].
Defined.

(** C6. A Registry-Property Feature record that reaches its decoder
    (type 0x04, [wLength] at least 8 and ending within the buffer), whose
    [wPropertyNameLength] is 4 with the name bytes 41 00 00 00 (the
    UTF-16LE code unit of "A", then a null code unit) and whose
    [wPropertyDataLength] is 0, all within the buffer: the decoder
    prints the name as the single character "A", prints the data length
    0, and prints the length-mismatch error, adding one to the error
    count, exactly when [wLength] differs from 14 = 8 + 4 + 2 + 0.  The
    only other event the record can produce is the warning for a data
    type other than 1 and 7. *)
Theorem msos20_reg_property_name_A (data : buffer) (length : Z)
  (v : MsOs20.vars) (t : trace) :
  let off := MsOs20.offset v in
  let wLength := le16 data off in
  let wPropertyDataType := le16 data (off + 4) in
  let usual := (wPropertyDataType =? 1) || (wPropertyDataType =? 7) in
  8 <= wLength ->
  off + wLength <= length ->
  le16 data (off + 2) = MsOs20.MS_OS_20_FEATURE_REG_PROPERTY ->
  off + 14 <= length ->
  le16 data (off + 6) = 4 ->
  u8 data (off + 8) = 0x41 ->
  u8 data (off + 9) = 0 ->
  le16 data (off + 10) = 0 ->
  le16 data (off + 12) = 0 ->
  MsOs20.descriptor data length v t =
  Some
    (Continue
       {| MsOs20.offset := off + wLength;
          MsOs20.error_count :=
            MsOs20.error_count v + (if wLength =? 14 then 0 else 1);
          MsOs20.warning_count :=
            MsOs20.warning_count v + (if usual then 0 else 1) |},
     {| out :=
          out t ++
          [Pr Info "Offset %d: " [ArgInt off];
           Pr Info
             "Registry Property Feature (len=%d, datatype=%d, namelen=%d)\n"
             [ArgInt wLength; ArgInt wPropertyDataType; ArgInt 4]] ++
          (if usual then []
           else [Pr Warning
                   "  WARNING: Unusual property data type (1=REG_SZ, 7=REG_MULTI_SZ)\n"
                   []]) ++
          [Pr Info "  Property Name: " [];
           Pr Info "%c" [ArgChar "A"];
           Pr Info "\n" [];
           Pr Info "  Property Data Length: %d\n" [ArgInt 0]] ++
          (if wLength =? 14 then []
           else [Pr Error
                   "  ERROR: Length mismatch (calculated=%d, reported=%d)\n"
                   [ArgInt 14; ArgInt wLength]]);
        reads := reads t |}).
Proof.
  intros off wLength wPropertyDataType usual
         Hmin Hfit Hty Hbuf Hname HA _ _ Hdata.
  unfold MsOs20.descriptor, MsOs20.dispatch, MsOs20.feature_reg_property,
    MsOs20.when, MsOs20.error, MsOs20.warning.
  cbv zeta. fold off. fold wLength. fold wPropertyDataType.
  rewrite Hty, Hname.
  replace (off + 8 + 4) with (off + 12) by lia. rewrite Hdata.
  change (Z.to_nat 4) with 4%nat. cbn [MsOs20.property_name].
  replace (off + 8 + 0) with (off + 8) by lia. rewrite HA.
  replace (negb (wPropertyDataType =? 1) && negb (wPropertyDataType =? 7))
    with (negb usual)
    by (subst usual; now rewrite negb_orb).
  replace (negb (8 + 4 + 2 + 0 =? wLength)) with (negb (wLength =? 14))
    by (f_equal; apply Z.eqb_sym).
  replace (off + 4 >? length) with false by lia.
  replace (wLength =? 0) with false by lia.
  replace (wLength <? 4) with false by lia.
  replace (wLength <? 8) with false by lia.
  replace (off + wLength >? length) with false by lia.
  replace (off + 12 >? length) with false by lia.
  replace (off + 12 + 2 >? length) with false by lia.
  replace (off + 12 + 2 + 0 >? length) with false by lia.
  replace (off + 8 + 1 <? length) with true by lia.
  eval_tests.
  destruct usual; destruct (wLength =? 14);
    cbv beta iota zeta delta [bind printf ret negb]; eval_tests;
    cbv beta iota zeta delta [bind printf ret negb];
    cbn [out reads MsOs20.offset MsOs20.error_count MsOs20.warning_count];
    rewrite ?Z.add_0_r, <- ?app_assoc; reflexivity.
Qed.

Lemma msos20_reg_property_name_A_witness :
  8 <= le16 msos20_reg_property_A 0 /\
  0 + le16 msos20_reg_property_A 0 <= 14 /\
  le16 msos20_reg_property_A (0 + 2) = MsOs20.MS_OS_20_FEATURE_REG_PROPERTY /\
  0 + 14 <= 14 /\
  le16 msos20_reg_property_A (0 + 6) = 4 /\
  u8 msos20_reg_property_A (0 + 8) = 0x41 /\
  u8 msos20_reg_property_A (0 + 9) = 0 /\
  le16 msos20_reg_property_A (0 + 10) = 0 /\
  le16 msos20_reg_property_A (0 + 12) = 0 /\
  MsOs20.descriptor msos20_reg_property_A 14
    {| MsOs20.offset := 0; MsOs20.error_count := 0;
       MsOs20.warning_count := 0 |} empty_trace
  = Some (Continue {| MsOs20.offset := 14; MsOs20.error_count := 0;
                      MsOs20.warning_count := 0 |},
          {| out :=
               [Pr Info "Offset %d: " [ArgInt 0];
                Pr Info
                  "Registry Property Feature (len=%d, datatype=%d, namelen=%d)\n"
                  [ArgInt 14; ArgInt 1; ArgInt 4];
                Pr Info "  Property Name: " [];
                Pr Info "%c" [ArgChar "A"];
                Pr Info "\n" [];
                Pr Info "  Property Data Length: %d\n" [ArgInt 0]];
             reads := [] |}).
Proof.
  assert (H1 : 8 <= le16 msos20_reg_property_A 0)
    by (vm_compute; discriminate).
  assert (H2 : 0 + le16 msos20_reg_property_A 0 <= 14)
    by (vm_compute; discriminate).
  assert (H4 : 0 + 14 <= 14) by lia.
  split; [exact H1|]. split; [exact H2|]. split; [reflexivity|].
  split; [exact H4|]. split; [reflexivity|]. split; [reflexivity|].
  split; [reflexivity|]. split; [reflexivity|]. split; [reflexivity|].
  exact (msos20_reg_property_name_A msos20_reg_property_A 14
           {| MsOs20.offset := 0; MsOs20.error_count := 0;
              MsOs20.warning_count := 0 |} empty_trace
           H1 H2 eq_refl H4 eq_refl eq_refl eq_refl eq_refl eq_refl).
Defined.

(* ================================================================== *)
(** ** WebUSB URL decoder *)

Lemma indices_cons (lo hi : Z) :
  lo < hi -> WebUsbUrl.indices lo hi = lo :: WebUsbUrl.indices (lo + 1) hi.
Proof.
  intros H. unfold WebUsbUrl.indices.
  replace (Z.to_nat (hi - lo)) with (S (Z.to_nat (hi - (lo + 1)))) by lia.
  cbn [seq map]. f_equal; [lia|].
  rewrite <- seq_shift, map_map. apply map_ext. intros k. lia.
Qed.

Lemma indices_nil (lo hi : Z) : hi <= lo -> WebUsbUrl.indices lo hi = [].
Proof.
  intros H. unfold WebUsbUrl.indices.
  now replace (Z.to_nat (hi - lo)) with O by lia.
Qed.

(** The event the URL loop prints for the byte at index [i]. *)
Lemma url_bytes_spec (data : buffer) (length bLength : Z) :
  forall (fuel : nat) (i : Z) (t : trace),
    (Z.to_nat (Z.min bLength length - i) <= fuel)%nat ->
    WebUsbUrl.url_bytes fuel data length bLength i t =
    Some (tt,
          {| out := out t ++
               map (fun i => Pr Info "%c" [ArgChar (WebUsbUrl.chr (u8 data i))])
                   (WebUsbUrl.indices i (Z.min bLength length));
             reads := reads t ++ WebUsbUrl.indices i (Z.min bLength length) |}).
Proof.
  induction fuel as [|fuel IH]; intros i t Hfuel;
    cbn [WebUsbUrl.url_bytes];
    destruct ((i <? length) && (i <? bLength)) eqn:E.
  - lia.
  - rewrite indices_nil by lia. cbn [map]. rewrite !app_nil_r.
    now destruct t.
  - cbv beta iota zeta delta [bind load printf]. cbn [out reads].
    rewrite IH by lia. cbn [out reads].
    rewrite (indices_cons i) by lia. cbn [map].
    now rewrite <- !app_assoc.
  - rewrite indices_nil by lia. cbn [map]. rewrite !app_nil_r.
    now destruct t.
Qed.

Lemma scheme_spec (bScheme : Z) (t : trace) :
  WebUsbUrl.scheme bScheme t =
  Some (WebUsbUrl.scheme_prefix_of bScheme,
        {| out := out t ++ [Pr Info (WebUsbUrl.scheme_name_of bScheme) []];
           reads := reads t |}).
Proof.
  unfold WebUsbUrl.scheme, WebUsbUrl.WEBUSB_URL_SCHEME_HTTP,
    WebUsbUrl.WEBUSB_URL_SCHEME_HTTPS, WebUsbUrl.WEBUSB_URL_SCHEME_NONE.
  destruct (bScheme =? 0) eqn:E0;
    [apply Z.eqb_eq in E0; subst; reflexivity|].
  destruct (bScheme =? 1) eqn:E1;
    [apply Z.eqb_eq in E1; subst; reflexivity|].
  destruct (bScheme =? 255) eqn:E255;
    [apply Z.eqb_eq in E255; subst; reflexivity|].
  apply Z.eqb_neq in E0, E1, E255.
  destruct bScheme as [|p|p]; [congruence| |reflexivity].
  repeat (destruct p as [p|p|]; try reflexivity; try congruence).
Qed.

Lemma text_of_url (s : string) (f1 f2 : string) (cs : list ascii) :
  WebUsbUrl.text_of
    (Pr Info f1 [ArgStr s] :: map (fun c => Pr Info f2 [ArgChar c]) cs)
  = (s ++ string_of_list_ascii cs)%string.
Proof.
  cbn [WebUsbUrl.text_of]. f_equal.
  induction cs as [|c cs IH]; [reflexivity|].
  cbn [map WebUsbUrl.text_of string_of_list_ascii]. now rewrite IH.
Qed.

Lemma filter_chars (p : event -> bool) (f : Z -> ascii) (l : list Z) :
  p (Pr Info "%c" [ArgChar "a"]) = false ->
  (forall c, p (Pr Info "%c" [ArgChar c]) = p (Pr Info "%c" [ArgChar "a"])) ->
  filter p (map (fun i => Pr Info "%c" [ArgChar (f i)]) l) = [].
Proof.
  intros H0 Hc. induction l as [|i l IH]; [reflexivity|].
  cbn [map filter]. now rewrite Hc, H0.
Qed.

(** C7. For a WebUSB URL buffer declared longer than 3 bytes the decoder
    prints, after the header lines, the event "URL: %s" carrying the
    prefix the scheme map gives for [bScheme], then one "%c" event for
    each index from 3 up to min(bLength, length) - 1, carrying the byte
    stored there as it is, then two line ends.  The text so printed is
    the prefix followed by those raw bytes.  The scheme is named
    ("Unknown" for a value other than 0, 1 and 255), and no event of the
    run is an error or a warning, whatever the scheme. *)
Theorem webusb_url_rendering (data : buffer) (length : Z) :
  3 < length ->
  let bLength := u8 data 0 in
  let bScheme := u8 data 2 in
  let last := Z.min bLength length in
  let url :=
    Pr Info "URL: %s" [ArgStr (WebUsbUrl.scheme_prefix_of bScheme)]
    :: map (fun i => Pr Info "%c" [ArgChar (WebUsbUrl.chr (u8 data i))])
           (WebUsbUrl.indices 3 last) in
  exists t,
    WebUsbUrl.parse_webusb_url_descriptor data length = Some t /\
    out t =
      [Pr Info "=== WebUSB URL Descriptor ===\n" [];
       Pr Info "Length: %d bytes\n" [ArgInt length];
       Pr Info "bLength: %d\n" [ArgInt bLength];
       Pr Info "bDescriptorType: %d (%s)\n"
         [ArgInt (u8 data 1);
          ArgStr (if u8 data 1 =? 3 then "WebUSB URL" else "UNKNOWN")];
       Pr Info "bScheme: %d (" [ArgInt bScheme];
       Pr Info (WebUsbUrl.scheme_name_of bScheme) []]
      ++ url ++ [Pr Info "\n" []; Pr Info "\n" []] /\
    WebUsbUrl.text_of url
    = (WebUsbUrl.scheme_prefix_of bScheme
       ++ WebUsbUrl.raw_bytes data 3 last)%string /\
    errors t = [] /\
    warnings t = [].
Proof.
  intros Hlen bLength bScheme last url.
  assert (Htext : WebUsbUrl.text_of url
                  = (WebUsbUrl.scheme_prefix_of bScheme
                     ++ WebUsbUrl.raw_bytes data 3 last)%string).
  { subst url. unfold WebUsbUrl.raw_bytes.
    rewrite <- (map_map (fun i => WebUsbUrl.chr (u8 data i))
                        (fun c => Pr Info "%c" [ArgChar c])).
    apply text_of_url. }
  unfold WebUsbUrl.parse_webusb_url_descriptor, run, WebUsbUrl.decode.
  replace (length <? 3) with false by lia.
  replace (length >? 3) with true by lia.
  cbv beta iota zeta delta [bind printf load ret empty_trace].
  cbn [out reads]. fold bLength. fold bScheme.
  rewrite scheme_spec. cbn [out reads].
  rewrite url_bytes_spec by (fold last; lia). cbn [out reads].
  fold last. eexists. split; [reflexivity|]. cbn [out].
  split; [subst url; cbn [app]; rewrite <- ?app_assoc; reflexivity|].
  split; [exact Htext|].
  unfold errors, warnings. cbn [out app filter is_error is_warning sev].
  rewrite <- ?app_assoc. cbn [out app filter is_error is_warning sev].
  rewrite !filter_app. cbn [filter is_error is_warning sev app].
  rewrite !filter_chars by reflexivity. split; reflexivity.
Qed.

Lemma webusb_url_rendering_witness :
  3 < 9 /\
  exists t,
    WebUsbUrl.parse_webusb_url_descriptor webusb_url_unknown_scheme 9
    = Some t /\
    out t =
      [Pr Info "=== WebUSB URL Descriptor ===\n" [];
       Pr Info "Length: %d bytes\n" [ArgInt 9];
       Pr Info "bLength: %d\n" [ArgInt 10];
       Pr Info "bDescriptorType: %d (%s)\n" [ArgInt 3; ArgStr "WebUSB URL"];
       Pr Info "bScheme: %d (" [ArgInt 7];
       Pr Info "Unknown)\n" []]
      ++ [Pr Info "URL: %s" [ArgStr "unknown://"];
          Pr Info "%c" [ArgChar "a"]; Pr Info "%c" [ArgChar "."];
          Pr Info "%c" [ArgChar "b"]; Pr Info "%c" [ArgChar "c"];
          Pr Info "%c" [ArgChar " "]; Pr Info "%c" [ArgChar "e"]]
      ++ [Pr Info "\n" []; Pr Info "\n" []] /\
    WebUsbUrl.text_of
      [Pr Info "URL: %s" [ArgStr "unknown://"];
       Pr Info "%c" [ArgChar "a"]; Pr Info "%c" [ArgChar "."];
       Pr Info "%c" [ArgChar "b"]; Pr Info "%c" [ArgChar "c"];
       Pr Info "%c" [ArgChar " "]; Pr Info "%c" [ArgChar "e"]]
    = "unknown://a.bc e"%string /\
    errors t = [] /\
    warnings t = [].
Proof.
  split; [lia|].
  apply (webusb_url_rendering webusb_url_unknown_scheme 9). lia.
Defined.

(* ================================================================== *)
(** ** The fuel given to the loops is enough *)

Lemma property_name_returns (data : buffer) (length off len : Z) :
  forall (fuel : nat) (i n : Z),
    (Z.to_nat (len - 2 - i) <= fuel)%nat ->
    yields anything (MsOs20.property_name fuel data length off len i n)
      (fun _ => True).
Proof.
  induction fuel as [|fuel IH]; intros i n Hfuel;
    cbn [MsOs20.property_name].
  - yields_run; [lia | exact I].
  - yields_run; try exact I; apply IH; lia.
Qed.

Lemma property_data_returns (data : buffer) (length off len : Z) :
  forall (fuel : nat) (i : Z),
    (Z.to_nat (len - 2 - i) <= fuel)%nat ->
    yields anything (MsOs20.property_data fuel data length off len i)
      (fun _ => True).
Proof.
  induction fuel as [|fuel IH]; intros i Hfuel;
    cbn [MsOs20.property_data].
  - yields_run; [lia | exact I].
  - yields_run; try exact I; apply IH; lia.
Qed.

Lemma dispatch_returns (data : buffer) (length wLength ty : Z)
  (v : MsOs20.vars) :
  yields anything (MsOs20.dispatch data length wLength ty v) (fun _ => True).
Proof.
  unfold MsOs20.dispatch, MsOs20.set_header,
    MsOs20.subset_header_configuration, MsOs20.subset_header_function,
    MsOs20.feature_compatible_id, MsOs20.feature_reg_property,
    MsOs20.when, MsOs20.error, MsOs20.warning.
  yields_total.
  - apply property_name_returns. lia.
  - apply property_data_returns. lia.
Qed.

Lemma descriptor_advances (data : buffer) (length : Z) (v : MsOs20.vars) :
  yields anything (MsOs20.descriptor data length v)
    (fun r => match r with
              | Continue v' => MsOs20.offset v < MsOs20.offset v'
              | Break _ => True
              end).
Proof.
  unfold MsOs20.descriptor, MsOs20.error. yields_total.
  - apply dispatch_returns.
  - cbn [MsOs20.offset]. lia.
Qed.

Lemma msos20_walk_returns (data : buffer) (length : Z) :
  forall (fuel : nat) (v : MsOs20.vars),
    (Z.to_nat (length - MsOs20.offset v) <= fuel)%nat ->
    yields anything (MsOs20.walk fuel data length v) (fun _ => True).
Proof.
  induction fuel as [|fuel IH]; intros v Hfuel; cbn [MsOs20.walk].
  - yields_run; [exact I | lia].
  - yields_run; [exact I|].
    eapply yields_bind; [yields_side | apply descriptor_advances|].
    intros [v'|v'] Hv'; [apply IH; lia | yields_run; exact I].
Qed.

Lemma parse_msos20_descriptor_returns (data : buffer) (length : Z) :
  exists t, MsOs20.parse_msos20_descriptor data length = Some t.
Proof.
  assert (H : yields anything (MsOs20.decode (Z.to_nat length) data length)
                (fun _ => True)).
  { unfold MsOs20.decode, MsOs20.summary. yields_run.
    eapply yields_bind with (Q1 := fun _ => True); [yields_side | |].
    - apply msos20_walk_returns. cbn [MsOs20.offset]. lia.
    - intros v _. yields_total. }
  destruct (H empty_trace) as ([] & t & E & _).
  exists t. unfold MsOs20.parse_msos20_descriptor, run. now rewrite E.
Qed.

Lemma parse_webusb_url_descriptor_returns (data : buffer) (length : Z) :
  exists t, WebUsbUrl.parse_webusb_url_descriptor data length = Some t.
Proof.
  unfold WebUsbUrl.parse_webusb_url_descriptor, run, WebUsbUrl.decode.
  cbv beta iota zeta delta [bind printf load ret empty_trace].
  cbn [out reads]. destruct (length <? 3) eqn:E3; [eexists; reflexivity|].
  rewrite scheme_spec.
  destruct (length >? 3) eqn:E; [|eexists; reflexivity].
  cbn [out reads]. rewrite url_bytes_spec by lia. eexists; reflexivity.
Qed.

(* ================================================================== *)
(** * Further properties of the code *)

(** ** Weakest preconditions *)

Lemma wp_ret {A} (a : A) (Q : A -> trace -> Prop) (t : trace) :
  Q a t -> wp (ret a) Q t.
Proof. exact (fun H => H). Qed.

Lemma wp_bind {A B} (m : M A) (k : A -> M B) (Q : B -> trace -> Prop)
  (t : trace) :
  wp m (fun a t1 => wp (k a) Q t1) t -> wp (bind m k) Q t.
Proof.
  unfold wp, bind. destruct (m t) as [[a t1]|]; auto.
Qed.

Lemma wp_mono {A} (m : M A) (Q Q' : A -> trace -> Prop) (t : trace) :
  wp m Q t -> (forall a t', Q a t' -> Q' a t') -> wp m Q' t.
Proof.
  unfold wp. destruct (m t) as [[a t1]|]; auto.
Qed.

Lemma wp_printf s f a (Q : unit -> trace -> Prop) (t : trace) :
  Q tt (emit (Pr s f a) t) -> wp (printf s f a) Q t.
Proof. exact (fun H => H). Qed.

Lemma wp_load data i (Q : Z -> trace -> Prop) (t : trace) :
  Q (u8 data i) (note i t) -> wp (load data i) Q t.
Proof. exact (fun H => H). Qed.

Lemma wp_touch data (n : nat) :
  forall i (Q : unit -> trace -> Prop) (t : trace),
    Q tt (touched i n t) -> wp (touch data i n) Q t.
Proof.
  induction n as [|n IH]; intros i Q t H; cbn [touch].
  - exact H.
  - apply wp_bind, wp_load. apply IH. exact H.
Qed.

Lemma wp_load16 data i (Q : Z -> trace -> Prop) (t : trace) :
  Q (le16 data i) (touched i 2 t) -> wp (load16 data i) Q t.
Proof. intros H. unfold load16. apply wp_bind, wp_touch. exact H. Qed.

Lemma wp_load32 data i (Q : Z -> trace -> Prop) (t : trace) :
  Q (le32 data i) (touched i 4 t) -> wp (load32 data i) Q t.
Proof. intros H. unfold load32. apply wp_bind, wp_touch. exact H. Qed.

Lemma wp_run {A} (m : M A) (Q : A -> trace -> Prop) (t : trace) :
  wp m Q t <-> exists a t', m t = Some (a, t') /\ Q a t'.
Proof.
  unfold wp. destruct (m t) as [[a t1]|].
  - split; [eauto|]. intros (a' & t' & E & H). now injection E as -> ->.
  - split; [tauto|]. intros (a' & t' & E & _). discriminate.
Qed.

Lemma wp_yields {A} R (m : M A) (Q : A -> Prop) (t : trace) :
  yields R m Q -> wp m (fun a t' => R t t' /\ Q a) t.
Proof.
  intros H. apply wp_run. destruct (H t) as (a & t' & E & HR & HQ). eauto.
Qed.

Lemma run_wp {A} (m : M A) (Q : A -> trace -> Prop) :
  wp m Q empty_trace -> exists t, run m = Some t /\ exists a, Q a t.
Proof.
  intros H. apply wp_run in H. destruct H as (a & t & E & H).
  exists t. unfold run. rewrite E. eauto.
Qed.

(** ** Counting events *)

Lemma out_emit e t : out (emit e t) = out t ++ [e].
Proof. reflexivity. Qed.

Lemma out_note i t : out (note i t) = out t.
Proof. reflexivity. Qed.

Lemma out_touched n : forall i t, out (touched i n t) = out t.
Proof. induction n as [|n IH]; intros i t; cbn; [reflexivity|]. now rewrite IH. Qed.

Lemma reads_emit e t : reads (emit e t) = reads t.
Proof. reflexivity. Qed.

Lemma reads_note i t : reads (note i t) = reads t ++ [i].
Proof. reflexivity. Qed.

Lemma n_errors_emit e t :
  n_errors (emit e t) = n_errors t + (if is_error e then 1 else 0).
Proof.
  unfold n_errors, errors. rewrite out_emit, filter_app, length_app.
  cbn [filter]. destruct (is_error e); cbn [List.length]; lia.
Qed.

Lemma n_warnings_emit e t :
  n_warnings (emit e t) = n_warnings t + (if is_warning e then 1 else 0).
Proof.
  unfold n_warnings, warnings. rewrite out_emit, filter_app, length_app.
  cbn [filter]. destruct (is_warning e); cbn [List.length]; lia.
Qed.

Lemma n_errors_note i t : n_errors (note i t) = n_errors t.
Proof. reflexivity. Qed.

Lemma n_warnings_note i t : n_warnings (note i t) = n_warnings t.
Proof. reflexivity. Qed.

Lemma n_errors_touched n i t : n_errors (touched i n t) = n_errors t.
Proof. unfold n_errors, errors. now rewrite out_touched. Qed.

Lemma n_warnings_touched n i t : n_warnings (touched i n t) = n_warnings t.
Proof. unfold n_warnings, warnings. now rewrite out_touched. Qed.

Lemma n_errors_nonneg t : 0 <= n_errors t.
Proof. unfold n_errors. lia. Qed.

Lemma n_warnings_nonneg t : 0 <= n_warnings t.
Proof. unfold n_warnings. lia. Qed.

Lemma n_errors_empty : n_errors empty_trace = 0.
Proof. reflexivity. Qed.

Lemma n_warnings_empty : n_warnings empty_trace = 0.
Proof. reflexivity. Qed.

Create Rewrite HintDb tally.

#[local] Hint Rewrite n_errors_emit n_warnings_emit n_errors_note
  n_warnings_note n_errors_touched n_warnings_touched n_errors_empty
  n_warnings_empty : tally.

(** One step through a [wp] goal. *)
Ltac wp_step :=
  lazymatch goal with
  | |- wp (bind _ _) _ _ => apply wp_bind
  | |- wp (printf _ _ _) _ _ => apply wp_printf
  | |- wp (load _ _) _ _ => apply wp_load
  | |- wp (load16 _ _) _ _ => apply wp_load16
  | |- wp (load32 _ _) _ _ => apply wp_load32
  | |- wp (touch _ _ _) _ _ => apply wp_touch
  | |- wp (ret _) _ _ => apply wp_ret
  | |- wp (if ?c then _ else _) _ _ => destruct c eqn:?
  end.

Ltac wp_go := repeat (cbv beta zeta; wp_step).

(** Closes a goal about counters and counts. *)
Ltac tally :=
  cbv beta;
  repeat match goal with
         | H : _ /\ _ |- _ => destruct H
         end;
  cbn [MsOs20.offset MsOs20.error_count MsOs20.warning_count
       Bos.offset Bos.cap_count Bos.error_count Bos.warning_count] in *;
  autorewrite with tally in *;
  cbn [is_error is_warning sev] in *;
  repeat split; try lia.

(* ================================================================== *)
(** ** MS OS 2.0 decoder: the counters and the diagnostics printed *)

Lemma property_name_quiet (data : buffer) (length off len : Z) :
  forall (fuel : nat) (i n : Z) (t : trace),
    (Z.to_nat (len - 2 - i) <= fuel)%nat ->
    wp (MsOs20.property_name fuel data length off len i n)
      (fun _ t' => n_errors t' = n_errors t /\ n_warnings t' = n_warnings t)
      t.
Proof.
  induction fuel as [|fuel IH]; intros i n t Hfuel;
    cbn [MsOs20.property_name]; wp_go; try solve [tally];
    (eapply wp_mono; [apply IH; lia | intros; tally]).
Qed.

Lemma property_data_quiet (data : buffer) (length off len : Z) :
  forall (fuel : nat) (i : Z) (t : trace),
    (Z.to_nat (len - 2 - i) <= fuel)%nat ->
    wp (MsOs20.property_data fuel data length off len i)
      (fun _ t' => n_errors t' = n_errors t /\ n_warnings t' = n_warnings t)
      t.
Proof.
  induction fuel as [|fuel IH]; intros i t Hfuel;
    cbn [MsOs20.property_data]; wp_go; try solve [tally];
    (eapply wp_mono; [apply IH; lia | intros; tally]).
Qed.

Ltac msos20_loops :=
  lazymatch goal with
  | |- wp (MsOs20.property_name _ _ _ _ _ _ _) _ _ =>
      eapply wp_mono; [apply property_name_quiet; lia | intros ? ? ?]
  | |- wp (MsOs20.property_data _ _ _ _ _ _) _ _ =>
      eapply wp_mono; [apply property_data_quiet; lia | intros ? ? ?]
  end.

Lemma dispatch_tally (data : buffer) (length wLength ty : Z)
  (v : MsOs20.vars) (t : trace) :
  wp (MsOs20.dispatch data length wLength ty v) (msos20_tally v t) t.
Proof.
  unfold MsOs20.dispatch, MsOs20.set_header,
    MsOs20.subset_header_configuration, MsOs20.subset_header_function,
    MsOs20.feature_compatible_id, MsOs20.feature_reg_property,
    MsOs20.when, MsOs20.error, MsOs20.warning, msos20_tally.
  repeat first [progress wp_go | msos20_loops]; tally.
Qed.

Lemma descriptor_tally (data : buffer) (length : Z) (v : MsOs20.vars)
  (t : trace) :
  wp (MsOs20.descriptor data length v)
    (fun r t' =>
       match r with
       | Continue v' =>
           msos20_tally v t v' t' /\ MsOs20.offset v < MsOs20.offset v'
       | Break v' => msos20_tally v t v' t'
       end) t.
Proof.
  unfold MsOs20.descriptor, MsOs20.error, msos20_tally.
  wp_go; try solve [tally].
  eapply wp_mono; [apply dispatch_tally|].
  unfold msos20_tally. intros v1 t1 H. wp_go. tally.
Qed.

Lemma walk_tally (data : buffer) (length : Z) :
  forall (fuel : nat) (v : MsOs20.vars) (t : trace),
    (Z.to_nat (length - MsOs20.offset v) <= fuel)%nat ->
    wp (MsOs20.walk fuel data length v) (msos20_tally v t) t.
Proof.
  induction fuel as [|fuel IH]; intros v t Hfuel; cbn [MsOs20.walk];
    wp_go; try solve [unfold msos20_tally; tally].
  eapply wp_mono; [apply descriptor_tally|].
  intros [v'|v'] t' H; cbv beta iota.
  - destruct H as [H Hadv].
    eapply wp_mono; [apply IH; lia|].
    unfold msos20_tally in *. intros; tally.
  - wp_go. exact H.
Qed.

(** The MS OS 2.0 decoder ends every run with its summary, and the two
    counters the summary prints are the numbers of error and of warning
    events of the whole run. *)
Theorem msos20_summary_counts_diagnostics (data : buffer) (length : Z) :
  exists t pre verdict,
    MsOs20.parse_msos20_descriptor data length = Some t /\
    out t =
      pre ++
      [Pr Info "\n=== Summary ===\n" [];
       Pr Info "Parsing completed: %d errors, %d warnings\n"
         [ArgInt (n_errors t); ArgInt (n_warnings t)];
       verdict;
       Pr Info "\n" []] /\
    sev verdict = Info.
Proof.
  assert (H : wp (MsOs20.decode (Z.to_nat length) data length)
                (fun _ t =>
                   exists pre verdict,
                     out t =
                       pre ++
                       [Pr Info "\n=== Summary ===\n" [];
                        Pr Info "Parsing completed: %d errors, %d warnings\n"
                          [ArgInt (n_errors t); ArgInt (n_warnings t)];
                        verdict;
                        Pr Info "\n" []] /\
                     sev verdict = Info) empty_trace).
  { unfold MsOs20.decode. wp_go.
    eapply wp_mono; [apply walk_tally; cbn [MsOs20.offset]; lia|].
    unfold msos20_tally. intros v t1 Ht. unfold MsOs20.summary.
    assert (He : MsOs20.error_count v = n_errors t1) by tally.
    assert (Hw : MsOs20.warning_count v = n_warnings t1) by tally.
    wp_go; eexists (out t1); eexists;
      (split;
       [ rewrite !out_emit, <- !app_assoc; cbn [app];
         autorewrite with tally; cbn [is_error is_warning sev];
         rewrite He, Hw, !Z.add_0_r; reflexivity
       | reflexivity ]). }
  apply run_wp in H. destruct H as (t & E & _ & pre & verdict & Hout & Hv).
  exists t, pre, verdict. auto.
Qed.

(* ================================================================== *)
(** ** BOS decoder: the counters and the diagnostics printed *)

Lemma bos_platform_capability_tally (data : buffer) (cap_length : Z)
  (v : Bos.vars) (t : trace) :
  wp (Bos.platform_capability data cap_length v)
    (fun w t' =>
       n_errors t' = n_errors t /\
       0 <= w - Bos.warning_count v <= 1 /\
       w - Bos.warning_count v = n_warnings t' - n_warnings t) t.
Proof. unfold Bos.platform_capability. wp_go; tally. Qed.

Lemma bos_capability_tally (data : buffer) (length : Z) (v : Bos.vars)
  (t : trace) :
  wp (Bos.capability data length v)
    (fun r t' =>
       match r with
       | Continue v' =>
           bos_tally v t v' t' /\ n_errors t' = n_errors t /\
           n_warnings t' <= n_warnings t + 1 /\
           Bos.cap_count v' = Bos.cap_count v + 1
       | Break v' =>
           bos_tally v t v' t' /\ n_errors t' = n_errors t + 1 /\
           n_warnings t' = n_warnings t /\
           Bos.cap_count v' = Bos.cap_count v
       end) t.
Proof.
  unfold Bos.capability, bos_tally. wp_go; try solve [tally].
  - eapply wp_mono; [apply bos_platform_capability_tally|].
    intros w t1 H. wp_go. tally.
Qed.

Lemma bos_walk_tally (data : buffer) (length : Z) :
  forall (fuel : nat) (v : Bos.vars) (t : trace),
    (Z.to_nat (u8 data 4 - Bos.cap_count v) <= fuel)%nat ->
    wp (Bos.walk fuel data length v)
      (fun v' t' =>
         bos_tally v t v' t' /\
         n_errors t <= n_errors t' <= n_errors t + 1 /\
         n_warnings t' - n_warnings t <= Bos.cap_count v' - Bos.cap_count v /\
         Bos.cap_count v <= Bos.cap_count v'
           <= Z.max (Bos.cap_count v) (u8 data 4)) t.
Proof.
  induction fuel as [|fuel IH]; intros v t Hfuel; cbn [Bos.walk];
    unfold bos_tally in *; wp_go; try solve [tally].
  eapply wp_mono; [apply bos_capability_tally|].
  unfold bos_tally. intros [v'|v'] t' H; cbv beta iota.
  - eapply wp_mono; [apply IH; lia|]. intros; tally.
  - wp_go. tally.
Qed.

Lemma bos_decode_tally (data : buffer) (length : Z) :
  wp (Bos.decode 255 data length)
    (fun _ t =>
       n_errors t <= 2 /\
       n_warnings t <= 1 + u8 data 4 /\
       (5 <= length ->
        exists pre caps verdict,
          out t =
            pre ++
            [Pr Info "=== BOS Summary ===\n" [];
             bos_counters caps (n_errors t) (n_warnings t);
             verdict;
             Pr Info "\n" []] /\
          sev verdict = Info)) empty_trace.
Proof.
  pose proof (u8_range data 4) as Hn.
  unfold Bos.decode. wp_go;
    [split; [tally|]; split; [tally|]; intros; lia | ..].
  all: match goal with
       | |- wp (Bos.walk _ _ _ ?v0) _ ?t0 =>
           set (s0 := t0);
           assert (E0 : n_errors s0 = Bos.error_count v0 /\
                        n_warnings s0 = Bos.warning_count v0)
             by (subst s0; tally);
           cbn [Bos.error_count Bos.warning_count] in E0;
           clearbody s0
       end.
  all: (eapply wp_mono;
        [apply bos_walk_tally; cbn [Bos.cap_count]; lia|]);
    unfold bos_tally; intros v t1 Ht; unfold Bos.summary;
    cbn [Bos.error_count Bos.warning_count Bos.cap_count] in Ht;
    assert (He : Bos.error_count v = n_errors t1) by lia;
    assert (Hw : Bos.warning_count v = n_warnings t1) by lia;
    assert (Hb : n_errors t1 <= 2 /\ n_warnings t1 <= 1 + u8 data 4)
      by lia;
    clear Ht E0;
    wp_go;
    (split; [tally|]; split; [tally|]; intros _;
     eexists (out t1); eexists (Bos.cap_count v); eexists;
     (split;
      [ rewrite !out_emit, <- !app_assoc; cbn [app]; unfold bos_counters;
        autorewrite with tally; cbn [is_error is_warning sev];
        rewrite He, Hw, !Z.add_0_r; reflexivity
      | reflexivity ])).
Qed.

(** After a header of at least 5 bytes the BOS decoder ends its run with
    the summary, and the error and warning counters the summary prints
    are the numbers of error and of warning events of the whole run. *)
Theorem bos_summary_counts_diagnostics (data : buffer) (length : Z) :
  5 <= length ->
  exists t pre caps verdict,
    Bos.parse_bos_descriptor data length = Some t /\
    out t =
      pre ++
      [Pr Info "=== BOS Summary ===\n" [];
       bos_counters caps (n_errors t) (n_warnings t);
       verdict;
       Pr Info "\n" []] /\
    sev verdict = Info.
Proof.
  intros Hlen.
  destruct (run_wp _ _ (bos_decode_tally data length))
    as (t & E & _ & _ & _ & H).
  destruct (H Hlen) as (pre & caps & verdict & Hout & Hv).
  exists t, pre, caps, verdict. auto.
Qed.

Lemma bos_summary_counts_diagnostics_witness :
  5 <= 29 /\
  exists t pre caps verdict,
    Bos.parse_bos_descriptor bos_webusb 29 = Some t /\
    out t =
      pre ++
      [Pr Info "=== BOS Summary ===\n" [];
       bos_counters caps (n_errors t) (n_warnings t);
       verdict;
       Pr Info "\n" []] /\
    sev verdict = Info.
Proof.
  split; [lia | apply (bos_summary_counts_diagnostics bos_webusb 29); lia].
Defined.

(** Whatever the buffer and the declared length, a BOS decode prints at
    most two errors (a wrong descriptor type, and the truncated record
    that ends the walk) and at most one warning more than the header
    announces capabilities. *)
Theorem bos_diagnostics_bounded (data : buffer) (length : Z) :
  exists t,
    Bos.parse_bos_descriptor data length = Some t /\
    n_errors t <= 2 /\
    n_warnings t <= 1 + u8 data 4.
Proof.
  destruct (run_wp _ _ (bos_decode_tally data length))
    as (t & E & _ & He & Hw & _).
  exists t. auto.
Qed.

(* ================================================================== *)
(** ** MS OS 2.0 decoder: where the walk stops *)

(** A pass of the MS OS 2.0 walk stops the walk exactly when fewer than
    4 bytes are left, or [wLength] is below 4 (0 included), or the record
    runs past the buffer; it then prints one error, no warning, counts
    the error and leaves the cursor where it is.  Any other record,
    whatever its type and content, moves the cursor forward by its
    [wLength], and no counter decreases. *)
Theorem msos20_pass_outcome (data : buffer) (length : Z) (v : MsOs20.vars)
  (t : trace) :
  wp (MsOs20.descriptor data length v)
    (fun r t' =>
       if msos20_rejects data length (MsOs20.offset v) then
         r = Break {| MsOs20.offset := MsOs20.offset v;
                      MsOs20.error_count := MsOs20.error_count v + 1;
                      MsOs20.warning_count := MsOs20.warning_count v |} /\
         n_errors t' = n_errors t + 1 /\ n_warnings t' = n_warnings t
       else
         exists v',
           r = Continue v' /\
           MsOs20.offset v' = MsOs20.offset v + le16 data (MsOs20.offset v) /\
           MsOs20.offset v < MsOs20.offset v' <= length /\
           MsOs20.error_count v <= MsOs20.error_count v' /\
           MsOs20.warning_count v <= MsOs20.warning_count v') t.
Proof.
  unfold MsOs20.descriptor, MsOs20.error, msos20_rejects.
  wp_go; decide_tests; cbn [orb]; try solve [tally].
  eapply wp_mono; [apply dispatch_tally|].
  unfold msos20_tally. intros v1 t1 H. wp_go.
  eexists. split; [reflexivity|]. tally.
Qed.

(** What the walk needs of a pass: where it leaves the cursor. *)
Lemma descriptor_cursor (data : buffer) (length : Z) (v : MsOs20.vars)
  (t : trace) :
  wp (MsOs20.descriptor data length v)
    (fun r _ =>
       exists v',
         if msos20_rejects data length (MsOs20.offset v) then
           r = Break v' /\ MsOs20.offset v' = MsOs20.offset v
         else
           r = Continue v' /\
           le16 data (MsOs20.offset v) >= 4 /\
           MsOs20.offset v' = MsOs20.offset v + le16 data (MsOs20.offset v) /\
           MsOs20.offset v' <= length) t.
Proof.
  unfold MsOs20.descriptor, MsOs20.error, msos20_rejects.
  wp_go; decide_tests; cbn [orb]; try solve [eexists; tally].
  eapply wp_mono; [apply dispatch_tally|].
  unfold msos20_tally. intros v1 t1 H. wp_go.
  eexists. split; [reflexivity|]. tally.
Qed.

Lemma msos20_walk_stops (data : buffer) (length : Z) :
  forall (fuel : nat) (v : MsOs20.vars) (t : trace),
    (Z.to_nat (length - MsOs20.offset v) <= fuel)%nat ->
    wp (MsOs20.walk fuel data length v)
      (fun v' t' =>
         MsOs20.offset v <= MsOs20.offset v' /\
         (length <= MsOs20.offset v' \/
          msos20_rejects data length (MsOs20.offset v') = true)) t.
Proof.
  induction fuel as [|fuel IH]; intros v t Hfuel; cbn [MsOs20.walk];
    wp_go; try solve [split; [lia | left; lia]]; try lia.
  eapply wp_mono; [apply descriptor_cursor|].
  intros r t' (v' & H). cbv beta in H.
  destruct (msos20_rejects data length (MsOs20.offset v)) eqn:E.
  - destruct H as (-> & Hoff). wp_go. rewrite Hoff. split; [lia | now right].
  - destruct H as (-> & Hlen & Hoff & Hadv).
    eapply wp_mono; [apply IH; lia|]. cbv beta. intros a t'' [H1 H2].
    split; [lia | exact H2].
Qed.

(** The MS OS 2.0 walk never gives up silently: started at the head of
    a buffer it ends with its cursor at or past the declared length, or
    on a record that the length checks reject. *)
Theorem msos20_walk_covers_buffer (data : buffer) (length : Z) (t : trace) :
  wp (MsOs20.walk (Z.to_nat length) data length
        {| MsOs20.offset := 0; MsOs20.error_count := 0;
           MsOs20.warning_count := 0 |})
    (fun v' t' =>
       0 <= MsOs20.offset v' /\
       (length <= MsOs20.offset v' \/
        msos20_rejects data length (MsOs20.offset v') = true)) t.
Proof.
  eapply wp_mono.
  - apply msos20_walk_stops. cbn [MsOs20.offset]. lia.
  - cbn [MsOs20.offset]. auto.
Qed.

(** C8. A sub-descriptor whose 4-byte header is in the buffer, whose
    [wLength] is at least 4 and ends within the buffer, and whose
    [wDescriptorType] is none of 0x00 to 0x04 adds one to the error
    count and does not stop the walk.  The pass through the loop body
    prints the unknown-type error, moves the cursor forward by [wLength]
    and continues.  With the fuel of the decoder, or more, the walk then
    returns, and its result is that of the walk resumed at the next
    record: when bytes are left there, the next pass through the body is
    made on that record and its outcome decides the rest; when none is
    left, the walk ends at that cursor.  The error stays counted: the
    final error count and the number of errors printed are both at
    least one more than before the record. *)
Theorem msos20_unknown_type_continues (data : buffer) (length : Z)
  (v : MsOs20.vars) (t : trace) :
  let off := MsOs20.offset v in
  let wLength := le16 data off in
  let wDescriptorType := le16 data (off + 2) in
  let v' := {| MsOs20.offset := off + wLength;
               MsOs20.error_count := MsOs20.error_count v + 1;
               MsOs20.warning_count := MsOs20.warning_count v |} in
  let t' := {| out := out t ++
                 [Pr Info "Offset %d: " [ArgInt off];
                  Pr Error "ERROR: Unknown Descriptor Type 0x%04x (len=%d)\n"
                    [ArgInt wDescriptorType; ArgInt wLength]];
               reads := reads t |} in
  off + 4 <= length ->
  4 <= wLength ->
  off + wLength <= length ->
  ~ (0 <= wDescriptorType <= 4) ->
  MsOs20.descriptor data length v t = Some (Continue v', t') /\
  forall fuel,
    (Z.to_nat (length - off) <= fuel)%nat ->
    exists vf tf,
      MsOs20.walk fuel data length v t = Some (vf, tf) /\
      MsOs20.walk (Nat.pred fuel) data length v' t' = Some (vf, tf) /\
      off + wLength <= MsOs20.offset vf /\
      MsOs20.error_count v + 1 <= MsOs20.error_count vf /\
      n_errors t + 1 <= n_errors tf /\
      (if off + wLength <? length then
         exists r t'',
           MsOs20.descriptor data length v' t' = Some (r, t'') /\
           match r with
           | Break vb => vf = vb /\ tf = t''
           | Continue vc =>
               MsOs20.walk (Nat.pred (Nat.pred fuel)) data length vc t''
               = Some (vf, tf)
           end
       else vf = v' /\ tf = t').
Proof.
  intros off wLength wDescriptorType v' t' Hhdr Hlen Hfit Hty.
  pose proof (le16_range data (off + 2)) as Hr.
  assert (Hstep : MsOs20.descriptor data length v t = Some (Continue v', t')).
  { unfold MsOs20.descriptor, MsOs20.dispatch.
    fold off. fold wLength. fold wDescriptorType.
    unfold MsOs20.MS_OS_20_SET_HEADER_DESCRIPTOR,
      MsOs20.MS_OS_20_SUBSET_HEADER_CONFIGURATION,
      MsOs20.MS_OS_20_SUBSET_HEADER_FUNCTION,
      MsOs20.MS_OS_20_FEATURE_COMPATIBLE_ID,
      MsOs20.MS_OS_20_FEATURE_REG_PROPERTY.
    decide_tests.
    unfold MsOs20.error.
    cbv beta iota zeta delta [bind printf ret out reads].
    subst v' t'. cbn [MsOs20.error_count MsOs20.warning_count MsOs20.offset].
    now rewrite <- app_assoc. }
  split; [exact Hstep|].
  intros [|fuel] Hfuel; [lia|]. cbn [Nat.pred].
  assert (Hfuel' : (Z.to_nat (length - MsOs20.offset v') <= fuel)%nat)
    by (subst v'; cbn [MsOs20.offset]; lia).
  assert (Hwalk : MsOs20.walk (S fuel) data length v t
                  = MsOs20.walk fuel data length v' t').
  { cbn [MsOs20.walk]. fold off.
    replace (off <? length) with true by lia. cbn [negb].
    unfold bind at 1. now rewrite Hstep. }
  rewrite Hwalk.
  pose proof (walk_tally data length fuel v' t' Hfuel') as Htally.
  pose proof (msos20_walk_stops data length fuel v' t' Hfuel') as Hstops.
  apply wp_run in Htally, Hstops.
  destruct Htally as (vf & tf & E & Htally).
  destruct Hstops as (vf' & tf' & E' & Hmono & _).
  rewrite E in E'. injection E' as <- <-.
  exists vf, tf. split; [exact E|]. split; [exact E|].
  assert (Herr : n_errors t' = n_errors t + 1).
  { subst t'. unfold n_errors, errors. cbn [out].
    rewrite filter_app, length_app. cbn [filter is_error sev List.length].
    lia. }
  unfold msos20_tally in Htally.
  destruct Htally as (He & _ & Hle & _).
  subst v'. cbn [MsOs20.offset MsOs20.error_count] in *.
  split; [exact Hmono|]. split; [lia|]. split; [lia|].
  destruct (off + wLength <? length) eqn:Enext.
  - destruct fuel as [|fuel]; [lia|]. cbn [Nat.pred].
    cbn [MsOs20.walk MsOs20.offset] in E.
    rewrite Enext in E. cbn [negb] in E. unfold bind at 1 in E.
    destruct (MsOs20.descriptor data length _ t') as [[r t'']|] eqn:Ed;
      [|discriminate].
    exists r, t''. split; [reflexivity|].
    destruct r as [vc|vb]; [exact E|].
    unfold ret in E. injection E as <- <-. split; reflexivity.
  - destruct fuel as [|fuel]; cbn [MsOs20.walk MsOs20.offset] in E;
      rewrite Enext in E; cbn [negb] in E; unfold ret in E;
      injection E as <- <-; split; reflexivity.
Qed.

Lemma msos20_unknown_type_continues_witness :
  0 + 4 <= 14 /\
  4 <= le16 msos20_unknown_then_header 0 /\
  0 + le16 msos20_unknown_then_header 0 <= 14 /\
  ~ (0 <= le16 msos20_unknown_then_header (0 + 2) <= 4) /\
  MsOs20.descriptor msos20_unknown_then_header 14
    {| MsOs20.offset := 0; MsOs20.error_count := 0;
       MsOs20.warning_count := 0 |} empty_trace
  = Some (Continue {| MsOs20.offset := 4; MsOs20.error_count := 1;
                      MsOs20.warning_count := 0 |},
          {| out := [Pr Info "Offset %d: " [ArgInt 0];
                     Pr Error
                       "ERROR: Unknown Descriptor Type 0x%04x (len=%d)\n"
                       [ArgInt 9; ArgInt 4]];
             reads := [] |}) /\
  forall fuel,
    (Z.to_nat (14 - 0) <= fuel)%nat ->
    exists vf tf,
      MsOs20.walk fuel msos20_unknown_then_header 14
        {| MsOs20.offset := 0; MsOs20.error_count := 0;
           MsOs20.warning_count := 0 |} empty_trace = Some (vf, tf) /\
      MsOs20.walk (Nat.pred fuel) msos20_unknown_then_header 14
        {| MsOs20.offset := 4; MsOs20.error_count := 1;
           MsOs20.warning_count := 0 |}
        {| out := [Pr Info "Offset %d: " [ArgInt 0];
                   Pr Error
                     "ERROR: Unknown Descriptor Type 0x%04x (len=%d)\n"
                     [ArgInt 9; ArgInt 4]];
           reads := [] |} = Some (vf, tf) /\
      4 <= MsOs20.offset vf /\
      1 <= MsOs20.error_count vf /\
      n_errors empty_trace + 1 <= n_errors tf /\
      exists r t'',
        MsOs20.descriptor msos20_unknown_then_header 14
          {| MsOs20.offset := 4; MsOs20.error_count := 1;
             MsOs20.warning_count := 0 |}
          {| out := [Pr Info "Offset %d: " [ArgInt 0];
                     Pr Error
                       "ERROR: Unknown Descriptor Type 0x%04x (len=%d)\n"
                       [ArgInt 9; ArgInt 4]];
             reads := [] |} = Some (r, t'') /\
        match r with
        | Break vb => vf = vb /\ tf = t''
        | Continue vc =>
            MsOs20.walk (Nat.pred (Nat.pred fuel)) msos20_unknown_then_header
              14 vc t'' = Some (vf, tf)
        end.
Proof.
  assert (H1 : 0 + 4 <= 14) by lia.
  assert (H2 : 4 <= le16 msos20_unknown_then_header 0)
    by (vm_compute; discriminate).
  assert (H3 : 0 + le16 msos20_unknown_then_header 0 <= 14)
    by (vm_compute; discriminate).
  assert (H4 : ~ (0 <= le16 msos20_unknown_then_header (0 + 2) <= 4))
    by (vm_compute; intros [_ H]; apply H; reflexivity).
  split; [exact H1|]. split; [exact H2|]. split; [exact H3|].
  split; [exact H4|].
  exact (msos20_unknown_type_continues msos20_unknown_then_header 14
           {| MsOs20.offset := 0; MsOs20.error_count := 0;
              MsOs20.warning_count := 0 |} empty_trace
           H1 H2 H3 H4).
Defined.

(* ================================================================== *)
(** ** UUIDs: formatting and comparison *)

Lemma nibble_cases (x : Z) :
  0 <= x < 16 ->
  x = 0 \/ x = 1 \/ x = 2 \/ x = 3 \/ x = 4 \/ x = 5 \/ x = 6 \/ x = 7 \/
  x = 8 \/ x = 9 \/ x = 10 \/ x = 11 \/ x = 12 \/ x = 13 \/ x = 14 \/ x = 15.
Proof. lia. Qed.

Lemma hex_digit_compare (x y : Z) :
  0 <= x < 16 -> 0 <= y < 16 ->
  (code (tolower (hex_digit x)) - code (tolower (hex_digit y)) =? 0)
  = (x =? y).
Proof.
  intros Hx Hy.
  destruct (nibble_cases x Hx) as
    [->|[->|[->|[->|[->|[->|[->|[->|[->|[->|[->|[->|[->|[->|[->| ->]]]]]]]]]]]]]]];
  destruct (nibble_cases y Hy) as
    [->|[->|[->|[->|[->|[->|[->|[->|[->|[->|[->|[->|[->|[->|[->| ->]]]]]]]]]]]]]]];
  reflexivity.
Qed.

Lemma strcasecmp_hex2 (a b : Z) (s1 s2 : string) :
  0 <= a <= 255 -> 0 <= b <= 255 ->
  strcasecmp (hex2 a ++ s1) (hex2 b ++ s2) = 0
  <-> a = b /\ strcasecmp s1 s2 = 0.
Proof.
  intros Ha Hb. unfold hex2. cbn [append strcasecmp]. cbv zeta.
  rewrite !hex_digit_compare
    by (try apply Z.mod_pos_bound; try split;
        try apply Z.div_pos; try apply Z.div_lt_upper_bound; lia).
  destruct (a / 16 =? b / 16) eqn:E1.
  - destruct (a mod 16 =? b mod 16) eqn:E2.
    + apply Z.eqb_eq in E1, E2.
      assert (a = b)
        by (rewrite (Z.div_mod a 16), (Z.div_mod b 16) by lia; congruence).
      tauto.
    + apply Z.eqb_neq in E2. split.
      * intros H. exfalso.
        assert (Hd : (code (tolower (hex_digit (a mod 16)))
                      - code (tolower (hex_digit (b mod 16))) =? 0) = false)
          by (rewrite hex_digit_compare by (apply Z.mod_pos_bound; lia);
              now apply Z.eqb_neq).
        apply Z.eqb_neq in Hd. congruence.
      * intros [-> _]. congruence.
  - apply Z.eqb_neq in E1. split.
    + intros H. exfalso.
      assert (Hd : (code (tolower (hex_digit (a / 16)))
                    - code (tolower (hex_digit (b / 16))) =? 0) = false)
        by (rewrite hex_digit_compare
              by (split; try apply Z.div_pos;
                  try apply Z.div_lt_upper_bound; lia);
            now apply Z.eqb_neq).
      apply Z.eqb_neq in Hd. congruence.
    + intros [-> _]. congruence.
Qed.

Lemma strcasecmp_hex2_end (a b : Z) :
  0 <= a <= 255 -> 0 <= b <= 255 ->
  strcasecmp (hex2 a) (hex2 b) = 0 <-> a = b.
Proof.
  intros Ha Hb.
  change (hex2 a) with (hex2 a ++ "")%string.
  change (hex2 b) with (hex2 b ++ "")%string.
  rewrite strcasecmp_hex2 by assumption. cbn [strcasecmp]. tauto.
Qed.

Lemma strcasecmp_dash (s1 s2 : string) :
  strcasecmp ("-" ++ s1) ("-" ++ s2) = strcasecmp s1 s2.
Proof. reflexivity. Qed.

Lemma sixteen_cases (k : Z) :
  0 <= k < 16 ->
  k = 0 \/ k = 1 \/ k = 2 \/ k = 3 \/ k = 4 \/ k = 5 \/ k = 6 \/ k = 7 \/
  k = 8 \/ k = 9 \/ k = 10 \/ k = 11 \/ k = 12 \/ k = 13 \/ k = 14 \/ k = 15.
Proof. lia. Qed.

Lemma uuid_strings_compare (u w : Z -> Z) :
  (forall k, 0 <= u k <= 255) -> (forall k, 0 <= w k <= 255) ->
  strcasecmp (uuid_to_string u) (uuid_to_string w) = 0
  <-> forall k, 0 <= k < 16 -> u k = w k.
Proof.
  intros Hu Hw. unfold uuid_to_string.
  repeat first [ rewrite strcasecmp_hex2 by auto
               | rewrite strcasecmp_dash
               | rewrite strcasecmp_hex2_end by auto ].
  split.
  - intros H k Hk.
    destruct (sixteen_cases k Hk) as
      [->|[->|[->|[->|[->|[->|[->|[->|[->|[->|[->|[->|[->|[->|[->| ->]]]]]]]]]]]]]]];
      tauto.
  - intros H. repeat split; try (apply H; lia).
Qed.

Lemma u8_cons_succ (b : byte) (bs : list byte) (k : Z) :
  0 <= k -> u8 (b :: bs) (k + 1) = u8 bs k.
Proof.
  intros Hk. unfold u8.
  replace (k + 1 <? 0) with false by lia. replace (k <? 0) with false by lia.
  replace (Z.to_nat (k + 1)) with (S (Z.to_nat k)) by lia. reflexivity.
Qed.

Lemma bytes_at_spec (bs : list byte) :
  forall (data : buffer) (off : Z),
    bytes_at data off bs = true
    <-> forall k, 0 <= k < Z.of_nat (List.length bs) ->
                  u8 data (off + k) = u8 bs k.
Proof.
  induction bs as [|b bs IH]; intros data off; cbn [bytes_at List.length].
  - split; [intros _ k Hk; lia | reflexivity].
  - rewrite andb_true_iff, Z.eqb_eq, IH. split.
    + intros [H0 H] k Hk. destruct (Z.eq_dec k 0) as [->|Hne].
      * now rewrite Z.add_0_r.
      * replace k with (k - 1 + 1) at 2 by lia.
        rewrite u8_cons_succ by lia.
        replace (off + k) with (off + 1 + (k - 1)) by lia. apply H. lia.
    + intros H. split.
      * rewrite <- (Z.add_0_r off). now rewrite (H 0) by lia.
      * intros k Hk. replace (off + 1 + k) with (off + (k + 1)) by lia.
        rewrite (H (k + 1)) by lia. now apply u8_cons_succ.
Qed.

(** The test of a branch of the platform-capability decoder against the
    bytes of the record. *)
Lemma uuid_test (data : buffer) (off : Z) (bs : list byte) :
  List.length bs = 16%nat ->
  (strcasecmp (uuid_to_string (fun k => u8 data (off + k)))
              (uuid_to_string (u8 bs)) =? 0)
  = bytes_at data off bs.
Proof.
  intros Hlen. apply eq_true_iff_eq.
  rewrite Z.eqb_eq, bytes_at_spec, Hlen.
  apply uuid_strings_compare; intros k; apply u8_range.
Qed.

Lemma uuid_test_webusb (data : buffer) (off : Z) :
  (strcasecmp (uuid_to_string (fun k => u8 data (off + k))) WEBUSB_UUID_STR
   =? 0) = bytes_at data off WEBUSB_UUID.
Proof. now rewrite <- uuid_test. Qed.

Lemma uuid_test_msos20 (data : buffer) (off : Z) :
  (strcasecmp (uuid_to_string (fun k => u8 data (off + k))) MSOS20_UUID_STR
   =? 0) = bytes_at data off MSOS20_UUID.
Proof. now rewrite <- uuid_test. Qed.

Lemma uuid_bytes_exclusive (data : buffer) (off : Z) :
  bytes_at data off WEBUSB_UUID = true ->
  bytes_at data off MSOS20_UUID = false.
Proof.
  cbn [bytes_at WEBUSB_UUID MSOS20_UUID]. intros H.
  apply andb_true_iff in H. destruct H as [H _]. apply Z.eqb_eq in H.
  rewrite H. reflexivity.
Qed.

(** Two formatted UUIDs compare equal, case ignored, exactly when the
    sixteen bytes they were formatted from are the same: the formatter
    loses nothing and the comparison accepts nothing else. *)
Theorem uuid_match_iff_same_bytes (d1 d2 : buffer) (o1 o2 : Z) :
  strcasecmp (uuid_to_string (fun k => u8 d1 (o1 + k)))
             (uuid_to_string (fun k => u8 d2 (o2 + k))) = 0
  <-> forall k, 0 <= k < 16 -> u8 d1 (o1 + k) = u8 d2 (o2 + k).
Proof. apply uuid_strings_compare; intros k; apply u8_range. Qed.

(* ================================================================== *)
(** ** BOS decoder: platform capabilities *)

Create Rewrite HintDb outs.

#[local] Hint Rewrite out_emit out_note out_touched : outs.

(** The events a run has added: [out t'] as [out t ++ es]. *)
Ltac added_events :=
  autorewrite with outs; rewrite <- ?app_assoc; cbn [app];
  eexists; split; [reflexivity|].

Ltac in_events :=
  cbn [In];
  intuition (try reflexivity; try discriminate; try congruence).

(** The platform-capability decoder names the capability by its sixteen
    UUID bytes alone: it prints "WebUSB" exactly when they are
    38 b6 08 34 a9 09 a0 47 8b fd a0 76 88 15 b6 65, "MS OS 2.0" exactly
    when they are df 60 dd d8 89 45 c7 4c 9c d2 65 9d 9e 64 8a 9f, and
    "Unknown" in every other case; it never prints an error. *)
Theorem bos_platform_capability_kind (data : buffer) (cap_length : Z)
  (v : Bos.vars) (t : trace) :
  wp (Bos.platform_capability data cap_length v)
    (fun _ t' =>
       exists es,
         out t' = out t ++ es /\
         (In (Pr Info "    Type: WebUSB Platform Capability\n" []) es
          <-> bytes_at data (Bos.offset v + 4) WEBUSB_UUID = true) /\
         (In (Pr Info "    Type: MS OS 2.0 Platform Capability\n" []) es
          <-> bytes_at data (Bos.offset v + 4) MSOS20_UUID = true) /\
         (In (Pr Info "    Type: Unknown Platform Capability\n" []) es
          <-> bytes_at data (Bos.offset v + 4) WEBUSB_UUID = false /\
              bytes_at data (Bos.offset v + 4) MSOS20_UUID = false) /\
         Forall (fun e => sev e <> Error) es) t.
Proof.
  unfold Bos.platform_capability. cbv zeta.
  rewrite uuid_test_webusb, uuid_test_msos20.
  destruct (bytes_at data (Bos.offset v + 4) WEBUSB_UUID) eqn:Ew.
  - pose proof (uuid_bytes_exclusive _ _ Ew) as Em. rewrite Em.
    wp_go; added_events;
      (split; [in_events|]; split; [in_events|]; split; [in_events|]);
      repeat constructor; discriminate.
  - destruct (bytes_at data (Bos.offset v + 4) MSOS20_UUID) eqn:Em;
      wp_go; added_events;
      (split; [in_events|]; split; [in_events|]; split; [in_events|]);
      repeat constructor; discriminate.
Qed.

Lemma errors_emit e t :
  errors (emit e t) = errors t ++ (if is_error e then [e] else []).
Proof.
  unfold errors. rewrite out_emit, filter_app. cbn [filter].
  now destruct (is_error e).
Qed.

Lemma warnings_emit e t :
  warnings (emit e t) = warnings t ++ (if is_warning e then [e] else []).
Proof.
  unfold warnings. rewrite out_emit, filter_app. cbn [filter].
  now destruct (is_warning e).
Qed.

Lemma errors_note i t : errors (note i t) = errors t.
Proof. reflexivity. Qed.

Lemma warnings_note i t : warnings (note i t) = warnings t.
Proof. reflexivity. Qed.

Lemma errors_touched n i t : errors (touched i n t) = errors t.
Proof. unfold errors. now rewrite out_touched. Qed.

Lemma warnings_touched n i t : warnings (touched i n t) = warnings t.
Proof. unfold warnings. now rewrite out_touched. Qed.

Create Rewrite HintDb diag.

#[local] Hint Rewrite errors_emit warnings_emit errors_note warnings_note
  errors_touched warnings_touched : diag.

(** The error and warning events of an explicit trace. *)
Ltac diagnostics :=
  autorewrite with diag;
  cbn [is_error is_warning sev app errors warnings out filter empty_trace].

(** A BOS descriptor announcing one capability, a WebUSB platform
    capability at offset 5 with its four payload bytes in the buffer and
    a vendor code of 0, decodes with no error and with exactly one
    warning, the one about the vendor code; the other bytes of the
    record do not matter. *)
Theorem bos_webusb_vendor_code_zero (data : buffer) (length : Z) :
  u8 data 0 = 5 ->
  u8 data 1 = USB_DT_BOS ->
  le16 data 2 = length ->
  u8 data 4 = 1 ->
  24 <= u8 data 5 ->
  5 + 24 <= length ->
  u8 data 7 = USB_PLAT_DEV_CAP_TYPE ->
  bytes_at data 9 WEBUSB_UUID = true ->
  u8 data 27 = 0 ->
  exists t,
    Bos.parse_bos_descriptor data length = Some t /\
    errors t = [] /\
    warnings t =
      [Pr Warning "      WARNING: WebUSB vendor code is 0 (invalid)\n" []].
Proof.
  intros H0 H1 H2 H4 Hlen Hfit Hty Huuid Hvc.
  enough (H : wp (Bos.decode 255 data length)
                (fun _ t =>
                   errors t = [] /\
                   warnings t =
                     [Pr Warning
                        "      WARNING: WebUSB vendor code is 0 (invalid)\n"
                        []]) empty_trace).
  { apply run_wp in H. destruct H as (t & E & _ & He & Hw). eauto. }
  set (fuel := 253%nat). change 255%nat with (S (S fuel)). clearbody fuel.
  unfold Bos.decode, Bos.summary. cbn [Bos.walk].
  unfold Bos.capability, Bos.platform_capability, sizeof_plat_dev_cap.
  unfold USB_DT_BOS, USB_PLAT_DEV_CAP_TYPE, USB_DT_DEVICE_CAPABILITY in *.
  cbv zeta. cbn [Bos.offset Bos.cap_count Bos.error_count Bos.warning_count].
  repeat (first
            [ rewrite uuid_test_webusb; change (5 + 4) with 9; rewrite Huuid
            | wp_step ];
          cbv beta iota;
          cbn [Bos.offset Bos.cap_count Bos.error_count Bos.warning_count];
          rewrite ?H0; change (5 + 20 + 2) with 27; change (5 + 2) with 7;
          try (exfalso; lia)).
  all: diagnostics; split; reflexivity.
Qed.

Lemma bos_webusb_vendor_code_zero_witness :
  exists t,
    Bos.parse_bos_descriptor bos_webusb_no_vendor_code 29 = Some t /\
    errors t = [] /\
    warnings t =
      [Pr Warning "      WARNING: WebUSB vendor code is 0 (invalid)\n" []].
Proof.
  apply (bos_webusb_vendor_code_zero bos_webusb_no_vendor_code 29);
    first [reflexivity | vm_compute; discriminate].
Defined.

(* ================================================================== *)
(** ** MS OS 2.0 decoder: a descriptor set that is only its header *)

(** A buffer that is one Set Header spanning the declared length, with
    the Windows version 0x06030000 and a total length equal to the
    declared length, decodes to the header line and a summary of 0
    errors and 0 warnings, and nothing else. *)
Theorem msos20_sole_set_header (data : buffer) (length : Z) :
  10 <= length ->
  le16 data 0 = length ->
  le16 data 2 = MsOs20.MS_OS_20_SET_HEADER_DESCRIPTOR ->
  le32 data 4 = 0x06030000 ->
  le16 data 8 = length ->
  exists t,
    MsOs20.parse_msos20_descriptor data length = Some t /\
    out t =
      [Pr Info "=== MS OS 2.0 Descriptor Analysis ===\n" [];
       Pr Info "Total descriptor length: %d bytes\n\n" [ArgInt length];
       Pr Info "Offset %d: " [ArgInt 0];
       Pr Info "Set Header (len=%d, winver=0x%08x, total=%d)\n"
         [ArgInt length; ArgInt 0x06030000; ArgInt length];
       Pr Info "\n=== Summary ===\n" [];
       Pr Info "Parsing completed: %d errors, %d warnings\n"
         [ArgInt 0; ArgInt 0];
       Pr Info "✓ Descriptor appears to be well-formed\n" [];
       Pr Info "\n" []].
Proof.
  intros Hlen Hw Hty Hver Htot.
  match goal with
  | |- exists t, _ /\ out t = ?es =>
      enough (H : wp (MsOs20.decode (Z.to_nat length) data length)
                    (fun _ t => out t = es) empty_trace)
  end.
  { apply run_wp in H. destruct H as (t & E & _ & H). eauto. }
  destruct (Z.to_nat length) as [|[|fuel]] eqn:Efuel; [lia| |];
    unfold MsOs20.decode, MsOs20.summary; cbn [MsOs20.walk];
    unfold MsOs20.descriptor, MsOs20.dispatch, MsOs20.set_header,
      MsOs20.when, MsOs20.MS_OS_20_SET_HEADER_DESCRIPTOR in *;
    cbv zeta; cbn [MsOs20.offset];
    change (0 + 2) with 2; change (0 + 4) with 4; change (0 + 8) with 8;
    rewrite Hw, Hty, Hver, Htot;
    repeat (wp_step; cbv beta iota;
            cbn [MsOs20.offset MsOs20.error_count MsOs20.warning_count];
            try (exfalso; lia));
    reflexivity.
Qed.

Lemma msos20_sole_set_header_witness :
  exists t,
    MsOs20.parse_msos20_descriptor msos20_set_header_only 10 = Some t /\
    out t =
      [Pr Info "=== MS OS 2.0 Descriptor Analysis ===\n" [];
       Pr Info "Total descriptor length: %d bytes\n\n" [ArgInt 10];
       Pr Info "Offset %d: " [ArgInt 0];
       Pr Info "Set Header (len=%d, winver=0x%08x, total=%d)\n"
         [ArgInt 10; ArgInt 0x06030000; ArgInt 10];
       Pr Info "\n=== Summary ===\n" [];
       Pr Info "Parsing completed: %d errors, %d warnings\n"
         [ArgInt 0; ArgInt 0];
       Pr Info "✓ Descriptor appears to be well-formed\n" [];
       Pr Info "\n" []].
Proof.
  apply (msos20_sole_set_header msos20_set_header_only 10);
    first [lia | reflexivity].
Defined.

(* ================================================================== *)
(** ** WebUSB URL decoder: the bytes read *)

Lemma indices_below (lo hi n : Z) :
  0 <= lo -> hi <= n -> Forall (below n) (WebUsbUrl.indices lo hi).
Proof.
  intros Hlo Hhi. unfold WebUsbUrl.indices. apply Forall_forall.
  intros i Hi. apply in_map_iff in Hi. destruct Hi as (k & <- & Hk).
  apply in_seq in Hk. unfold below. lia.
Qed.

(** The WebUSB URL decoder reads the three header bytes and then exactly
    the bytes it prints as the URL, indices 3 to min(bLength, length) - 1;
    whatever the buffer and the declared length, no read reaches the
    declared length. *)
Theorem webusb_url_reads (data : buffer) (length : Z) :
  exists t,
    WebUsbUrl.parse_webusb_url_descriptor data length = Some t /\
    reads t =
      (if length <? 3 then []
       else [0; 1; 2]
            ++ (if length >? 3
                then WebUsbUrl.indices 3 (Z.min (u8 data 0) length)
                else [])) /\
    reads_within length t.
Proof.
  unfold WebUsbUrl.parse_webusb_url_descriptor, run, WebUsbUrl.decode.
  cbv beta iota zeta delta [bind printf load ret empty_trace].
  cbn [out reads]. destruct (length <? 3) eqn:E3.
  - eexists. split; [reflexivity|]. split; [reflexivity|]. constructor.
  - rewrite scheme_spec. cbn [out reads].
    destruct (length >? 3) eqn:E.
    + rewrite url_bytes_spec by lia. cbn [out reads app].
      eexists. split; [reflexivity|]. split; [reflexivity|].
      unfold reads_within. cbn [reads].
      repeat (constructor; [unfold below; lia|]).
      apply indices_below; lia.
    + eexists. split; [reflexivity|]. split; [reflexivity|].
      unfold reads_within. cbn [reads].
      repeat (constructor; [unfold below; lia|]). constructor.
Qed.

(* ================================================================== *)
(** ** BOS decoder: the records the walk reports *)

Lemma records_emit e t : records (emit e t) = records t ++ record_of e.
Proof.
  unfold records. rewrite out_emit, flat_map_app. cbn [flat_map].
  now rewrite app_nil_r.
Qed.

Lemma records_note i t : records (note i t) = records t.
Proof. reflexivity. Qed.

Lemma records_touched n i t : records (touched i n t) = records t.
Proof. unfold records. now rewrite out_touched. Qed.

Create Rewrite HintDb recs.

#[local] Hint Rewrite records_emit records_note records_touched : recs.

Ltac recs :=
  autorewrite with recs; cbn [record_of String.eqb Ascii.eqb Bool.eqb app];
  rewrite ?app_nil_r.

Lemma bos_platform_capability_records (data : buffer) (cap_length : Z)
  (v : Bos.vars) (t : trace) :
  wp (Bos.platform_capability data cap_length v)
    (fun _ t' => records t' = records t) t.
Proof. unfold Bos.platform_capability. wp_go; recs; reflexivity. Qed.

Lemma bos_capability_records (data : buffer) (length : Z) (v : Bos.vars)
  (t : trace) :
  wp (Bos.capability data length v)
    (fun r t' =>
       if Bos.offset v + 3 <=? length then
         (exists w,
            r = Continue
                  {| Bos.offset := Bos.offset v + u8 data (Bos.offset v);
                     Bos.cap_count := Bos.cap_count v + 1;
                     Bos.error_count := Bos.error_count v;
                     Bos.warning_count := w |}) /\
         records t' = records t ++ [(Bos.cap_count v, Bos.offset v)]
       else
         (exists v', r = Break v') /\ records t' = records t) t.
Proof.
  unfold Bos.capability. cbv zeta.
  destruct (Bos.offset v + 3 >? length) eqn:E.
  - replace (Bos.offset v + 3 <=? length) with false by lia.
    wp_go. split; [eauto|]. recs. reflexivity.
  - replace (Bos.offset v + 3 <=? length) with true by lia.
    wp_go.
    + eapply wp_mono; [apply bos_platform_capability_records|].
      intros w t1 H. wp_go. split; [eauto|]. recs. rewrite H. recs.
      reflexivity.
    + split; [eauto|]. recs. reflexivity.
Qed.

Lemma bos_walk_records (data : buffer) (length : Z) :
  forall (fuel : nat) (v : Bos.vars) (t : trace),
    (Z.to_nat (u8 data 4 - Bos.cap_count v) <= fuel)%nat ->
    wp (Bos.walk fuel data length v)
      (fun v' t' =>
         records t' =
         records t ++
         chain (Z.to_nat (u8 data 4 - Bos.cap_count v)) data length
           (Bos.offset v) (Bos.cap_count v)) t.
Proof.
  induction fuel as [|fuel IH]; intros v t Hfuel; cbn [Bos.walk]; wp_go;
    try lia;
    try solve
      [ first
          [ replace (Z.to_nat (u8 data 4 - Bos.cap_count v)) with O by lia;
            cbn [chain]
          | destruct (Z.to_nat (u8 data 4 - Bos.cap_count v)); cbn [chain];
            [|replace (Bos.offset v + 3 <=? length) with false by lia] ];
        recs; reflexivity ].
  - eapply wp_mono; [apply bos_capability_records|].
    intros r t' H. cbv beta in H.
    replace (Z.to_nat (u8 data 4 - Bos.cap_count v))
      with (S (Z.to_nat (u8 data 4 - (Bos.cap_count v + 1)))) by lia.
    cbn [chain].
    destruct (Bos.offset v + 3 <=? length) eqn:E3.
    + destruct H as [[w ->] Hrec].
      eapply wp_mono; [apply IH; cbn [Bos.cap_count]; lia|].
      cbv beta. cbn [Bos.cap_count Bos.offset]. intros v' t'' H.
      rewrite H, Hrec, <- app_assoc. reflexivity.
    + destruct H as [[v' ->] Hrec]. wp_go. recs. now rewrite Hrec.
Qed.

Lemma bos_decode_records (data : buffer) (length : Z) :
  5 <= length ->
  wp (Bos.decode 255 data length)
    (fun _ t =>
       records t = chain (Z.to_nat (u8 data 4)) data length (u8 data 0) 0)
    empty_trace.
Proof.
  intros Hlen. pose proof (u8_range data 4) as Hn.
  unfold Bos.decode, Bos.summary. wp_go; [lia|..].
  all: (eapply wp_mono;
        [apply bos_walk_records; cbn [Bos.cap_count]; lia|]);
    cbv beta; cbn [Bos.cap_count Bos.offset]; intros v t1 H;
    rewrite Z.sub_0_r in H;
    wp_go; recs; rewrite H; recs; reflexivity.
Qed.

(** The capabilities a BOS decode reports are the records of the chain
    read off the bytes: the first at the header's [bLength], each next
    one as many bytes further as the record before it declares, numbered
    from 0, as long as three bytes of the record are in the buffer and
    [bNumDeviceCaps] is not reached. *)
Theorem bos_reports_record_chain (data : buffer) (length : Z) :
  5 <= length ->
  exists t,
    Bos.parse_bos_descriptor data length = Some t /\
    records t = chain (Z.to_nat (u8 data 4)) data length (u8 data 0) 0.
Proof.
  intros Hlen.
  destruct (run_wp _ _ (bos_decode_records data length Hlen))
    as (t & E & _ & H).
  eauto.
Qed.

Lemma bos_reports_record_chain_witness :
  5 <= 29 /\
  exists t,
    Bos.parse_bos_descriptor bos_webusb 29 = Some t /\
    records t = chain (Z.to_nat (u8 bos_webusb 4)) bos_webusb 29
                  (u8 bos_webusb 0) 0.
Proof.
  split; [lia | apply (bos_reports_record_chain bos_webusb 29); lia].
Defined.

Lemma chain_zero_length (data : buffer) (length off : Z) :
  off + 3 <= length ->
  u8 data off = 0 ->
  forall (n : nat) (k : Z),
    chain n data length off k
    = map (fun j => (k + Z.of_nat j, off)) (seq 0 n).
Proof.
  intros Hfit Hzero. induction n as [|n IH]; intros k; [reflexivity|].
  cbn [chain]. replace (off + 3 <=? length) with true by lia.
  rewrite Hzero, Z.add_0_r, IH. cbn [seq map]. f_equal.
  - f_equal. lia.
  - rewrite <- seq_shift, map_map. apply map_ext. intros j. f_equal. lia.
Qed.

(** When the first capability record of a BOS buffer declares [bLength]
    0, the walk does not move: every one of the [bNumDeviceCaps]
    capabilities it reports is that same record, at the same offset. *)
Theorem bos_zero_length_record_repeats (data : buffer) (length : Z) :
  5 <= length ->
  u8 data 0 + 3 <= length ->
  u8 data (u8 data 0) = 0 ->
  exists t,
    Bos.parse_bos_descriptor data length = Some t /\
    records t
    = map (fun j => (Z.of_nat j, u8 data 0)) (seq 0 (Z.to_nat (u8 data 4))).
Proof.
  intros Hlen Hfit Hzero.
  destruct (run_wp _ _ (bos_decode_records data length Hlen))
    as (t & E & _ & H).
  exists t. split; [exact E|]. rewrite H.
  now rewrite (chain_zero_length data length (u8 data 0) Hfit Hzero).
Qed.

Lemma bos_zero_length_record_repeats_witness :
  5 <= 8 /\
  u8 bos_zero_length 0 + 3 <= 8 /\
  u8 bos_zero_length (u8 bos_zero_length 0) = 0 /\
  exists t,
    Bos.parse_bos_descriptor bos_zero_length 8 = Some t /\
    records t = [(0, 5); (1, 5)].
Proof.
  assert (H1 : 5 <= 8) by lia.
  assert (H2 : u8 bos_zero_length 0 + 3 <= 8) by (vm_compute; discriminate).
  split; [exact H1|]. split; [exact H2|]. split; [reflexivity|].
  exact (bos_zero_length_record_repeats bos_zero_length 8 H1 H2 eq_refl).
Defined.

(* ================================================================== *)
(** ** The hex dump of a response *)

Lemma dumped_app (es1 es2 : list event) :
  dumped (es1 ++ es2) = dumped es1 ++ dumped es2.
Proof. unfold dumped. apply flat_map_app. Qed.

Lemma hex_dump_bytes_spec (buffer : buffer) (result : Z) :
  forall (fuel : nat) (i : Z) (t : trace),
    0 <= i ->
    (Z.to_nat (result - i) <= fuel)%nat ->
    wp (Main.hex_dump_bytes fuel buffer result i)
      (fun _ t' =>
         (exists es,
            out t' = out t ++ es /\
            dumped es = map (u8 buffer) (WebUsbUrl.indices i result)) /\
         reads t' = reads t ++ WebUsbUrl.indices i result) t.
Proof.
  induction fuel as [|fuel IH]; intros i t Hi Hfuel;
    cbn [Main.hex_dump_bytes]; wp_go; try lia.
  1,4: rewrite indices_nil by lia; cbn [map]; rewrite app_nil_r;
       split; [exists []; now rewrite app_nil_r | reflexivity].
  all: (eapply wp_mono; [apply IH; lia|]);
    cbv beta; intros _ t' [(es & Hout & Hd) Hr];
    rewrite (indices_cons i result) by lia; cbn [map];
    (split;
     [ eexists; rewrite Hout; autorewrite with outs;
       rewrite <- !app_assoc; split; [reflexivity|];
       rewrite !dumped_app, Hd; reflexivity
     | rewrite Hr; cbn [reads emit note]; now rewrite <- app_assoc ]).
Qed.

(** The hex dump prints every byte of the response once, in order, and
    reads the indices 0 to [result] - 1 and no other. *)
Theorem hex_dump_shows_response (title : string) (buffer : buffer)
  (result : Z) (t : trace) :
  wp (Main.hex_dump title buffer result)
    (fun _ t' =>
       (exists es,
          out t' = out t ++ es /\
          dumped es = map (u8 buffer) (WebUsbUrl.indices 0 result)) /\
       reads t' = reads t ++ WebUsbUrl.indices 0 result) t.
Proof.
  unfold Main.hex_dump. wp_go.
  eapply wp_mono; [apply hex_dump_bytes_spec; lia|].
  cbv beta. intros _ t' [(es & Hout & Hd) Hr].
  wp_go;
    (split;
     [ eexists; autorewrite with outs; rewrite Hout; autorewrite with outs;
       rewrite <- !app_assoc; split; [reflexivity|];
       rewrite !dumped_app, Hd; cbn [dumped flat_map dumped_byte app];
       now rewrite ?app_nil_r
     | cbn [reads emit]; exact Hr ]).
Qed.

(* ================================================================== *)
(** ** [main]'s scan for the WebUSB capability *)

Lemma webusb_scan_reads (buffer : buffer) (result : Z) :
  forall (fuel : nat) (cap bos_offset : Z),
    0 <= bos_offset ->
    (Z.to_nat (u8 buffer 4 - cap) <= fuel)%nat ->
    yields (within (Z.max 5 (result + 4)))
      (Main.webusb_scan fuel buffer result cap bos_offset) (fun _ => True).
Proof.
  induction fuel as [|fuel IH]; intros cap off Hoff Hfuel;
    cbn [Main.webusb_scan].
  - yields_run; first [exact I | lia].
  - yields_run; try exact I.
    unfold Main.webusb_platform.
    eapply yields_bind with (Q1 := fun _ => True); [yields_side | |].
    + yields_run; exact I.
    + intros [codes|] _; [yields_run; exact I|].
      apply IH; [pose proof (u8_range buffer off); lia | lia].
Qed.

(** [main]'s scan returns on every buffer and length, and reads nothing
    at or past index [result] + 4 (index 4, the capability count, is
    read even when fewer than 5 bytes arrived). *)
Theorem webusb_scan_reads_bounded (buffer : buffer) (result : Z) :
  exists codes t,
    Main.webusb_capability buffer result = Some (codes, t) /\
    reads_within (Z.max 5 (result + 4)) t.
Proof.
  pose proof (u8_range buffer 4) as Hn.
  destruct (webusb_scan_reads buffer result 255 0 5) with (t := empty_trace)
    as (codes & t & E & (rs & Hrs & HF) & _); [lia | lia|].
  exists codes, t. split; [exact E|].
  unfold reads_within. rewrite Hrs. exact HF.
Qed.

Lemma webusb_platform_spec (buffer : buffer) (result off : Z) (t : trace) :
  wp (Main.webusb_platform buffer result off (u8 buffer off)
        (u8 buffer (off + 2)))
    (fun found _ =>
       found = if webusb_here buffer result off
               then Some (u8 buffer (off + 22), u8 buffer (off + 23))
               else None) t.
Proof.
  unfold Main.webusb_platform, webusb_here, sizeof_plat_dev_cap. cbv zeta.
  rewrite uuid_test_webusb.
  destruct (u8 buffer (off + 2) =? USB_PLAT_DEV_CAP_TYPE);
    destruct (off + 20 <=? result);
    destruct (bytes_at buffer (off + 4) WEBUSB_UUID);
    destruct (u8 buffer off >=? 20 + 4);
    cbn [andb]; wp_go; try reflexivity.
  now replace (off + 20 + 2) with (off + 22) by lia;
    replace (off + 20 + 3) with (off + 23) by lia.
Qed.

Lemma webusb_scan_spec (buffer : buffer) (result : Z) :
  forall (fuel : nat) (cap off : Z) (t : trace),
    (Z.to_nat (u8 buffer 4 - cap) <= fuel)%nat ->
    wp (Main.webusb_scan fuel buffer result cap off)
      (fun codes _ =>
         codes = codes_or_zero
                   (first_webusb (Z.to_nat (u8 buffer 4 - cap)) buffer
                      result off)) t.
Proof.
  induction fuel as [|fuel IH]; intros cap off t Hfuel;
    cbn [Main.webusb_scan]; wp_go; try lia;
    try solve
      [ first
          [ replace (Z.to_nat (u8 buffer 4 - cap)) with O by lia;
            reflexivity
          | destruct (Z.to_nat (u8 buffer 4 - cap)) eqn:?;
            cbn [first_webusb];
            [|replace (off + 3 <=? result) with false by lia];
            reflexivity ] ].
  replace (Z.to_nat (u8 buffer 4 - cap))
    with (S (Z.to_nat (u8 buffer 4 - (cap + 1)))) by lia.
  cbn [first_webusb]. replace (off + 3 <=? result) with true by lia.
  eapply wp_mono; [apply webusb_platform_spec|].
  cbv beta. intros found t1 ->.
  destruct (webusb_here buffer result off); wp_go; [reflexivity|].
  eapply wp_mono; [apply IH; lia|]. auto.
Qed.

Lemma wp_conj {A} (m : M A) (Q1 Q2 : A -> trace -> Prop) (t : trace) :
  wp m Q1 t -> wp m Q2 t -> wp m (fun a t' => Q1 a t' /\ Q2 a t') t.
Proof. unfold wp. destruct (m t) as [[a t']|]; tauto. Qed.

Lemma first_arg_app (f : string) (es1 es2 : list event) :
  first_arg f (es1 ++ es2)
  = match first_arg f es1 with
    | Some z => Some z
    | None => first_arg f es2
    end.
Proof.
  induction es1 as [|[s f' a] es1 IH]; [reflexivity|].
  cbn [app first_arg]. destruct a as [|[z|s'|c] a]; try exact IH.
  now destruct (String.eqb f' f).
Qed.

Lemma is_webusb_block_reported (es : list event) (found : option (Z * Z)) :
  is_webusb_block es found -> reported_webusb es = found.
Proof.
  intros [Hv Hl]. unfold reported_webusb. rewrite Hv, Hl.
  now destruct found as [[vc lp]|].
Qed.

Lemma is_webusb_block_app (es1 es2 : list event) (f1 f2 : option (Z * Z)) :
  is_webusb_block es1 f1 -> is_webusb_block es2 f2 ->
  is_webusb_block (es1 ++ es2)
    (match f1 with Some codes => Some codes | None => f2 end).
Proof.
  intros [Hv1 Hl1] [Hv2 Hl2]. unfold is_webusb_block.
  rewrite !first_arg_app, Hv1, Hl1, Hv2, Hl2.
  now destruct f1 as [[vc lp]|].
Qed.

Ltac webusb_block :=
  unfold is_webusb_block;
  cbn [first_arg String.eqb Ascii.eqb Bool.eqb option_map fst snd];
  split; reflexivity.

Lemma bos_capability_webusb (data : buffer) (length : Z) (v : Bos.vars)
  (t : trace) :
  wp (Bos.capability data length v)
    (fun _ t' =>
       exists es,
         out t' = out t ++ es /\
         is_webusb_block es
           (if (Bos.offset v + 3 <=? length)
               && webusb_here data length (Bos.offset v)
            then Some (u8 data (Bos.offset v + 22),
                       u8 data (Bos.offset v + 23))
            else None)) t.
Proof.
  unfold Bos.capability, Bos.platform_capability, webusb_here,
    sizeof_plat_dev_cap.
  cbv zeta. rewrite uuid_test_webusb, uuid_test_msos20.
  replace (Bos.offset v + 20 + 2) with (Bos.offset v + 22) by lia.
  replace (Bos.offset v + 20 + 3) with (Bos.offset v + 23) by lia.
  destruct (Bos.offset v + 3 >? length) eqn:E3.
  - replace (Bos.offset v + 3 <=? length) with false by lia.
    wp_go. added_events. webusb_block.
  - replace (Bos.offset v + 3 <=? length) with true by lia.
    wp_go; cbn [andb]; added_events; webusb_block.
Qed.

Lemma bos_walk_webusb (data : buffer) (length : Z) :
  forall (fuel : nat) (v : Bos.vars) (t : trace),
    (Z.to_nat (u8 data 4 - Bos.cap_count v) <= fuel)%nat ->
    wp (Bos.walk fuel data length v)
      (fun _ t' =>
         exists es,
           out t' = out t ++ es /\
           is_webusb_block es
             (first_webusb (Z.to_nat (u8 data 4 - Bos.cap_count v)) data
                length (Bos.offset v))) t.
Proof.
  induction fuel as [|fuel IH]; intros v t Hfuel; cbn [Bos.walk]; wp_go;
    try lia;
    try solve
      [ exists []; autorewrite with outs; rewrite app_nil_r;
        split; [reflexivity|];
        first
          [ replace (Z.to_nat (u8 data 4 - Bos.cap_count v)) with O by lia;
            cbn [first_webusb]
          | destruct (Z.to_nat (u8 data 4 - Bos.cap_count v)) eqn:?;
            cbn [first_webusb];
            [|replace (Bos.offset v + 3 <=? length) with false by lia] ];
        webusb_block ].
  eapply wp_mono;
    [apply (wp_conj _ _ _ _ (bos_capability_records data length v _)
                            (bos_capability_webusb data length v _))|].
  cbv beta. intros r t' [Hr (es1 & Hout1 & Hb1)].
  replace (Z.to_nat (u8 data 4 - Bos.cap_count v))
    with (S (Z.to_nat (u8 data 4 - (Bos.cap_count v + 1)))) by lia.
  cbn [first_webusb].
  destruct (Bos.offset v + 3 <=? length) eqn:E3; cbn [andb] in Hb1.
  - destruct Hr as [[w ->] _].
    eapply wp_mono; [apply IH; cbn [Bos.cap_count]; lia|].
    cbv beta. cbn [Bos.cap_count Bos.offset].
    intros _ t'' (es2 & Hout2 & Hb2).
    exists (es1 ++ es2). rewrite Hout2, Hout1. autorewrite with outs.
    rewrite <- app_assoc. split; [reflexivity|].
    pose proof (is_webusb_block_app _ _ _ _ Hb1 Hb2) as H.
    now destruct (webusb_here data length (Bos.offset v)).
  - destruct Hr as [[v' ->] _]. wp_go.
    exists es1. split; [exact Hout1 | exact Hb1].
Qed.

Lemma bos_decode_webusb (data : buffer) (length : Z) :
  5 <= length ->
  wp (Bos.decode 255 data length)
    (fun _ t =>
       reported_webusb (out t)
       = first_webusb (Z.to_nat (u8 data 4)) data length (u8 data 0))
    empty_trace.
Proof.
  intros Hlen. pose proof (u8_range data 4) as Hn.
  unfold Bos.decode, Bos.summary. wp_go; [lia|..].
  all: (eapply wp_mono;
        [apply bos_walk_webusb; cbn [Bos.cap_count]; lia|]);
    cbv beta; cbn [Bos.cap_count Bos.offset];
    intros v t1 (es & Hout & Hb); rewrite Z.sub_0_r in Hb;
    match type of Hout with
    | _ = ?h0 ++ _ =>
        assert (Hh : is_webusb_block h0 None)
          by (autorewrite with outs; cbn [out empty_trace app];
              webusb_block);
        set (h := h0) in *; clearbody h
    end;
    wp_go; apply is_webusb_block_reported;
    autorewrite with outs; rewrite Hout, <- !app_assoc; cbn [app];
    match goal with
    | |- is_webusb_block (_ ++ _ ++ ?s) ?f =>
        assert (Hs : is_webusb_block s None) by webusb_block;
        pose proof (is_webusb_block_app _ _ _ _ Hh
                      (is_webusb_block_app _ _ _ _ Hb Hs)) as H;
        cbv iota in H; destruct f; exact H
    end.
Qed.

(** When the BOS header declares its own length as 5, [main]'s scan and
    the BOS decoder agree: the vendor code and landing-page index the
    scan returns are those of the first "WebUSB Data" block the decoder
    prints, and both are 0 when the decoder prints none. *)
Theorem webusb_scan_agrees_with_decoder (buffer : buffer) (result : Z) :
  5 <= result ->
  u8 buffer 0 = 5 ->
  exists t codes t2,
    Bos.parse_bos_descriptor buffer result = Some t /\
    Main.webusb_capability buffer result = Some (codes, t2) /\
    codes = codes_or_zero (reported_webusb (out t)).
Proof.
  intros Hlen Hb.
  destruct (run_wp _ _ (bos_decode_webusb buffer result Hlen))
    as (t & E & _ & Hrep).
  pose proof (webusb_scan_spec buffer result 255 0 5 empty_trace) as Hscan.
  pose proof (u8_range buffer 4) as Hn.
  apply wp_run in Hscan; [|lia].
  destruct Hscan as (codes & t2 & E2 & ->).
  eexists t, _, t2. split; [exact E|]. split; [exact E2|].
  now rewrite Hrep, Hb, Z.sub_0_r.
Qed.

Lemma webusb_scan_agrees_with_decoder_witness :
  5 <= 49 /\
  u8 bos_two_capabilities 0 = 5 /\
  exists t codes t2,
    Bos.parse_bos_descriptor bos_two_capabilities 49 = Some t /\
    Main.webusb_capability bos_two_capabilities 49 = Some (codes, t2) /\
    codes = codes_or_zero (reported_webusb (out t)).
Proof.
  assert (H1 : 5 <= 49) by lia.
  split; [exact H1|]. split; [reflexivity|].
  exact (webusb_scan_agrees_with_decoder bos_two_capabilities 49 H1 eq_refl).
Defined.

(* ================================================================== *)
(** ** MS OS 2.0 decoder: the number of passes *)

Lemma msos20_walk_passes (data : buffer) (length : Z) :
  forall (fuel : nat) (v : MsOs20.vars) (t : trace),
    (Z.to_nat ((length - MsOs20.offset v) / 4) + 1 <= fuel)%nat ->
    wp (MsOs20.walk fuel data length v) (fun _ _ => True) t.
Proof.
  induction fuel as [|fuel IH]; intros v t Hfuel; cbn [MsOs20.walk];
    wp_go; try exact I; try lia.
  eapply wp_mono; [apply descriptor_cursor|].
  intros r t' (v' & H). cbv beta in H.
  destruct (msos20_rejects data length (MsOs20.offset v)) eqn:E.
  - destruct H as (-> & _). wp_go. exact I.
  - destruct H as (-> & Hlen & Hoff & Hadv).
    unfold msos20_rejects in E.
    apply orb_false_iff in E. destruct E as [E _].
    apply orb_false_iff in E. destruct E as [_ E].
    apply IH.
    assert ((length - MsOs20.offset v') / 4
            <= (length - MsOs20.offset v) / 4 - 1).
    { replace ((length - MsOs20.offset v) / 4 - 1)
        with ((length - MsOs20.offset v - 4) / 4)
        by (replace (length - MsOs20.offset v - 4)
              with (length - MsOs20.offset v + (-1) * 4) by lia;
            rewrite Z.div_add by lia; lia).
      apply Z.div_le_mono; lia. }
    assert (0 <= (length - MsOs20.offset v') / 4)
      by (apply Z.div_pos; lia).
    lia.
Qed.

(** The MS OS 2.0 walk makes at most length / 4 + 1 passes through its
    body: every record it accepts is at least 4 bytes long and lies
    within the buffer, and the first one it rejects ends the walk. *)
Theorem msos20_decode_pass_bound (data : buffer) (length : Z) :
  exists t,
    run (MsOs20.decode (Z.to_nat (length / 4) + 1) data length) = Some t.
Proof.
  assert (H : wp (MsOs20.decode (Z.to_nat (length / 4) + 1) data length)
                (fun _ _ => True) empty_trace).
  { unfold MsOs20.decode, MsOs20.summary. wp_go.
    eapply wp_mono.
    - apply msos20_walk_passes. cbn [MsOs20.offset].
      rewrite Z.sub_0_r. lia.
    - cbv beta. intros v t _. wp_go; exact I. }
  apply run_wp in H. destruct H as (t & E & _). eauto.
Qed.

(* ================================================================== *)
(** ** MS OS 2.0 decoder: the Compatible-ID feature *)

Lemma strncmp_bytes (data : buffer) :
  forall (bs : list byte) (p : Z -> Z) (off : Z),
    (forall k, p k = u8 data (off + k)) ->
    Forall (fun b => b <> x00) bs ->
    (MsOs20.strncmp p (string_of_list_byte bs) (List.length bs) =? 0)
    = bytes_at data off bs.
Proof.
  induction bs as [|b bs IH]; intros p off Hp Hnz; [reflexivity|].
  inversion Hnz as [|? ? Hb Hbs]; subst.
  cbn [string_of_list_byte List.length MsOs20.strncmp bytes_at
       map string_of_list_ascii].
  cbv zeta. rewrite Hp, Z.add_0_r.
  replace (code (ascii_of_byte b)) with (Z.of_N (Byte.to_N b))
    by (unfold code; now rewrite <- (Ascii.byte_of_ascii_of_byte b)
          at 1; destruct b).
  destruct (u8 data off =? Z.of_N (Byte.to_N b)) eqn:E; cbn [andb].
  - apply Z.eqb_eq in E.
    replace (u8 data off =? 0) with false
      by (rewrite E; destruct b; try reflexivity; congruence).
    apply (IH (fun k => p (k + 1)) (off + 1)); [|exact Hbs].
    intros k. rewrite Hp. f_equal. lia.
  - apply Z.eqb_neq in E. apply Z.eqb_neq. lia.
Qed.

Lemma winusb_bytes (data : buffer) (off : Z) :
  bytes_at data off WINUSB_ID
  = (MsOs20.strncmp (fun k => u8 data (off + k)) "WINUSB" 6 =? 0)
    && (u8 data (off + 6) =? 0) && (u8 data (off + 7) =? 0).
Proof.
  assert (H := strncmp_bytes data [x57; x49; x4e; x55; x53; x42]
                 (fun k => u8 data (off + k)) off (fun k => eq_refl)).
  change (string_of_list_byte [x57; x49; x4e; x55; x53; x42])
    with "WINUSB"%string in H.
  change (List.length [x57; x49; x4e; x55; x53; x42]) with 6%nat in H.
  rewrite H by (repeat constructor; discriminate). clear H.
  unfold WINUSB_ID. cbn [bytes_at].
  replace (off + 1 + 1 + 1 + 1 + 1 + 1) with (off + 6) by lia.
  replace (off + 6 + 1) with (off + 7) by lia.
  change (Z.of_N (Byte.to_N x00)) with 0.
  rewrite andb_true_r.
  repeat rewrite <- andb_assoc. reflexivity.
Qed.

(** A Compatible-ID feature of at least 20 bytes is reported without a
    warning exactly when its eight-byte identifier is "WINUSB" followed
    by two zero bytes; it never counts an error and leaves the offset
    alone. *)
Theorem msos20_compatible_id_winusb (data : buffer) (wLength : Z)
  (v : MsOs20.vars) (t : trace) :
  20 <= wLength ->
  wp (MsOs20.feature_compatible_id data wLength v)
    (fun v' t' =>
       MsOs20.offset v' = MsOs20.offset v /\
       MsOs20.error_count v' = MsOs20.error_count v /\
       n_errors t' = n_errors t /\
       (MsOs20.warning_count v' = MsOs20.warning_count v
        <-> bytes_at data (MsOs20.offset v + 4) WINUSB_ID = true) /\
       (n_warnings t' = n_warnings t
        <-> bytes_at data (MsOs20.offset v + 4) WINUSB_ID = true)) t.
Proof.
  intros Hlen. rewrite winusb_bytes.
  unfold MsOs20.feature_compatible_id, MsOs20.when, MsOs20.warning.
  wp_go; try lia;
    repeat match goal with
           | H : negb _ = true |- _ => apply negb_true_iff in H
           | H : negb _ = false |- _ => apply negb_false_iff in H
           | H : _ || _ = true |- _ => apply orb_true_iff in H
           | H : _ || _ = false |- _ =>
               apply orb_false_iff in H; destruct H
           end;
    cbn [MsOs20.offset MsOs20.error_count MsOs20.warning_count];
    autorewrite with tally; cbn [is_error is_warning sev];
    repeat match goal with
           | H : (MsOs20.strncmp _ _ _ =? 0) = _ |- _ => rewrite H
           | H : (u8 _ _ =? 0) = _ |- _ => rewrite H
           end;
    cbn [andb];
    repeat split; intros; try lia; try discriminate; try reflexivity.
  all: destruct H as [H|H]; rewrite H;
    rewrite ?andb_false_r; cbn [andb]; try lia; try discriminate;
    intros; try lia; try discriminate.
Qed.

Lemma msos20_compatible_id_winusb_witness :
  20 <= 20 /\
  wp (MsOs20.feature_compatible_id
        ([x14; x00; x03; x00] ++ WINUSB_ID) 20
        {| MsOs20.offset := 0; MsOs20.error_count := 0;
           MsOs20.warning_count := 0 |})
    (fun v' t' =>
       MsOs20.offset v' = 0 /\
       MsOs20.error_count v' = 0 /\
       n_errors t' = n_errors empty_trace /\
       (MsOs20.warning_count v' = 0
        <-> bytes_at ([x14; x00; x03; x00] ++ WINUSB_ID) (0 + 4) WINUSB_ID
            = true) /\
       (n_warnings t' = n_warnings empty_trace
        <-> bytes_at ([x14; x00; x03; x00] ++ WINUSB_ID) (0 + 4) WINUSB_ID
            = true)) empty_trace.
Proof.
  split; [lia|].
  apply (msos20_compatible_id_winusb ([x14; x00; x03; x00] ++ WINUSB_ID) 20
           {| MsOs20.offset := 0; MsOs20.error_count := 0;
              MsOs20.warning_count := 0 |} empty_trace).
  lia.
Defined.

(* ================================================================== *)
(** ** [main] *)

Lemma wp_total {A} (m : M A) (Q : A -> trace -> Prop) (t : trace) :
  wp m Q t -> wp m (fun _ _ => True) t.
Proof. intros H. eapply wp_mono; [exact H | auto]. Qed.

Lemma hex_dump_total (title : string) (buffer : buffer) (result : Z)
  (t : trace) :
  wp (Main.hex_dump title buffer result) (fun _ _ => True) t.
Proof.
  unfold Main.hex_dump. wp_go.
  eapply wp_mono; [apply hex_dump_bytes_spec; lia|].
  cbv beta. intros _ t' _. wp_go; exact I.
Qed.

Lemma bos_decode_total (data : buffer) (length : Z) (t : trace) :
  wp (Bos.decode 255 data length) (fun _ _ => True) t.
Proof.
  eapply wp_total, (wp_yields anything), bos_decode_returns.
Qed.

Lemma msos20_decode_total (data : buffer) (length : Z) (t : trace) :
  wp (MsOs20.decode (Z.to_nat length) data length) (fun _ _ => True) t.
Proof.
  unfold MsOs20.decode, MsOs20.summary. wp_go.
  eapply wp_mono.
  - eapply (wp_yields anything), msos20_walk_returns.
    cbn [MsOs20.offset]. lia.
  - cbv beta. intros v t' _. wp_go; exact I.
Qed.

Lemma webusb_url_decode_total (data : buffer) (length : Z) (t : trace) :
  wp (WebUsbUrl.decode (Z.to_nat length) data length) (fun _ _ => True) t.
Proof.
  unfold WebUsbUrl.decode. wp_go; try exact I.
  all: unfold wp at 1; rewrite scheme_spec; wp_go; try exact I.
  unfold wp at 1. rewrite url_bytes_spec by lia. wp_go. exact I.
Qed.

Lemma transfers_app (c1 c2 : list call) :
  transfers (c1 ++ c2) = transfers c1 ++ transfers c2.
Proof. apply flat_map_app. Qed.

Lemma detach_kernel_driver_spec (e : env) (calls : list call) (t : trace) :
  wp (detach_kernel_driver e calls)
    (fun calls' _ =>
       exists used,
         calls' = calls ++ used /\
         forallb on_device used = true /\
         transfers used = []) t.
Proof.
  unfold detach_kernel_driver. wp_go;
    rewrite <- ?app_assoc; eexists; (split; [reflexivity|]);
    split; reflexivity.
Qed.

Lemma fetch_webusb_url_spec (e : env) (calls : list call) (codes : Z * Z)
  (t : trace) :
  wp (fetch_webusb_url e calls codes)
    (fun calls' _ =>
       exists result data,
         calls' = calls ++ [ControlTransfer (WEBUSB_URL_REQUEST e codes)
                              result data]) t.
Proof.
  unfold fetch_webusb_url. wp_go.
  - eapply wp_mono; [apply hex_dump_total|]. cbv beta. intros _ t1 _.
    eapply wp_mono; [apply webusb_url_decode_total|]. cbv beta.
    intros _ t2 _. wp_go. eauto.
  - eauto.
  - eauto.
Qed.

Lemma fetch_bos_spec (e : env) (calls : list call) (t : trace) :
  wp (fetch_bos e calls)
    (fun calls' _ =>
       let answer := libusb_control_transfer e calls (BOS_REQUEST e) in
       let result := fst answer in
       let data := snd answer in
       let codes :=
         codes_or_zero (first_webusb (Z.to_nat (u8 data 4)) data result 5) in
       exists url,
         calls' = calls ++ ControlTransfer (BOS_REQUEST e) result data :: url /\
         forallb on_device url = true /\
         map (fun x => fst (fst x)) (transfers url) =
           if (result >? 0) && Main.fetches_url codes
           then [WEBUSB_URL_REQUEST e codes] else []) t.
Proof.
  unfold fetch_bos.
  destruct (libusb_control_transfer e calls (BOS_REQUEST e))
    as [result data].
  cbn [fst snd]. wp_go.
  - eapply wp_mono; [apply hex_dump_total|]. cbv beta. intros _ t1 _.
    wp_go. eapply wp_mono; [apply bos_decode_total|]. cbv beta.
    intros _ t2 _. wp_go.
    eapply wp_mono; [apply webusb_scan_spec|].
    + pose proof (u8_range data 4). lia.
    + cbv beta. intros codes t3 Hc. rewrite Z.sub_0_r in Hc. subst codes.
      cbn [andb]. wp_go.
      * eapply wp_mono; [apply fetch_webusb_url_spec|]. cbv beta.
        intros calls' _ (r & d & ->). rewrite <- app_assoc. cbn [app].
        eexists [ControlTransfer _ r d].
        repeat split; reflexivity.
      * exists []. repeat split; reflexivity.
  - exists []. repeat split; reflexivity.
Qed.

Lemma fetch_msos20_spec (e : env) (calls : list call) (t : trace) :
  wp (fetch_msos20 e calls)
    (fun fetched _ =>
       exists data,
         snd fetched
         = calls ++ [ControlTransfer MSOS20_REQUEST (fst fetched) data]) t.
Proof.
  unfold fetch_msos20, msos20_failure_hint. wp_go; cbn [fst snd]; eauto.
  all: eapply wp_mono; [apply hex_dump_total|]; cbv beta; intros _ t1 _;
    (eapply wp_mono; [apply msos20_decode_total|]); cbv beta; intros _ t2 _;
    wp_go; cbn [fst snd]; eauto.
Qed.

(** The exit status and the calls of every run of [main]. *)
Lemma main_runs (e : env) (argv : list string) (t : trace) :
  wp (main e argv)
    (fun r _ =>
       match ids e argv with
       | None => fst r = -1 /\ snd r = []
       | Some (vid, pid) =>
           let init := Init (libusb_init e) in
           let handle := libusb_open_device_with_vid_pid e vid pid in
           let open := OpenDeviceWithVidPid vid pid handle in
           if negb (libusb_init e =? 0) then
             fst r = -1 /\ snd r = [init]
           else if negb handle then
             fst r = -1 /\ snd r = [init; open; Exit]
           else
             exists used url result data,
               let opened := [init; open] ++ used in
               let bos :=
                 libusb_control_transfer e opened (BOS_REQUEST e) in
               let codes :=
                 codes_or_zero
                   (first_webusb (Z.to_nat (u8 (snd bos) 4)) (snd bos)
                      (fst bos) 5) in
               snd r =
                 opened
                 ++ ControlTransfer (BOS_REQUEST e) (fst bos) (snd bos)
                    :: url
                 ++ [ControlTransfer MSOS20_REQUEST result data; Close; Exit]
               /\ forallb on_device used = true
               /\ transfers used = []
               /\ forallb on_device url = true
               /\ map (fun x => fst (fst x)) (transfers url) =
                    (if (fst bos >? 0) && Main.fetches_url codes
                     then [WEBUSB_URL_REQUEST e codes] else [])
               /\ fst r = if result >? 0 then 0 else -1
       end) t.
Proof.
  unfold main.
  destruct argv as [|a0 [|a1 [|a2 [|a3 rest]]]]; cbn [ids List.length];
    destruct (Z.of_nat _ =? 3) eqn:Eargc;
    try (exfalso;
         first [apply Z.eqb_eq in Eargc | apply Z.eqb_neq in Eargc]; lia);
    cbn [negb];
    try solve [wp_go; cbn [fst snd]; split; reflexivity].
  cbn [negb nth].
  destruct (parse_id e a1) as [vid|]; [|wp_go; split; reflexivity].
  destruct (parse_id e a2) as [pid|]; [|wp_go; split; reflexivity].
  wp_go; cbn [fst snd negb]; try (split; reflexivity).
  eapply wp_mono; [apply detach_kernel_driver_spec|]. cbv beta.
  intros calls1 t1 (used & -> & Hused & Hnone). wp_go.
  eapply wp_mono; [apply fetch_bos_spec|]. cbv beta zeta.
  intros calls2 t2 (url & -> & Hurl & Hreq). wp_go.
  eapply wp_mono; [apply fetch_msos20_spec|]. cbv beta.
  intros [result calls3] t3 (data & Hcalls). cbn [fst snd] in *. subst calls3.
  wp_go. cbn [fst snd].
  match goal with H : negb ?h = false |- _ =>
    apply negb_false_iff in H; rewrite H in * end.
  exists used, url, result, data.
  split; [|auto].
  rewrite <- !app_assoc. cbn [app]. rewrite <- ?app_assoc. reflexivity.
Qed.

Lemma last_three {A} (l l' : list A) (a b c a' b' c' : A) :
  l ++ [a; b; c] = l' ++ [a'; b'; c'] -> a = a'.
Proof.
  intros H.
  change (l ++ [a; b; c]) with (l ++ [a] ++ [b] ++ [c]) in H.
  change (l' ++ [a'; b'; c']) with (l' ++ [a'] ++ [b'] ++ [c']) in H.
  rewrite !app_assoc in H.
  apply app_inj_tail in H. destruct H as [H _].
  apply app_inj_tail in H. destruct H as [H _].
  apply app_inj_tail in H. tauto.
Qed.

(** [main] always returns, with status 0 or -1, and the status is 0
    exactly when the last call before [libusb_close] and [libusb_exit]
    is the MS OS 2.0 transfer and it has delivered at least one byte:
    neither the BOS nor the URL transfer has a say. *)
Theorem main_exit_status (e : env) (argv : list string) :
  exists code calls t,
    main e argv empty_trace = Some ((code, calls), t) /\
    (code = 0 \/ code = -1) /\
    (code = 0 <->
     exists before result data,
       calls = before ++ [ControlTransfer MSOS20_REQUEST result data;
                          Close; Exit] /\
       0 < result).
Proof.
  pose proof (main_runs e argv empty_trace) as Hrun.
  apply wp_run in Hrun. destruct Hrun as ([code calls] & t & E & H).
  exists code, calls, t. split; [exact E|]. cbn [fst snd] in H.
  destruct (ids e argv) as [[vid pid]|].
  - cbv zeta in H.
    destruct (negb (libusb_init e =? 0));
      [|destruct (negb (libusb_open_device_with_vid_pid e vid pid))].
    + destruct H as [-> ->]. split; [now right|]. split; [discriminate|].
      intros (before & result & data & H & _). exfalso.
      apply (f_equal (@List.length call)) in H.
      rewrite length_app in H. cbn [List.length] in H. lia.
    + destruct H as [-> ->]. split; [now right|]. split; [discriminate|].
      intros (before & result & data & H & _). exfalso.
      apply (last_three [] before) in H. discriminate.
    + destruct H as (used & url & result & data & Hcalls & _ & _ & _ & _ & ->).
      set (opened := _ ++ used) in Hcalls.
      set (bos := ControlTransfer (BOS_REQUEST e) _ _) in Hcalls.
      clearbody bos opened. clear E. subst calls.
      split; [destruct (result >? 0); auto|]. split.
      * intros Hcode. destruct (result >? 0) eqn:Er; [|discriminate].
        exists (opened ++ bos :: url), result, data.
        split; [|lia]. now rewrite <- app_assoc.
      * intros (before & result' & data' & H & Hpos).
        rewrite app_comm_cons, app_assoc in H.
        apply last_three in H. injection H as -> _.
        now replace (result' >? 0) with true by lia.
  - destruct H as [-> ->]. split; [now right|]. split; [discriminate|].
    intros (before & result & data & H & _). exfalso.
    now destruct before.
Qed.

Lemma forallb_rev {A} (f : A -> bool) (l : list A) :
  forallb f (rev l) = forallb f l.
Proof.
  induction l as [|a l IH]; [reflexivity|].
  cbn [rev forallb]. rewrite forallb_app, IH. cbn [forallb].
  rewrite andb_true_r. apply andb_comm.
Qed.

(** The libusb calls of every run of [main] form a well-formed session:
    none at all, or [libusb_init] alone when it fails, or a successful
    [libusb_init] paired with a final [libusb_exit]; the device is used
    only after it has been opened, and is then closed just before
    [libusb_exit]. *)
Theorem main_session (e : env) (argv : list string) :
  exists code calls t,
    main e argv empty_trace = Some ((code, calls), t) /\
    session calls = true.
Proof.
  pose proof (main_runs e argv empty_trace) as Hrun.
  apply wp_run in Hrun. destruct Hrun as ([code calls] & t & E & H).
  exists code, calls, t. split; [exact E|]. cbn [fst snd] in H. clear E.
  destruct (ids e argv) as [[vid pid]|]; [|now destruct H as [_ ->]].
  cbv zeta in H.
  destruct (libusb_init e =? 0) eqn:Einit; cbn [negb] in H.
  - destruct (libusb_open_device_with_vid_pid e vid pid) eqn:Eopen;
      cbn [negb] in H.
    + destruct H as (used & url & result & data & -> & Hused & _ & Hurl & _).
      set (bos := ControlTransfer (BOS_REQUEST e) _ _).
      assert (Hbos : on_device bos = true) by reflexivity. clearbody bos.
      cbn [app session]. rewrite Einit.
      replace (used ++ bos :: url
               ++ [ControlTransfer MSOS20_REQUEST result data; Close; Exit])
        with ((used ++ bos :: url
               ++ [ControlTransfer MSOS20_REQUEST result data])
              ++ [Close] ++ [Exit])
        by (rewrite <- !app_assoc; cbn [app]; now rewrite <- app_assoc).
      set (mid := used ++ bos :: url
                  ++ [ControlTransfer MSOS20_REQUEST result data]).
      assert (Hmid : forallb on_device mid = true).
      { unfold mid. rewrite forallb_app. cbn [forallb].
        rewrite forallb_app, Hused, Hurl, Hbos. reflexivity. }
      clearbody mid. rewrite rev_app_distr. cbn [rev app andb].
      now rewrite forallb_rev.
    + destruct H as [_ ->]. cbn [session rev app]. now rewrite Einit.
  - destruct H as [_ ->]. cbn [session]. now rewrite Einit.
Qed.

(** [main] makes the BOS and the MS OS 2.0 transfers on every device it
    opens, in this order, and between them the WebUSB URL transfer
    exactly when the BOS transfer has delivered bytes and the first
    WebUSB platform capability found among its records carries a vendor
    code and a landing-page index that are both not 0; these two bytes
    are then the request and the value of the URL transfer.  When it is
    not given two ids it accepts, or [libusb_init] fails, or the device
    is not found, it makes no transfer. *)
Theorem main_transfers (e : env) (argv : list string) :
  exists code calls t,
    main e argv empty_trace = Some ((code, calls), t) /\
    match ids e argv with
    | Some (vid, pid) =>
        if (libusb_init e =? 0) && libusb_open_device_with_vid_pid e vid pid
        then
          exists bos url msos20,
            transfers calls = bos :: url ++ [msos20] /\
            fst (fst bos) = BOS_REQUEST e /\
            fst (fst msos20) = MSOS20_REQUEST /\
            map (fun x => fst (fst x)) url =
              (let result := snd (fst bos) in
               let data := snd bos in
               let codes :=
                 codes_or_zero
                   (first_webusb (Z.to_nat (u8 data 4)) data result 5) in
               if (result >? 0) && Main.fetches_url codes
               then [WEBUSB_URL_REQUEST e codes] else [])
        else transfers calls = []
    | None => transfers calls = []
    end.
Proof.
  pose proof (main_runs e argv empty_trace) as Hrun.
  apply wp_run in Hrun. destruct Hrun as ([code calls] & t & E & H).
  exists code, calls, t. split; [exact E|]. cbn [fst snd] in H. clear E.
  destruct (ids e argv) as [[vid pid]|]; [|now destruct H as [_ ->]].
  cbv zeta in H.
  destruct (libusb_init e =? 0); cbn [negb andb] in *;
    [|now destruct H as [_ ->]].
  destruct (libusb_open_device_with_vid_pid e vid pid); cbn [negb] in H;
    [|now destruct H as [_ ->]].
  destruct H as (used & url & result & data & -> & _ & Hnone & _ & Hreq & _).
  set (opened := _ ++ used) in *.
  exists (BOS_REQUEST e,
          fst (libusb_control_transfer e opened (BOS_REQUEST e)),
          snd (libusb_control_transfer e opened (BOS_REQUEST e))),
         (transfers url), (MSOS20_REQUEST, result, data).
  cbn [fst snd]. repeat split; [|exact Hreq].
  unfold opened. rewrite !transfers_app.
  change (ControlTransfer ?r ?x ?d :: ?l) with ([ControlTransfer r x d] ++ l).
  rewrite !transfers_app, Hnone. reflexivity.
Qed.

(** [main] calls libusb only when it is given exactly two ids and
    [strtoul] reads each of them to its end as a value that is not 0
    modulo 65536; the device it then asks libusb for has these two
    16-bit values as its ids. *)
Theorem main_opens_given_ids (e : env) (argv : list string) :
  exists code calls t,
    main e argv empty_trace = Some ((code, calls), t) /\
    match ids e argv with
    | None => calls = []
    | Some (vid, pid) =>
        exists rest,
          calls =
            Init (libusb_init e)
            :: (if libusb_init e =? 0
                then OpenDeviceWithVidPid vid pid
                       (libusb_open_device_with_vid_pid e vid pid) :: rest
                else []) /\
          0 < vid < 65536 /\ 0 < pid < 65536
    end.
Proof.
  pose proof (main_runs e argv empty_trace) as Hrun.
  apply wp_run in Hrun. destruct Hrun as ([code calls] & t & E & H).
  exists code, calls, t. split; [exact E|]. cbn [fst snd] in H. clear E.
  destruct (ids e argv) as [[vid pid]|] eqn:Eids; [|now destruct H].
  assert (Hids : 0 < vid < 65536 /\ 0 < pid < 65536).
  { destruct argv as [|a0 [|a1 [|a2 [|a3 rest]]]]; try discriminate.
    cbn [ids] in Eids. unfold parse_id in Eids.
    pose proof (Z.mod_pos_bound (fst (strtoul e a1)) 65536 eq_refl).
    pose proof (Z.mod_pos_bound (fst (strtoul e a2)) 65536 eq_refl).
    destruct (negb _ || _) eqn:E1 in Eids; [discriminate|].
    destruct (negb _ || _) eqn:E2 in Eids; [discriminate|].
    injection Eids as <- <-.
    apply orb_false_iff in E1, E2. lia. }
  cbv zeta in H.
  destruct (libusb_init e =? 0) eqn:Einit; cbn [negb] in H.
  - destruct (libusb_open_device_with_vid_pid e vid pid) eqn:Eopen;
      cbn [negb] in H.
    + destruct H as (used & url & result & data & -> & _).
      cbn [app]. eexists. split; [reflexivity | exact Hids].
    + destruct H as [_ ->]. eexists. split; [reflexivity | exact Hids].
  - destruct H as [_ ->]. exists []. split; [reflexivity | exact Hids].
Qed.
